(** * app_analysis: review analytics pipeline

    A shallow embedding of the analytic core of the repository
    (data_processing.py, metrics_visualization.py, advanced_insights.py,
    find_app_id.py, the rating filter of extract_info.py and the /process
    and /search endpoints of api_main.py),
    followed by the properties of the specification that were checked
    against it and by further properties of the code.

    Python values are modelled as follows.
    - [str] is a list of code points ([Unicode.str]), classified and
      lower-cased by the tables of CPython's Unicode database; the keys of
      a dict and the strings the program spells out are [string]s.
    - [float] is an IEEE-754 binary64 datum ([spec_float], precision 53,
      emax 1024).
    - [dict] is a [gmap]; [list] is [list].
    - an exception is a value of [exn] carried by the [result] monad. *)

From Stdlib Require Import ZArith NArith Ascii String List Bool Lia.
From Stdlib Require Import Floats.SpecFloat.
From Stdlib Require DecimalString.
From stdpp Require Import base tactics option list strings gmap fin_maps.
From stdpp Require Import sorting.

Local Open Scope string_scope.
Local Open Scope list_scope.

(** ** Strings of the Python runtime

    A [str] is a sequence of code points, U+0000 to U+10FFFF, the
    surrogates included ([json.load] builds them from escapes). The tables
    are those of the Unicode Character Database 14.0.0, which CPython 3.11
    carries; [str.isspace], [str.isalnum] and [str.lower] read them, and so
    do [\s] and [\w] of [re] on a [str] pattern. *)

Module Unicode.

Definition str : Type := list N.

(** The [str] of an ASCII literal of the program. *)
Definition lit (s : string) : str := N_of_ascii <$> list_ascii_of_string s.

Definition in_ranges (ranges : list (N * N)) (c : N) : bool :=
  existsb (λ r, (r.1 <=? c)%N && (c <=? r.2)%N) ranges.

(** [str.isspace]: bidirectional class WS, B or S, or category Zs. *)
Definition WHITE_SPACE : list (N * N) :=
  [(9, 13); (28, 32); (133, 133); (160, 160); (5760, 5760); (8192, 8202);
   (8232, 8233); (8239, 8239); (8287, 8287); (12288, 12288)]%N.

(** [str.isalnum]: a letter, or a character with a decimal, digit or
    numeric value. *)
Definition ALPHANUMERIC : list (N * N) :=
  [(48, 57); (65, 90); (97, 122); (170, 170); (178, 179); (181, 181);
   (185, 186); (188, 190); (192, 214); (216, 246); (248, 705); (710, 721);
   (736, 740); (748, 748); (750, 750); (880, 884); (886, 887); (890, 893);
   (895, 895); (902, 902); (904, 906); (908, 908); (910, 929); (931, 1013);
   (1015, 1153); (1162, 1327); (1329, 1366); (1369, 1369); (1376, 1416);
   (1488, 1514); (1519, 1522); (1568, 1610); (1632, 1641); (1646, 1647);
   (1649, 1747); (1749, 1749); (1765, 1766); (1774, 1788); (1791, 1791);
   (1808, 1808); (1810, 1839); (1869, 1957); (1969, 1969); (1984, 2026);
   (2036, 2037); (2042, 2042); (2048, 2069); (2074, 2074); (2084, 2084);
   (2088, 2088); (2112, 2136); (2144, 2154); (2160, 2183); (2185, 2190);
   (2208, 2249); (2308, 2361); (2365, 2365); (2384, 2384); (2392, 2401);
   (2406, 2415); (2417, 2432); (2437, 2444); (2447, 2448); (2451, 2472);
   (2474, 2480); (2482, 2482); (2486, 2489); (2493, 2493); (2510, 2510);
   (2524, 2525); (2527, 2529); (2534, 2545); (2548, 2553); (2556, 2556);
   (2565, 2570); (2575, 2576); (2579, 2600); (2602, 2608); (2610, 2611);
   (2613, 2614); (2616, 2617); (2649, 2652); (2654, 2654); (2662, 2671);
   (2674, 2676); (2693, 2701); (2703, 2705); (2707, 2728); (2730, 2736);
   (2738, 2739); (2741, 2745); (2749, 2749); (2768, 2768); (2784, 2785);
   (2790, 2799); (2809, 2809); (2821, 2828); (2831, 2832); (2835, 2856);
   (2858, 2864); (2866, 2867); (2869, 2873); (2877, 2877); (2908, 2909);
   (2911, 2913); (2918, 2927); (2929, 2935); (2947, 2947); (2949, 2954);
   (2958, 2960); (2962, 2965); (2969, 2970); (2972, 2972); (2974, 2975);
   (2979, 2980); (2984, 2986); (2990, 3001); (3024, 3024); (3046, 3058);
   (3077, 3084); (3086, 3088); (3090, 3112); (3114, 3129); (3133, 3133);
   (3160, 3162); (3165, 3165); (3168, 3169); (3174, 3183); (3192, 3198);
   (3200, 3200); (3205, 3212); (3214, 3216); (3218, 3240); (3242, 3251);
   (3253, 3257); (3261, 3261); (3293, 3294); (3296, 3297); (3302, 3311);
   (3313, 3314); (3332, 3340); (3342, 3344); (3346, 3386); (3389, 3389);
   (3406, 3406); (3412, 3414); (3416, 3425); (3430, 3448); (3450, 3455);
   (3461, 3478); (3482, 3505); (3507, 3515); (3517, 3517); (3520, 3526);
   (3558, 3567); (3585, 3632); (3634, 3635); (3648, 3654); (3664, 3673);
   (3713, 3714); (3716, 3716); (3718, 3722); (3724, 3747); (3749, 3749);
   (3751, 3760); (3762, 3763); (3773, 3773); (3776, 3780); (3782, 3782);
   (3792, 3801); (3804, 3807); (3840, 3840); (3872, 3891); (3904, 3911);
   (3913, 3948); (3976, 3980); (4096, 4138); (4159, 4169); (4176, 4181);
   (4186, 4189); (4193, 4193); (4197, 4198); (4206, 4208); (4213, 4225);
   (4238, 4238); (4240, 4249); (4256, 4293); (4295, 4295); (4301, 4301);
   (4304, 4346); (4348, 4680); (4682, 4685); (4688, 4694); (4696, 4696);
   (4698, 4701); (4704, 4744); (4746, 4749); (4752, 4784); (4786, 4789);
   (4792, 4798); (4800, 4800); (4802, 4805); (4808, 4822); (4824, 4880);
   (4882, 4885); (4888, 4954); (4969, 4988); (4992, 5007); (5024, 5109);
   (5112, 5117); (5121, 5740); (5743, 5759); (5761, 5786); (5792, 5866);
   (5870, 5880); (5888, 5905); (5919, 5937); (5952, 5969); (5984, 5996);
   (5998, 6000); (6016, 6067); (6103, 6103); (6108, 6108); (6112, 6121);
   (6128, 6137); (6160, 6169); (6176, 6264); (6272, 6276); (6279, 6312);
   (6314, 6314); (6320, 6389); (6400, 6430); (6470, 6509); (6512, 6516);
   (6528, 6571); (6576, 6601); (6608, 6618); (6656, 6678); (6688, 6740);
   (6784, 6793); (6800, 6809); (6823, 6823); (6917, 6963); (6981, 6988);
   (6992, 7001); (7043, 7072); (7086, 7141); (7168, 7203); (7232, 7241);
   (7245, 7293); (7296, 7304); (7312, 7354); (7357, 7359); (7401, 7404);
   (7406, 7411); (7413, 7414); (7418, 7418); (7424, 7615); (7680, 7957);
   (7960, 7965); (7968, 8005); (8008, 8013); (8016, 8023); (8025, 8025);
   (8027, 8027); (8029, 8029); (8031, 8061); (8064, 8116); (8118, 8124);
   (8126, 8126); (8130, 8132); (8134, 8140); (8144, 8147); (8150, 8155);
   (8160, 8172); (8178, 8180); (8182, 8188); (8304, 8305); (8308, 8313);
   (8319, 8329); (8336, 8348); (8450, 8450); (8455, 8455); (8458, 8467);
   (8469, 8469); (8473, 8477); (8484, 8484); (8486, 8486); (8488, 8488);
   (8490, 8493); (8495, 8505); (8508, 8511); (8517, 8521); (8526, 8526);
   (8528, 8585); (9312, 9371); (9450, 9471); (10102, 10131); (11264, 11492);
   (11499, 11502); (11506, 11507); (11517, 11517); (11520, 11557);
   (11559, 11559); (11565, 11565); (11568, 11623); (11631, 11631);
   (11648, 11670); (11680, 11686); (11688, 11694); (11696, 11702);
   (11704, 11710); (11712, 11718); (11720, 11726); (11728, 11734);
   (11736, 11742); (11823, 11823); (12293, 12295); (12321, 12329);
   (12337, 12341); (12344, 12348); (12353, 12438); (12445, 12447);
   (12449, 12538); (12540, 12543); (12549, 12591); (12593, 12686);
   (12690, 12693); (12704, 12735); (12784, 12799); (12832, 12841);
   (12872, 12879); (12881, 12895); (12928, 12937); (12977, 12991);
   (13312, 19903); (19968, 42124); (42192, 42237); (42240, 42508);
   (42512, 42539); (42560, 42606); (42623, 42653); (42656, 42735);
   (42775, 42783); (42786, 42888); (42891, 42954); (42960, 42961);
   (42963, 42963); (42965, 42969); (42994, 43009); (43011, 43013);
   (43015, 43018); (43020, 43042); (43056, 43061); (43072, 43123);
   (43138, 43187); (43216, 43225); (43250, 43255); (43259, 43259);
   (43261, 43262); (43264, 43301); (43312, 43334); (43360, 43388);
   (43396, 43442); (43471, 43481); (43488, 43492); (43494, 43518);
   (43520, 43560); (43584, 43586); (43588, 43595); (43600, 43609);
   (43616, 43638); (43642, 43642); (43646, 43695); (43697, 43697);
   (43701, 43702); (43705, 43709); (43712, 43712); (43714, 43714);
   (43739, 43741); (43744, 43754); (43762, 43764); (43777, 43782);
   (43785, 43790); (43793, 43798); (43808, 43814); (43816, 43822);
   (43824, 43866); (43868, 43881); (43888, 44002); (44016, 44025);
   (44032, 55203); (55216, 55238); (55243, 55291); (63744, 64109);
   (64112, 64217); (64256, 64262); (64275, 64279); (64285, 64285);
   (64287, 64296); (64298, 64310); (64312, 64316); (64318, 64318);
   (64320, 64321); (64323, 64324); (64326, 64433); (64467, 64829);
   (64848, 64911); (64914, 64967); (65008, 65019); (65136, 65140);
   (65142, 65276); (65296, 65305); (65313, 65338); (65345, 65370);
   (65382, 65470); (65474, 65479); (65482, 65487); (65490, 65495);
   (65498, 65500); (65536, 65547); (65549, 65574); (65576, 65594);
   (65596, 65597); (65599, 65613); (65616, 65629); (65664, 65786);
   (65799, 65843); (65856, 65912); (65930, 65931); (66176, 66204);
   (66208, 66256); (66273, 66299); (66304, 66339); (66349, 66378);
   (66384, 66421); (66432, 66461); (66464, 66499); (66504, 66511);
   (66513, 66517); (66560, 66717); (66720, 66729); (66736, 66771);
   (66776, 66811); (66816, 66855); (66864, 66915); (66928, 66938);
   (66940, 66954); (66956, 66962); (66964, 66965); (66967, 66977);
   (66979, 66993); (66995, 67001); (67003, 67004); (67072, 67382);
   (67392, 67413); (67424, 67431); (67456, 67461); (67463, 67504);
   (67506, 67514); (67584, 67589); (67592, 67592); (67594, 67637);
   (67639, 67640); (67644, 67644); (67647, 67669); (67672, 67702);
   (67705, 67742); (67751, 67759); (67808, 67826); (67828, 67829);
   (67835, 67867); (67872, 67897); (67968, 68023); (68028, 68047);
   (68050, 68096); (68112, 68115); (68117, 68119); (68121, 68149);
   (68160, 68168); (68192, 68222); (68224, 68255); (68288, 68295);
   (68297, 68324); (68331, 68335); (68352, 68405); (68416, 68437);
   (68440, 68466); (68472, 68497); (68521, 68527); (68608, 68680);
   (68736, 68786); (68800, 68850); (68858, 68899); (68912, 68921);
   (69216, 69246); (69248, 69289); (69296, 69297); (69376, 69415);
   (69424, 69445); (69457, 69460); (69488, 69505); (69552, 69579);
   (69600, 69622); (69635, 69687); (69714, 69743); (69745, 69746);
   (69749, 69749); (69763, 69807); (69840, 69864); (69872, 69881);
   (69891, 69926); (69942, 69951); (69956, 69956); (69959, 69959);
   (69968, 70002); (70006, 70006); (70019, 70066); (70081, 70084);
   (70096, 70106); (70108, 70108); (70113, 70132); (70144, 70161);
   (70163, 70187); (70272, 70278); (70280, 70280); (70282, 70285);
   (70287, 70301); (70303, 70312); (70320, 70366); (70384, 70393);
   (70405, 70412); (70415, 70416); (70419, 70440); (70442, 70448);
   (70450, 70451); (70453, 70457); (70461, 70461); (70480, 70480);
   (70493, 70497); (70656, 70708); (70727, 70730); (70736, 70745);
   (70751, 70753); (70784, 70831); (70852, 70853); (70855, 70855);
   (70864, 70873); (71040, 71086); (71128, 71131); (71168, 71215);
   (71236, 71236); (71248, 71257); (71296, 71338); (71352, 71352);
   (71360, 71369); (71424, 71450); (71472, 71483); (71488, 71494);
   (71680, 71723); (71840, 71922); (71935, 71942); (71945, 71945);
   (71948, 71955); (71957, 71958); (71960, 71983); (71999, 71999);
   (72001, 72001); (72016, 72025); (72096, 72103); (72106, 72144);
   (72161, 72161); (72163, 72163); (72192, 72192); (72203, 72242);
   (72250, 72250); (72272, 72272); (72284, 72329); (72349, 72349);
   (72368, 72440); (72704, 72712); (72714, 72750); (72768, 72768);
   (72784, 72812); (72818, 72847); (72960, 72966); (72968, 72969);
   (72971, 73008); (73030, 73030); (73040, 73049); (73056, 73061);
   (73063, 73064); (73066, 73097); (73112, 73112); (73120, 73129);
   (73440, 73458); (73648, 73648); (73664, 73684); (73728, 74649);
   (74752, 74862); (74880, 75075); (77712, 77808); (77824, 78894);
   (82944, 83526); (92160, 92728); (92736, 92766); (92768, 92777);
   (92784, 92862); (92864, 92873); (92880, 92909); (92928, 92975);
   (92992, 92995); (93008, 93017); (93019, 93025); (93027, 93047);
   (93053, 93071); (93760, 93846); (93952, 94026); (94032, 94032);
   (94099, 94111); (94176, 94177); (94179, 94179); (94208, 100343);
   (100352, 101589); (101632, 101640); (110576, 110579); (110581, 110587);
   (110589, 110590); (110592, 110882); (110928, 110930); (110948, 110951);
   (110960, 111355); (113664, 113770); (113776, 113788); (113792, 113800);
   (113808, 113817); (119520, 119539); (119648, 119672); (119808, 119892);
   (119894, 119964); (119966, 119967); (119970, 119970); (119973, 119974);
   (119977, 119980); (119982, 119993); (119995, 119995); (119997, 120003);
   (120005, 120069); (120071, 120074); (120077, 120084); (120086, 120092);
   (120094, 120121); (120123, 120126); (120128, 120132); (120134, 120134);
   (120138, 120144); (120146, 120485); (120488, 120512); (120514, 120538);
   (120540, 120570); (120572, 120596); (120598, 120628); (120630, 120654);
   (120656, 120686); (120688, 120712); (120714, 120744); (120746, 120770);
   (120772, 120779); (120782, 120831); (122624, 122654); (123136, 123180);
   (123191, 123197); (123200, 123209); (123214, 123214); (123536, 123565);
   (123584, 123627); (123632, 123641); (124896, 124902); (124904, 124907);
   (124909, 124910); (124912, 124926); (124928, 125124); (125127, 125135);
   (125184, 125251); (125259, 125259); (125264, 125273); (126065, 126123);
   (126125, 126127); (126129, 126132); (126209, 126253); (126255, 126269);
   (126464, 126467); (126469, 126495); (126497, 126498); (126500, 126500);
   (126503, 126503); (126505, 126514); (126516, 126519); (126521, 126521);
   (126523, 126523); (126530, 126530); (126535, 126535); (126537, 126537);
   (126539, 126539); (126541, 126543); (126545, 126546); (126548, 126548);
   (126551, 126551); (126553, 126553); (126555, 126555); (126557, 126557);
   (126559, 126559); (126561, 126562); (126564, 126564); (126567, 126570);
   (126572, 126578); (126580, 126583); (126585, 126588); (126590, 126590);
   (126592, 126601); (126603, 126619); (126625, 126627); (126629, 126633);
   (126635, 126651); (127232, 127244); (130032, 130041); (131072, 173791);
   (173824, 177976); (177984, 178205); (178208, 183969); (183984, 191456);
   (194560, 195101); (196608, 201546)]%N.

(** The derived properties Cased and Case_Ignorable. *)
Definition CASED : list (N * N) :=
  [(65, 90); (97, 122); (170, 170); (181, 181); (186, 186); (192, 214);
   (216, 246); (248, 442); (444, 447); (452, 659); (661, 696); (704, 705);
   (736, 740); (837, 837); (880, 883); (886, 887); (890, 893); (895, 895);
   (902, 902); (904, 906); (908, 908); (910, 929); (931, 1013); (1015, 1153);
   (1162, 1327); (1329, 1366); (1376, 1416); (4256, 4293); (4295, 4295);
   (4301, 4301); (4304, 4346); (4349, 4351); (5024, 5109); (5112, 5117);
   (7296, 7304); (7312, 7354); (7357, 7359); (7424, 7615); (7680, 7957);
   (7960, 7965); (7968, 8005); (8008, 8013); (8016, 8023); (8025, 8025);
   (8027, 8027); (8029, 8029); (8031, 8061); (8064, 8116); (8118, 8124);
   (8126, 8126); (8130, 8132); (8134, 8140); (8144, 8147); (8150, 8155);
   (8160, 8172); (8178, 8180); (8182, 8188); (8305, 8305); (8319, 8319);
   (8336, 8348); (8450, 8450); (8455, 8455); (8458, 8467); (8469, 8469);
   (8473, 8477); (8484, 8484); (8486, 8486); (8488, 8488); (8490, 8493);
   (8495, 8500); (8505, 8505); (8508, 8511); (8517, 8521); (8526, 8526);
   (8544, 8575); (8579, 8580); (9398, 9449); (11264, 11492); (11499, 11502);
   (11506, 11507); (11520, 11557); (11559, 11559); (11565, 11565);
   (42560, 42605); (42624, 42653); (42786, 42887); (42891, 42894);
   (42896, 42954); (42960, 42961); (42963, 42963); (42965, 42969);
   (42997, 42998); (43000, 43002); (43824, 43866); (43868, 43880);
   (43888, 43967); (64256, 64262); (64275, 64279); (65313, 65338);
   (65345, 65370); (66560, 66639); (66736, 66771); (66776, 66811);
   (66928, 66938); (66940, 66954); (66956, 66962); (66964, 66965);
   (66967, 66977); (66979, 66993); (66995, 67001); (67003, 67004);
   (67456, 67456); (67459, 67461); (67463, 67504); (67506, 67514);
   (68736, 68786); (68800, 68850); (71840, 71903); (93760, 93823);
   (119808, 119892); (119894, 119964); (119966, 119967); (119970, 119970);
   (119973, 119974); (119977, 119980); (119982, 119993); (119995, 119995);
   (119997, 120003); (120005, 120069); (120071, 120074); (120077, 120084);
   (120086, 120092); (120094, 120121); (120123, 120126); (120128, 120132);
   (120134, 120134); (120138, 120144); (120146, 120485); (120488, 120512);
   (120514, 120538); (120540, 120570); (120572, 120596); (120598, 120628);
   (120630, 120654); (120656, 120686); (120688, 120712); (120714, 120744);
   (120746, 120770); (120772, 120779); (122624, 122633); (122635, 122654);
   (125184, 125251); (127280, 127305); (127312, 127337); (127344, 127369)]%N.

Definition CASE_IGNORABLE : list (N * N) :=
  [(39, 39); (46, 46); (58, 58); (94, 94); (96, 96); (168, 168); (173, 173);
   (175, 175); (180, 180); (183, 184); (688, 879); (884, 885); (890, 890);
   (900, 901); (903, 903); (1155, 1161); (1369, 1369); (1375, 1375);
   (1425, 1469); (1471, 1471); (1473, 1474); (1476, 1477); (1479, 1479);
   (1524, 1524); (1536, 1541); (1552, 1562); (1564, 1564); (1600, 1600);
   (1611, 1631); (1648, 1648); (1750, 1757); (1759, 1768); (1770, 1773);
   (1807, 1807); (1809, 1809); (1840, 1866); (1958, 1968); (2027, 2037);
   (2042, 2042); (2045, 2045); (2070, 2093); (2137, 2139); (2184, 2184);
   (2192, 2193); (2200, 2207); (2249, 2306); (2362, 2362); (2364, 2364);
   (2369, 2376); (2381, 2381); (2385, 2391); (2402, 2403); (2417, 2417);
   (2433, 2433); (2492, 2492); (2497, 2500); (2509, 2509); (2530, 2531);
   (2558, 2558); (2561, 2562); (2620, 2620); (2625, 2626); (2631, 2632);
   (2635, 2637); (2641, 2641); (2672, 2673); (2677, 2677); (2689, 2690);
   (2748, 2748); (2753, 2757); (2759, 2760); (2765, 2765); (2786, 2787);
   (2810, 2815); (2817, 2817); (2876, 2876); (2879, 2879); (2881, 2884);
   (2893, 2893); (2901, 2902); (2914, 2915); (2946, 2946); (3008, 3008);
   (3021, 3021); (3072, 3072); (3076, 3076); (3132, 3132); (3134, 3136);
   (3142, 3144); (3146, 3149); (3157, 3158); (3170, 3171); (3201, 3201);
   (3260, 3260); (3263, 3263); (3270, 3270); (3276, 3277); (3298, 3299);
   (3328, 3329); (3387, 3388); (3393, 3396); (3405, 3405); (3426, 3427);
   (3457, 3457); (3530, 3530); (3538, 3540); (3542, 3542); (3633, 3633);
   (3636, 3642); (3654, 3662); (3761, 3761); (3764, 3772); (3782, 3782);
   (3784, 3789); (3864, 3865); (3893, 3893); (3895, 3895); (3897, 3897);
   (3953, 3966); (3968, 3972); (3974, 3975); (3981, 3991); (3993, 4028);
   (4038, 4038); (4141, 4144); (4146, 4151); (4153, 4154); (4157, 4158);
   (4184, 4185); (4190, 4192); (4209, 4212); (4226, 4226); (4229, 4230);
   (4237, 4237); (4253, 4253); (4348, 4348); (4957, 4959); (5906, 5908);
   (5938, 5939); (5970, 5971); (6002, 6003); (6068, 6069); (6071, 6077);
   (6086, 6086); (6089, 6099); (6103, 6103); (6109, 6109); (6155, 6159);
   (6211, 6211); (6277, 6278); (6313, 6313); (6432, 6434); (6439, 6440);
   (6450, 6450); (6457, 6459); (6679, 6680); (6683, 6683); (6742, 6742);
   (6744, 6750); (6752, 6752); (6754, 6754); (6757, 6764); (6771, 6780);
   (6783, 6783); (6823, 6823); (6832, 6862); (6912, 6915); (6964, 6964);
   (6966, 6970); (6972, 6972); (6978, 6978); (7019, 7027); (7040, 7041);
   (7074, 7077); (7080, 7081); (7083, 7085); (7142, 7142); (7144, 7145);
   (7149, 7149); (7151, 7153); (7212, 7219); (7222, 7223); (7288, 7293);
   (7376, 7378); (7380, 7392); (7394, 7400); (7405, 7405); (7412, 7412);
   (7416, 7417); (7468, 7530); (7544, 7544); (7579, 7679); (8125, 8125);
   (8127, 8129); (8141, 8143); (8157, 8159); (8173, 8175); (8189, 8190);
   (8203, 8207); (8216, 8217); (8228, 8228); (8231, 8231); (8234, 8238);
   (8288, 8292); (8294, 8303); (8305, 8305); (8319, 8319); (8336, 8348);
   (8400, 8432); (11388, 11389); (11503, 11505); (11631, 11631);
   (11647, 11647); (11744, 11775); (11823, 11823); (12293, 12293);
   (12330, 12333); (12337, 12341); (12347, 12347); (12441, 12446);
   (12540, 12542); (40981, 40981); (42232, 42237); (42508, 42508);
   (42607, 42610); (42612, 42621); (42623, 42623); (42652, 42655);
   (42736, 42737); (42752, 42785); (42864, 42864); (42888, 42890);
   (42994, 42996); (43000, 43001); (43010, 43010); (43014, 43014);
   (43019, 43019); (43045, 43046); (43052, 43052); (43204, 43205);
   (43232, 43249); (43263, 43263); (43302, 43309); (43335, 43345);
   (43392, 43394); (43443, 43443); (43446, 43449); (43452, 43453);
   (43471, 43471); (43493, 43494); (43561, 43566); (43569, 43570);
   (43573, 43574); (43587, 43587); (43596, 43596); (43632, 43632);
   (43644, 43644); (43696, 43696); (43698, 43700); (43703, 43704);
   (43710, 43711); (43713, 43713); (43741, 43741); (43756, 43757);
   (43763, 43764); (43766, 43766); (43867, 43871); (43881, 43883);
   (44005, 44005); (44008, 44008); (44013, 44013); (64286, 64286);
   (64434, 64450); (65024, 65039); (65043, 65043); (65056, 65071);
   (65106, 65106); (65109, 65109); (65279, 65279); (65287, 65287);
   (65294, 65294); (65306, 65306); (65342, 65342); (65344, 65344);
   (65392, 65392); (65438, 65439); (65507, 65507); (65529, 65531);
   (66045, 66045); (66272, 66272); (66422, 66426); (67456, 67461);
   (67463, 67504); (67506, 67514); (68097, 68099); (68101, 68102);
   (68108, 68111); (68152, 68154); (68159, 68159); (68325, 68326);
   (68900, 68903); (69291, 69292); (69446, 69456); (69506, 69509);
   (69633, 69633); (69688, 69702); (69744, 69744); (69747, 69748);
   (69759, 69761); (69811, 69814); (69817, 69818); (69821, 69821);
   (69826, 69826); (69837, 69837); (69888, 69890); (69927, 69931);
   (69933, 69940); (70003, 70003); (70016, 70017); (70070, 70078);
   (70089, 70092); (70095, 70095); (70191, 70193); (70196, 70196);
   (70198, 70199); (70206, 70206); (70367, 70367); (70371, 70378);
   (70400, 70401); (70459, 70460); (70464, 70464); (70502, 70508);
   (70512, 70516); (70712, 70719); (70722, 70724); (70726, 70726);
   (70750, 70750); (70835, 70840); (70842, 70842); (70847, 70848);
   (70850, 70851); (71090, 71093); (71100, 71101); (71103, 71104);
   (71132, 71133); (71219, 71226); (71229, 71229); (71231, 71232);
   (71339, 71339); (71341, 71341); (71344, 71349); (71351, 71351);
   (71453, 71455); (71458, 71461); (71463, 71467); (71727, 71735);
   (71737, 71738); (71995, 71996); (71998, 71998); (72003, 72003);
   (72148, 72151); (72154, 72155); (72160, 72160); (72193, 72202);
   (72243, 72248); (72251, 72254); (72263, 72263); (72273, 72278);
   (72281, 72283); (72330, 72342); (72344, 72345); (72752, 72758);
   (72760, 72765); (72767, 72767); (72850, 72871); (72874, 72880);
   (72882, 72883); (72885, 72886); (73009, 73014); (73018, 73018);
   (73020, 73021); (73023, 73029); (73031, 73031); (73104, 73105);
   (73109, 73109); (73111, 73111); (73459, 73460); (78896, 78904);
   (92912, 92916); (92976, 92982); (92992, 92995); (94031, 94031);
   (94095, 94111); (94176, 94177); (94179, 94180); (110576, 110579);
   (110581, 110587); (110589, 110590); (113821, 113822); (113824, 113827);
   (118528, 118573); (118576, 118598); (119143, 119145); (119155, 119170);
   (119173, 119179); (119210, 119213); (119362, 119364); (121344, 121398);
   (121403, 121452); (121461, 121461); (121476, 121476); (121499, 121503);
   (121505, 121519); (122880, 122886); (122888, 122904); (122907, 122913);
   (122915, 122916); (122918, 122922); (123184, 123197); (123566, 123566);
   (123628, 123631); (125136, 125142); (125252, 125259); (127995, 127999);
   (917505, 917505); (917536, 917631); (917760, 917999)]%N.

(** The simple lower case mappings, in runs [(first, last, step, image of
    first)]: every [step]-th code point from [first] to [last] maps to the
    code point at the same distance from the image of [first]. *)
Definition LOWERCASE : list (N * N * N * N) :=
  [(65, 90, 1, 97); (192, 214, 1, 224); (216, 222, 1, 248); (256, 302, 2, 257);
   (306, 310, 2, 307); (313, 327, 2, 314); (330, 374, 2, 331);
   (376, 376, 1, 255); (377, 381, 2, 378); (385, 385, 1, 595);
   (386, 388, 2, 387); (390, 390, 1, 596); (391, 391, 1, 392);
   (393, 394, 1, 598); (395, 395, 1, 396); (398, 398, 1, 477);
   (399, 399, 1, 601); (400, 400, 1, 603); (401, 401, 1, 402);
   (403, 403, 1, 608); (404, 404, 1, 611); (406, 406, 1, 617);
   (407, 407, 1, 616); (408, 408, 1, 409); (412, 412, 1, 623);
   (413, 413, 1, 626); (415, 415, 1, 629); (416, 420, 2, 417);
   (422, 422, 1, 640); (423, 423, 1, 424); (425, 425, 1, 643);
   (428, 428, 1, 429); (430, 430, 1, 648); (431, 431, 1, 432);
   (433, 434, 1, 650); (435, 437, 2, 436); (439, 439, 1, 658);
   (440, 440, 1, 441); (444, 444, 1, 445); (452, 452, 1, 454);
   (453, 453, 1, 454); (455, 455, 1, 457); (456, 456, 1, 457);
   (458, 458, 1, 460); (459, 475, 2, 460); (478, 494, 2, 479);
   (497, 497, 1, 499); (498, 500, 2, 499); (502, 502, 1, 405);
   (503, 503, 1, 447); (504, 542, 2, 505); (544, 544, 1, 414);
   (546, 562, 2, 547); (570, 570, 1, 11365); (571, 571, 1, 572);
   (573, 573, 1, 410); (574, 574, 1, 11366); (577, 577, 1, 578);
   (579, 579, 1, 384); (580, 580, 1, 649); (581, 581, 1, 652);
   (582, 590, 2, 583); (880, 882, 2, 881); (886, 886, 1, 887);
   (895, 895, 1, 1011); (902, 902, 1, 940); (904, 906, 1, 941);
   (908, 908, 1, 972); (910, 911, 1, 973); (913, 929, 1, 945);
   (931, 939, 1, 963); (975, 975, 1, 983); (984, 1006, 2, 985);
   (1012, 1012, 1, 952); (1015, 1015, 1, 1016); (1017, 1017, 1, 1010);
   (1018, 1018, 1, 1019); (1021, 1023, 1, 891); (1024, 1039, 1, 1104);
   (1040, 1071, 1, 1072); (1120, 1152, 2, 1121); (1162, 1214, 2, 1163);
   (1216, 1216, 1, 1231); (1217, 1229, 2, 1218); (1232, 1326, 2, 1233);
   (1329, 1366, 1, 1377); (4256, 4293, 1, 11520); (4295, 4295, 1, 11559);
   (4301, 4301, 1, 11565); (5024, 5103, 1, 43888); (5104, 5109, 1, 5112);
   (7312, 7354, 1, 4304); (7357, 7359, 1, 4349); (7680, 7828, 2, 7681);
   (7838, 7838, 1, 223); (7840, 7934, 2, 7841); (7944, 7951, 1, 7936);
   (7960, 7965, 1, 7952); (7976, 7983, 1, 7968); (7992, 7999, 1, 7984);
   (8008, 8013, 1, 8000); (8025, 8031, 2, 8017); (8040, 8047, 1, 8032);
   (8072, 8079, 1, 8064); (8088, 8095, 1, 8080); (8104, 8111, 1, 8096);
   (8120, 8121, 1, 8112); (8122, 8123, 1, 8048); (8124, 8124, 1, 8115);
   (8136, 8139, 1, 8050); (8140, 8140, 1, 8131); (8152, 8153, 1, 8144);
   (8154, 8155, 1, 8054); (8168, 8169, 1, 8160); (8170, 8171, 1, 8058);
   (8172, 8172, 1, 8165); (8184, 8185, 1, 8056); (8186, 8187, 1, 8060);
   (8188, 8188, 1, 8179); (8486, 8486, 1, 969); (8490, 8490, 1, 107);
   (8491, 8491, 1, 229); (8498, 8498, 1, 8526); (8544, 8559, 1, 8560);
   (8579, 8579, 1, 8580); (9398, 9423, 1, 9424); (11264, 11311, 1, 11312);
   (11360, 11360, 1, 11361); (11362, 11362, 1, 619); (11363, 11363, 1, 7549);
   (11364, 11364, 1, 637); (11367, 11371, 2, 11368); (11373, 11373, 1, 593);
   (11374, 11374, 1, 625); (11375, 11375, 1, 592); (11376, 11376, 1, 594);
   (11378, 11378, 1, 11379); (11381, 11381, 1, 11382); (11390, 11391, 1, 575);
   (11392, 11490, 2, 11393); (11499, 11501, 2, 11500);
   (11506, 11506, 1, 11507); (42560, 42604, 2, 42561);
   (42624, 42650, 2, 42625); (42786, 42798, 2, 42787);
   (42802, 42862, 2, 42803); (42873, 42875, 2, 42874); (42877, 42877, 1, 7545);
   (42878, 42886, 2, 42879); (42891, 42891, 1, 42892); (42893, 42893, 1, 613);
   (42896, 42898, 2, 42897); (42902, 42920, 2, 42903); (42922, 42922, 1, 614);
   (42923, 42923, 1, 604); (42924, 42924, 1, 609); (42925, 42925, 1, 620);
   (42926, 42926, 1, 618); (42928, 42928, 1, 670); (42929, 42929, 1, 647);
   (42930, 42930, 1, 669); (42931, 42931, 1, 43859); (42932, 42946, 2, 42933);
   (42948, 42948, 1, 42900); (42949, 42949, 1, 642); (42950, 42950, 1, 7566);
   (42951, 42953, 2, 42952); (42960, 42960, 1, 42961);
   (42966, 42968, 2, 42967); (42997, 42997, 1, 42998);
   (65313, 65338, 1, 65345); (66560, 66599, 1, 66600);
   (66736, 66771, 1, 66776); (66928, 66938, 1, 66967);
   (66940, 66954, 1, 66979); (66956, 66962, 1, 66995);
   (66964, 66965, 1, 67003); (68736, 68786, 1, 68800);
   (71840, 71871, 1, 71872); (93760, 93791, 1, 93792);
   (125184, 125217, 1, 125218)]%N.

Definition is_space (c : N) : bool := in_ranges WHITE_SPACE c.

(** [\w]: [str.isalnum] or an underscore. *)
Definition is_word (c : N) : bool := in_ranges ALPHANUMERIC c || (c =? 95)%N.

Definition cased (c : N) : bool := in_ranges CASED c.
Definition case_ignorable (c : N) : bool := in_ranges CASE_IGNORABLE c.

Definition lower_in (run : N * N * N * N) (c : N) : option N :=
  let '(first, last, step, image) := run in
  if (first <=? c)%N && (c <=? last)%N && ((c - first) mod step =? 0)%N
  then Some (image + (c - first))%N
  else None.

Fixpoint lower_lookup (runs : list (N * N * N * N)) (c : N) : option N :=
  match runs with
  | [] => None
  | run :: runs' =>
      match lower_in run c with
      | Some d => Some d
      | None => lower_lookup runs' c
      end
  end.

(** The lower case of one code point, context apart: U+0130 alone becomes
    two code points. *)
Definition lower_full (c : N) : str :=
  if (c =? 304)%N then [105; 775]%N
  else [default c (lower_lookup LOWERCASE c)].

(** Capital sigma becomes the final sigma U+03C2 when a cased letter comes
    before it and none comes after it, case-ignorable characters skipped;
    else it becomes U+03C3. [before] lists the characters before the
    sigma, the nearest first. *)
Fixpoint skip_ignorable (s : str) : str :=
  match s with
  | [] => []
  | c :: s' => if case_ignorable c then skip_ignorable s' else s
  end.

Definition final_sigma (before after : str) : bool :=
  match skip_ignorable before with
  | [] => false
  | c :: _ =>
      cased c && match skip_ignorable after with
                 | [] => true
                 | d :: _ => negb (cased d)
                 end
  end.

Fixpoint lower_from (before s : str) : str :=
  match s with
  | [] => []
  | c :: s' =>
      (if (c =? 931)%N
       then [if final_sigma before s' then 962 else 963]%N
       else lower_full c)
      ++ lower_from (c :: before) s'
  end.

(** [s.lower()] *)
Definition lower (s : str) : str := lower_from [] s.

Definition space : N := 32%N.

(** [s.strip()] *)
Fixpoint lstrip (s : str) : str :=
  match s with
  | [] => []
  | c :: s' => if is_space c then lstrip s' else s
  end.

Fixpoint rstrip (s : str) : str :=
  match s with
  | [] => []
  | c :: s' =>
      match rstrip s' with
      | [] => if is_space c then [] else [c]
      | r => c :: r
      end
  end.

Definition strip (s : str) : str := rstrip (lstrip s).

(** [s.split()] and [sep.join(tokens)] *)

Definition cons_nonempty (w : str) (ws : list str) : list str :=
  match w with
  | [] => ws
  | _ => w :: ws
  end.

(** [scan s] is the word that starts at the head of [s] (empty when [s]
    starts with white space) and the words after it. *)
Fixpoint scan (s : str) : str * list str :=
  match s with
  | [] => ([], [])
  | c :: s' =>
      let '(w, ws) := scan s' in
      if is_space c then ([], cons_nonempty w ws) else (c :: w, ws)
  end.

Definition split (s : str) : list str :=
  let '(w, ws) := scan s in cons_nonempty w ws.

Fixpoint join (sep : str) (tokens : list str) : str :=
  match tokens with
  | [] => []
  | [t] => t
  | t :: rest => t ++ sep ++ join sep rest
  end.

End Unicode.

#[global] Arguments Unicode.is_space : simpl never.
#[global] Arguments Unicode.is_word : simpl never.
#[global] Arguments Unicode.cased : simpl never.
#[global] Arguments Unicode.case_ignorable : simpl never.
#[global] Arguments Unicode.lower_full : simpl never.

(** ** The Python runtime the code relies on *)

Module Py.

(** Exceptions the modelled code can raise. *)
Inductive exn :=
| AttributeError | KeyError | TypeError | ValueError
| OverflowError | ZeroDivisionError | UnicodeDecodeError | RecursionError.

Inductive result (A : Type) :=
| Ok (a : A)
| Raise (e : exn).
Arguments Ok {A} a.
Arguments Raise {A} e.

Definition bind {A B} (m : result A) (k : A -> result B) : result B :=
  match m with
  | Ok a => k a
  | Raise e => Raise e
  end.

(** [for x in l: ...] with a body that may raise: the loop state is
    threaded from left to right and the first exception ends the loop. *)
Fixpoint for_each {A S} (body : S -> A -> result S) (l : list A) (s : S)
  : result S :=
  match l with
  | [] => Ok s
  | x :: l' => bind (body s x) (for_each body l')
  end.

(** *** binary64 *)

Definition float := spec_float.
Definition prec : Z := 53.
Definition emax : Z := 1024.

Definition float_zero : float := S754_zero false.
Definition float_nan : float := S754_nan.

(** [float(n)] for an integer [n] (round to nearest, ties to even). *)
Definition float_of_Z (n : Z) : float := binary_normalize prec emax n 0 false.

Definition float_mul (x y : float) : float := SFmul prec emax x y.

(** The binary64 nearest to the rational [p / q], for [0 < p] and [0 < q]. *)
Definition nearest_ratio (neg : bool) (p q : Z) : float :=
  let '(mz, ez, lz) := SFdiv_core_binary prec emax p 0 q 0 in
  binary_round_aux prec emax neg mz ez lz.

(** [a / b] on two [int]s: the correctly rounded quotient. It raises
    [ZeroDivisionError] for [b = 0] and [OverflowError] when the quotient
    rounds beyond the largest float, i.e. from [2^1024 - 2^970] on. *)
Definition int_truediv (a b : Z) : result float :=
  if (b =? 0)%Z then Raise ZeroDivisionError
  else
    let neg := xorb (a <? 0)%Z (b <? 0)%Z in
    if (a =? 0)%Z then Ok (S754_zero neg)
    else if ((2 ^ 1024 - 2 ^ 970) * Z.abs b <=? Z.abs a)%Z then Raise OverflowError
    else Ok (nearest_ratio neg (Z.abs a) (Z.abs b)).

(** [int(x)] on a float: truncation towards zero; [ValueError] on NaN and
    [OverflowError] on an infinity. *)
Definition int_of_float (x : float) : result Z :=
  match x with
  | S754_zero _ => Ok 0%Z
  | S754_nan => Raise ValueError
  | S754_infinity _ => Raise OverflowError
  | S754_finite s m e =>
      let mag := match e with
                 | Zneg k => Z.shiftr (Zpos m) (Zpos k)
                 | _ => Z.shiftl (Zpos m) e
                 end in
      Ok (if s then Z.opp mag else mag)
  end.

(** [round(x, 2)]: the exact value of [x] is rounded to a multiple of
    1/100, ties to even, and the nearest float to that decimal is
    returned; NaN, infinities and zeros round to themselves. *)
Definition round_half_even (num den : Z) : Z :=
  let q := (num / den)%Z in
  let r := (num mod den)%Z in
  match (2 * r ?= den)%Z with
  | Lt => q
  | Gt => (q + 1)%Z
  | Eq => if Z.even q then q else (q + 1)%Z
  end.

Definition round2 (x : float) : float :=
  match x with
  | S754_finite s m e =>
      let hundredths :=
        match e with
        | Zneg k => round_half_even (Zpos m * 100) (2 ^ Zpos k)
        | _ => (Z.shiftl (Zpos m) e * 100)%Z
        end in
      if (hundredths =? 0)%Z then S754_zero s
      else nearest_ratio s hundredths 100
  | _ => x
  end.

(** *** Values read from JSON *)

#[warnings="-register-all"]
Inductive value :=
| PNone
| PBool (b : bool)
| PInt (n : Z)
| PFloat (x : float)
| PStr (s : Unicode.str)
| PList (l : list value)
| PDict (d : gmap string value).

(** [d.get(k)] and [d.get(k, dflt)]. *)
Definition dict_get (d : gmap string value) (k : string) : value :=
  default PNone (d !! k).
Definition dict_get_or (d : gmap string value) (k : string) (dflt : value) : value :=
  default dflt (d !! k).

(** Truth value testing, as used by [not v]. *)
Definition truthy (v : value) : bool :=
  match v with
  | PNone => false
  | PBool b => b
  | PInt n => negb (n =? 0)%Z
  | PFloat (S754_zero _) => false
  | PFloat _ => true
  | PStr s => match s with [] => false | _ => true end
  | PList l => match l with [] => false | _ => true end
  | PDict d => negb (bool_decide (d = ∅))
  end.

End Py.

(** The [result] monad uses stdpp's notation [x ← m; k]. *)
#[global] Instance result_ret : MRet Py.result := @Py.Ok.
#[global] Instance result_bind : MBind Py.result := λ A B k m, Py.bind m k.
#[global] Instance result_fmap : FMap Py.result :=
  λ A B f m, Py.bind m (λ a, Py.Ok (f a)).

(** ** data_processing.py *)

Module data_processing.
Import Py Unicode.

(** *** [URL_PATTERN = re.compile(r"https?://\S+|www\.\S+")] *)

(** [strip_prefix p s] is the rest of [s] after the literal [p], if [s]
    starts with it. *)
Fixpoint strip_prefix (p s : str) : option str :=
  match p, s with
  | [], _ => Some s
  | a :: p', b :: s' => if (a =? b)%N then strip_prefix p' s' else None
  | _ :: _, [] => None
  end.

(** The literal [p] followed by at least one non-space character. *)
Definition literal_then_nonspace (p : string) (s : str) : bool :=
  match strip_prefix (lit p) s with
  | Some (c :: _) => negb (is_space c)
  | _ => false
  end.

(** Does [URL_PATTERN] match at the very start of [s]? With the optional
    [s] of [https?] either taken or not. *)
Definition URL_PATTERN_matches_at (s : str) : bool :=
  literal_then_nonspace "https://" s
  || literal_then_nonspace "http://" s
  || literal_then_nonspace "www." s.

(** [URL_PATTERN.sub(" ", text)]: the text is scanned from the left; where
    the pattern matches, the match is replaced by one space. The greedy
    [\S+] makes a match run up to the next white space (or the end), and
    every character of the literal prefix is a non-space, so a match is
    skipped by dropping non-space characters ([in_match] holds while
    inside one). *)
Fixpoint URL_PATTERN_sub_from (in_match : bool) (s : str) : str :=
  match s with
  | [] => []
  | c :: s' =>
      if in_match && negb (is_space c) then URL_PATTERN_sub_from true s'
      else if URL_PATTERN_matches_at s then space :: URL_PATTERN_sub_from true s'
      else c :: URL_PATTERN_sub_from false s'
  end.

Definition URL_PATTERN_sub (text : str) : str :=
  URL_PATTERN_sub_from false text.

(** *** [NON_WORD_PATTERN = re.compile(r"[^\w\s]", re.UNICODE)] *)

Definition NON_WORD_PATTERN_sub (text : str) : str :=
  map (λ c, if is_word c || is_space c then c else space) text.

(** *** [re.sub("\s+", " ", text)] *)

(** Every maximal run of white space becomes one space ([in_run] holds
    after a white space character). *)
Fixpoint collapse_from (in_run : bool) (s : str) : str :=
  match s with
  | [] => []
  | c :: s' =>
      if is_space c
      then (if in_run then collapse_from true s' else space :: collapse_from true s')
      else c :: collapse_from false s'
  end.

Definition collapse_whitespace (text : str) : str :=
  collapse_from false text.

(** *** [STOPWORDS] *)

Definition STOPWORDS : gset str :=
  list_to_set
    (lit <$>
     [ "a"; "an"; "the"; "and"; "or"; "but"; "if"; "in"; "on"; "at"; "to";
       "for"; "of"; "is"; "it"; "be"; "as"; "by"; "this"; "that"; "with";
       "from"; "are"; "was"; "were"; "so"; "we"; "he"; "she"; "they"; "you";
       "i"; "me"; "my"; "our"; "your"; "their" ]).

Definition is_stopword (tok : str) : bool :=
  bool_decide (tok ∈ STOPWORDS).

(** *** [clean_text] *)

(** The body of [clean_text] after the [if not text] test. *)
Definition clean_chars (text : str) : str :=
  let text := lower text in
  let text := URL_PATTERN_sub text in
  let text := NON_WORD_PATTERN_sub text in
  let text := strip (collapse_whitespace text) in
  let tokens := List.filter (λ tok, negb (is_stopword tok)) (split text) in
  join [space] tokens.

Definition clean_text (text : str) : str :=
  match text with
  | [] => []
  | _ => clean_chars text
  end.

(** [clean_text] as [process_reviews] calls it, on whatever value the raw
    JSON holds: a falsy value gives the empty text, and [text.lower()]
    raises [AttributeError] on anything else that is not a [str]. *)
Definition clean_text_of_value (text : value) : result str :=
  if negb (truthy text) then Ok []
  else match text with
       | PStr s => Ok (clean_text s)
       | _ => Raise AttributeError
       end.

(** *** Raw review files *)

(** What [open] and [json.load] make of a raw file: one of the
    exceptions they raise, or the decoded value. *)
Inductive file_content :=
| Unreadable              (* OSError *)
| NotUtf8                 (* UnicodeDecodeError *)
| NotJson                 (* json.JSONDecodeError *)
| TooDeep                 (* RecursionError, on deeply nested JSON *)
| IntegerTooLong          (* ValueError, on an integer past the digit limit *)
| Json (data : value).

(** A file [data/raw/<country>/app_<app_id>_reviews_<...>.json]. *)
Record raw_file := {
  file_country : string;
  file_app_id : Z;
  file_content_of : file_content;
}.

(** [glob.glob(pattern)]: the files of the requested application, in the
    order the file system lists them. *)
Definition glob (fs : list raw_file) (app_id : Z) : list raw_file :=
  filter (λ f, file_app_id f = app_id) fs.

(** *** Runs that print and may raise *)

Inductive printed :=
| NoRawFilesFound
| ErrorLoading (file : raw_file)
| ErrorProcessingReview (id : value).

Definition run (A : Type) : Type := list printed * result A.

Definition run_bind {A B} (m : run A) (k : A -> run B) : run B :=
  match m with
  | (out, Ok a) => let '(out', r) := k a in (out ++ out', r)
  | (out, Raise e) => (out, Raise e)
  end.

#[global] Instance run_ret : MRet run := λ A a, ([], Ok a).
#[global] Instance run_mbind : MBind run := λ A B k m, run_bind m k.

Definition print (p : printed) : run unit := ([p], Ok tt).
Definition raise {A} (e : exn) : run A := ([], Raise e).

(** *** [load_reviews] *)

Definition load_reviews (file : raw_file) : run value :=
  match file_content_of file with
  | Json (PDict data) => mret (dict_get_or data "reviews" (PList []))
  | Json _ => raise AttributeError          (* [data.get] on a non-dict *)
  | NotUtf8 => raise UnicodeDecodeError     (* not among the caught classes *)
  | TooDeep => raise RecursionError         (* nor this one *)
  | IntegerTooLong => raise ValueError      (* nor a plain [ValueError] *)
  | NotJson | Unreadable => _ ← print (ErrorLoading file); mret (PList [])
  end.

(** *** [process_reviews] *)

Record cleaned_entry := {
  id : value;
  country : string;
  rating : value;
  title : value;
  content : value;
  cleaned_title : str;
  cleaned_content : str;
}.

(** The items a [for] loop draws from a value. *)
Definition iterate (v : value) : result (list value) :=
  match v with
  | PList l => Ok l
  | PDict d => Ok ((λ k, PStr (lit k)) <$> (map_to_list d).*1)
  | PStr s => Ok ((λ c, PStr [c]) <$> s)
  | _ => Raise TypeError
  end.

(** The body of the loop over the reviews of one file. A review that is
    not a dict has no [get]: the [try] block raises, and so does the
    handler's own [review.get('id')], which nothing catches. *)
Definition process_review (file_dir : string) (review : value)
  : run (option cleaned_entry) :=
  match review with
  | PDict d =>
      let t := dict_get_or d "title" (PStr []) in
      let c := dict_get_or d "content" (PStr []) in
      match clean_text_of_value t, clean_text_of_value c with
      | Ok ct, Ok cc =>
          mret (Some {| id := dict_get d "id"; country := file_dir;
                        rating := dict_get d "rating"; title := t; content := c;
                        cleaned_title := ct; cleaned_content := cc |})
      | _, _ => _ ← print (ErrorProcessingReview (dict_get d "id")); mret None
      end
  | _ => raise AttributeError
  end.

Fixpoint process_file_reviews (file_dir : string) (reviews : list value)
  (cleaned_entries : list cleaned_entry) : run (list cleaned_entry) :=
  match reviews with
  | [] => mret cleaned_entries
  | review :: rest =>
      entry ← process_review file_dir review;
      process_file_reviews file_dir rest
        (match entry with
         | Some e => cleaned_entries ++ [e]
         | None => cleaned_entries
         end)
  end.

Fixpoint process_files (files : list raw_file)
  (cleaned_entries : list cleaned_entry) : run (list cleaned_entry) :=
  match files with
  | [] => mret cleaned_entries
  | file_path :: rest =>
      reviews ← load_reviews file_path;
      items ← ([], iterate reviews);
      cleaned_entries ←
        process_file_reviews (file_country file_path) items cleaned_entries;
      process_files rest cleaned_entries
  end.

Definition process_reviews (fs : list raw_file) (app_id : Z)
  : run (list cleaned_entry) :=
  let files := glob fs app_id in
  match files with
  | [] => _ ← print NoRawFilesFound; mret []
  | _ => process_files files []
  end.

End data_processing.

(** ** api_main.py: the [/process] endpoint *)

Module api_main.
Import Py.

Inductive response :=
| HTTP_200 (entries : list data_processing.cleaned_entry)
| HTTP_404
| HTTP_500
| Unhandled (e : exn).

(** [saved] tells whether the cleaned file could be written and read back,
    which is all that happens once the 404 test is passed. An exception
    that [process_reviews] lets through is not handled here. *)
Definition process_reviews_endpoint (fs : list data_processing.raw_file)
  (saved : bool) (app_id : Z) : response :=
  match data_processing.process_reviews fs app_id with
  | (_, Raise e) => Unhandled e
  | (_, Ok cleaned) =>
      match cleaned with
      | [] => HTTP_404
      | _ => if saved then HTTP_200 cleaned else HTTP_500
      end
  end.

End api_main.

(** ** metrics_visualization.py *)

Module metrics_visualization.
Import Py.

Definition RATING_RANGE : list Z := [1; 2; 3; 4; 5]%Z.

Record metrics := {
  average_rating : value;
  rating_counts : gmap Z nat;
  total_reviews : nat;
}.

(** [{r: 0 for r in RATING_RANGE}] *)
Definition zero_counts : gmap Z nat :=
  list_to_map ((λ r, (r, 0)) <$> RATING_RANGE).

(** [isinstance(v, (int, float))]; [bool] is a subclass of [int]. *)
Definition is_int_or_float (v : value) : bool :=
  match v with
  | PBool _ | PInt _ | PFloat _ => true
  | _ => false
  end.

(** [int(v)] on such a value (the only values it is applied to). *)
Definition int_of (v : value) : result Z :=
  match v with
  | PBool b => Ok (Z.b2z b)
  | PInt n => Ok n
  | PFloat x => int_of_float x
  | _ => Raise TypeError
  end.

(** [d[k]] *)
Definition getitem (d : gmap string value) (k : string) : result value :=
  match d !! k with
  | Some v => Ok v
  | None => Raise KeyError
  end.

(** The body of the loop over [valid_reviews]; the state is
    [(rating_counts, rating_sum)]. *)
Definition count_rating (st : gmap Z nat * Z) (rev : gmap string value)
  : result (gmap Z nat * Z) :=
  let '(rating_counts, rating_sum) := st in
  v ← getitem rev "rating";
  rating ← int_of v;
  let rating_counts :=
    match rating_counts !! rating with
    | Some n => <[rating := S n]> rating_counts
    | None => rating_counts
    end in
  Ok (rating_counts, (rating_sum + rating)%Z).

Definition calculate_metrics (reviews : list (gmap string value))
  : result metrics :=
  match reviews with
  | [] => Ok {| average_rating := PInt 0; rating_counts := zero_counts;
                total_reviews := 0 |}
  | _ =>
      let valid_reviews :=
        filter (λ r, is_int_or_float (dict_get r "rating")) reviews in
      let total_reviews := length valid_reviews in
      '(rating_counts, rating_sum) ←
        for_each count_rating valid_reviews (zero_counts, 0%Z);
      avg_rating ←
        (if (0 <? total_reviews)%nat
         then PFloat <$> int_truediv rating_sum (Z.of_nat total_reviews)
         else Ok (PInt 0));
      Ok {| average_rating := avg_rating; rating_counts := rating_counts;
            total_reviews := total_reviews |}
  end.

End metrics_visualization.

(** ** Strings the program spells out

    [capitalize] is applied to the three sentiment names only, which the
    program spells out in ASCII; it is given on [string], for the code
    points below U+0100. *)

Module Latin1.

Definition code (c : ascii) : N := N_of_ascii c.

Definition between (lo hi n : N) : bool := (lo <=? n)%N && (n <=? hi)%N.

Definition lower_char (c : ascii) : ascii :=
  let n := code c in
  if between 65 90 n || between 192 214 n || between 216 222 n
  then ascii_of_N (n + 32)
  else c.

(** [s.lower()] *)
Definition lower (text : list ascii) : list ascii := map lower_char text.

End Latin1.

(** ** advanced_insights.py *)

Module advanced_insights.
Import Py.

(** A row of the review frame once [apply_sentiment] has run. Of the frame
    it is given, [apply_sentiment] reads the [cleaned_content] column only
    (a [str] in every entry [data_processing] writes), and the frame it
    returns has the columns [sentiment] and [sentiment_score], with or
    without rows: this is the frame [main] hands to [sentiment_metrics],
    [keyword_extraction] and [build_sunburst]. *)
Record row := {
  cleaned_content : string;
  sentiment : string;
  sentiment_score : float;
}.

(** One item of the classifier's output, [{"label": ..., "score": ...}]. *)
Record classification := {
  label : Unicode.str;
  score : value;
}.

(** *** [transformer_sentiment] *)

(** [range(0, n, step)] *)
Definition range_step (n step : nat) : list nat :=
  (λ k, k * step) <$> seq 0 ((n + step - 1) `div` step).

Definition batch_size : nat := 32.

(** [sent_pipe] stands for the Hugging Face pipeline. *)
Definition transformer_sentiment
  (sent_pipe : list string -> list classification) (texts : list string)
  : list classification :=
  foldl (λ all_results i,
           let batch := take batch_size (drop i texts) in
           all_results ++ sent_pipe batch)
        [] (range_step (length texts) batch_size).

(** *** [apply_sentiment] *)

(** [r["label"].lower()] and the comparisons that follow. *)
Definition canonical_label (raw : Unicode.str) : string :=
  let label := Unicode.lower raw in
  if bool_decide (label = Unicode.lit "neutral") then "neutral"
  else if bool_decide (label = Unicode.lit "positive") then "positive"
  else "negative".

(** [r["score"] if isinstance(r["score"], float) else 0.0] *)
Definition stored_score (v : value) : float :=
  match v with
  | PFloat x => x
  | _ => float_zero
  end.

(** The frame [load_reviews] builds from the entries of the cleaned
    file, as far as [apply_sentiment] reads it. [pd.DataFrame(entries)]
    has the columns that are keys of some entry, so without an entry it
    has no column. The column [cleaned_content] holds the strings that
    [process_reviews] stored, which [fillna] and [astype(str)] leave as
    they are. *)
Inductive frame :=
| NoColumn
| Column (texts : list string).

(** [df["cleaned_content"]] raises [KeyError] on a frame without that
    column; assigning a column whose length is not the frame's raises
    [ValueError]. *)
Definition apply_sentiment
  (sent_pipe : list string -> list classification) (df : frame)
  : result (list row) :=
  match df with
  | NoColumn => Raise KeyError
  | Column df =>
      let texts := df in
      let results := transformer_sentiment sent_pipe texts in
      let labels := (λ r, canonical_label (label r)) <$> results in
      let scores := (λ r, stored_score (score r)) <$> results in
      if bool_decide (length results = length df)
      then Ok (zip_with (λ text ls, {| cleaned_content := text;
                                        sentiment := ls.1;
                                        sentiment_score := ls.2 |})
                        df (zip labels scores))
      else Raise ValueError
  end.

(** *** [sentiment_metrics] *)

Record metrics := {
  total_reviews : nat;
  counts : gmap string nat;
  percentages : gmap string float;
  average_score : float;
}.

(** [Series.value_counts().to_dict()] *)
Definition value_counts (labels : list string) : gmap string nat :=
  foldl (λ m l, <[l := S (default 0 (m !! l))]> m) ∅ labels.

Definition is_nan (x : float) : bool :=
  match x with S754_nan => true | _ => false end.

(** [Series.mean()] on a column of floats: NaN counts for nothing; with no
    other value the mean is NaN, else it is the sum of the values, with
    0.0 in the place of a NaN, over their number. [add_up] stands for the
    summation of numpy, whose order of additions is its own. *)
Definition series_mean (add_up : list float -> float) (xs : list float)
  : float :=
  let count := length (filter (λ x, is_nan x = false) xs) in
  if (count =? 0)%nat then float_nan
  else SFdiv prec emax
         (add_up ((λ x, if is_nan x then float_zero else x) <$> xs))
         (float_of_Z (Z.of_nat count)).

Definition sentiment_metrics (add_up : list float -> float) (df : list row)
  : result metrics :=
  let total := length df in
  let counts := value_counts (sentiment <$> df) in
  items ← mapM (λ kv : string * nat,
                  p ← int_truediv (100 * Z.of_nat kv.2) (Z.of_nat total);
                  Ok (kv.1, round2 p))
               (map_to_list counts);
  let percentages : gmap string float := list_to_map items in
  let avg_score := series_mean add_up (sentiment_score <$> df) in
  Ok {| total_reviews := total; counts := counts;
        percentages := percentages; average_score := avg_score |}.

(** *** [keyword_extraction] *)

Definition SENTIMENTS : list string := ["positive"; "negative"; "neutral"].

(** [df.loc[df["sentiment"] == sentiment, "cleaned_content"].tolist()] *)
Definition texts_of (df : list row) (s : string) : list string :=
  cleaned_content <$> filter (λ r, sentiment r = s) df.

(** [extract_keywords] stands for [kw_model.extract_keywords] (with the
    fixed n-gram range and stop word option). The second component of the
    state lists the texts handed to it, call by call. *)
Definition keyword_extraction_calls
  (extract_keywords : string -> nat -> list (string * float))
  (df : list row) (top_n : nat)
  : gmap string (list (string * float)) * list string :=
  foldl (λ '(keywords_by_sentiment, calls) s,
           match texts_of df s with
           | [] => (<[s := []]> keywords_by_sentiment, calls)
           | texts =>
               let joined_text := String.concat " " texts in
               let keywords := extract_keywords joined_text top_n in
               (<[s := keywords]> keywords_by_sentiment,
                calls ++ [joined_text])
           end)
        (∅, []) SENTIMENTS.

Definition keyword_extraction
  (extract_keywords : string -> nat -> list (string * float))
  (df : list row) (top_n : nat) : gmap string (list (string * float)) :=
  (keyword_extraction_calls extract_keywords df top_n).1.

(** *** [build_sunburst] *)

(** [str.capitalize]; of the code points below U+0100 the micro sign,
    the sharp s and y with diaeresis have their upper case outside that
    range and are left as they are. *)
Definition upper_char (c : ascii) : ascii :=
  let n := Latin1.code c in
  if Latin1.between 97 122 n || Latin1.between 224 246 n
     || Latin1.between 248 254 n
  then ascii_of_N (n - 32)
  else c.

Definition capitalize (s : string) : string :=
  match s with
  | EmptyString => EmptyString
  | String c rest =>
      String (upper_char c)
             (string_of_list_ascii (Latin1.lower (list_ascii_of_string rest)))
  end.

(** The three parallel lists handed to [px.sunburst]. *)
Record sunburst := {
  labels : list string;
  parents : list string;
  values : list value;
}.

Definition append_node (sb : sunburst) (l p : string) (v : value) : sunburst :=
  {| labels := labels sb ++ [l]; parents := parents sb ++ [p];
     values := values sb ++ [v] |}.

Definition build_sunburst (m : metrics)
  (keywords : gmap string (list (string * float))) : sunburst :=
  foldl (λ sb s,
           let count := default 0 (counts m !! s) in
           if (count =? 0)%nat then sb
           else
             let sb := append_node sb (capitalize s) "Reviews"
                                   (PInt (Z.of_nat count)) in
             foldl (λ sb '(word, score),
                      append_node sb word (capitalize s)
                        (PFloat (round2 (float_mul score (float_of_Z 100)))))
                   sb (take 50 (default [] (keywords !! s))))
        {| labels := ["Reviews"]; parents := [""];
           values := [PInt (Z.of_nat (total_reviews m))] |}
        SENTIMENTS.

(** *** [generate_insights] *)

Definition PRICING : string :=
  "Pricing concerns detected. Consider revisiting subscription plans or offering trials.".
Definition STABILITY : string :=
  "Users report stability issues. Prioritize bug fixes and QA.".
Definition AUTHENTICATION : string :=
  "Login or account issues prevalent. Simplify authentication flow.".
Definition ADS : string :=
  "Negative sentiment around ads. Evaluate frequency and placement of advertisements.".
Definition PERFORMANCE : string :=
  "Performance issues noted. Optimize app speed and responsiveness.".
Definition STREAMING : string :=
  "Users compare the app with YouTube/other streaming platforms and question the subscription's value. Clearly communicate unique offerings, consider content diversification, and evaluate pricing tiers.".
Definition FALLBACK : string :=
  "Sentiment analysis did not highlight specific dominant issues. Continue monitoring.".

(** [any(k in neg_keywords for k in triggers)] *)
Definition any_in (neg_keywords triggers : list string) : bool :=
  existsb (λ k, bool_decide (k ∈ neg_keywords)) triggers.

(** [if cond: insights.append(message)] *)
Definition append_if (cond : bool) (message : string) (insights : list string)
  : list string :=
  if cond then insights ++ [message] else insights.

Definition generate_insights (keywords : gmap string (list (string * float)))
  : list string :=
  let insights := [] in
  let neg_keywords := (take 50 (default [] (keywords !! "negative"))).*1 in
  let insights :=
    append_if (any_in neg_keywords ["price"; "subscription"; "pay"])
              PRICING insights in
  let insights :=
    append_if (any_in neg_keywords ["bug"; "crash"; "error"; "issue"])
              STABILITY insights in
  let insights :=
    append_if (any_in neg_keywords ["login"; "account"; "sign"])
              AUTHENTICATION insights in
  let insights :=
    append_if (any_in neg_keywords ["ads"; "advert"]) ADS insights in
  let insights :=
    append_if (any_in neg_keywords ["slow"; "lag"; "performance"])
              PERFORMANCE insights in
  let insights :=
    append_if (any_in neg_keywords ["youtube"; "streaming"; "video"; "channel"])
              STREAMING insights in
  append_if (bool_decide (insights = [])) FALLBACK insights.

End advanced_insights.

(** ** metrics_visualization.py: the CSV file of [save_metrics] *)

Module metrics_files.
Import Py metrics_visualization.

(** [str(n)] on an [int]. *)
Definition str_of_Z (n : Z) : string :=
  DecimalString.NilZero.string_of_int (Z.to_int n).

Definition newline : string := String (ascii_of_nat 10) "".

(** [f"{x:.2f}"] on a float: the exact value rounded to hundredths, ties
    to even, written with at least one digit before the point. *)
Definition two_digits (n : Z) : string :=
  ((if (n <? 10)%Z then "0" else "") ++ str_of_Z n)%string.

Definition format_2f (x : float) : string :=
  match x with
  | S754_nan => "nan"
  | S754_infinity s => if s then "-inf" else "inf"
  | S754_zero s => if s then "-0.00" else "0.00"
  | S754_finite s m e =>
      let hundredths :=
        match e with
        | Zneg k => round_half_even (Zpos m * 100) (2 ^ Zpos k)
        | _ => (Z.shiftl (Zpos m) e * 100)%Z
        end in
      ((if s then "-" else "") ++ str_of_Z (hundredths / 100) ++ "."
       ++ two_digits (hundredths mod 100))%string
  end.

(** The same on an [int] or a [float]; an [int] is converted to a float
    first, which overflows from [2^1024 - 2^970] on. *)
Definition format_2f_value (v : value) : result string :=
  match v with
  | PFloat x => Ok (format_2f x)
  | PInt n =>
      if (2 ^ 1024 - 2 ^ 970 <=? Z.abs n)%Z then Raise OverflowError
      else Ok (format_2f (float_of_Z n))
  | PBool b => Ok (format_2f (float_of_Z (Z.b2z b)))
  | _ => Raise TypeError
  end.

(** [sorted(d.keys(), reverse=True)] *)
Definition keys_descending (d : gmap Z nat) : list Z :=
  merge_sort Z.ge (map_to_list d).*1.

(** [100 * count / total if total else 0] *)
Definition percentage_or_zero (count total : nat) : result value :=
  match total with
  | 0 => Ok (PInt 0)
  | _ => PFloat <$> int_truediv (100 * Z.of_nat count) (Z.of_nat total)
  end.

Definition csv_header : string := ("Rating,Count,Percentage" ++ newline)%string.

(** One line of the CSV file. *)
Definition csv_row (m : metrics) (r : Z) : result string :=
  count ← match rating_counts m !! r with
          | Some c => Ok c
          | None => Raise KeyError
          end;
  perc ← percentage_or_zero count (total_reviews m);
  text ← format_2f_value perc;
  Ok (str_of_Z r ++ "," ++ str_of_Z (Z.of_nat count) ++ "," ++ text
      ++ newline)%string.

(** What [save_metrics] writes to [rating_distribution.csv], write by
    write. *)
Definition save_metrics_csv (m : metrics) : result (list string) :=
  rows ← mapM (csv_row m) (keys_descending (rating_counts m));
  Ok (csv_header :: rows).

End metrics_files.

(** ** find_app_id.py *)

Module find_app_id.
Import Py Unicode.

Definition is_str (v : value) : bool :=
  match v with PStr _ => true | _ => false end.

Definition valid_countries : list str :=
  lit <$> ["us"; "ua"; "gb"; "ca"; "au"; "de"; "fr"; "jp"; "kr"; "cn"].

(** The tests are chained with [or]: the method calls of the last
    operand are reached with a [str] only. *)
Definition validate_search_inputs (app_name country : value) : result unit :=
  if negb (truthy app_name) || negb (is_str app_name)
     || match app_name with
        | PStr s => (length (strip s) =? 0)%nat
        | _ => true
        end
  then Raise ValueError
  else
  if negb (truthy country) || negb (is_str country)
     || match country with
        | PStr c => negb (length c =? 2)%nat
        | _ => true
        end
  then Raise ValueError
  else
  match country with
  | PStr c =>
      if bool_decide (lower c ∈ valid_countries) then Ok tt
      else Raise ValueError
  | _ => Raise AttributeError
  end.

(** What the functions of this file print; [ResultLines] stands for the
    eight lines printed for one application. *)
Inductive printed :=
| Searching (app_name country : value)
| ErrorInvalidJson
| ErrorUnexpectedFormat
| NoResultsFound
| ResultsHeading
| ResultLines (i : nat) (app_data : gmap string value)
| WarningExtracting (e : exn)
| WarningErrorCount (error_count : nat)
| ErrorTimeout
| ErrorConnection
| ErrorHTTP
| ErrorDuringSearch
| UnexpectedError (e : exn).

Definition FIELDS : list string :=
  ["trackName"; "artistName"; "trackId"; "primaryGenreName";
   "averageUserRating"; "userRatingCount"; "trackViewUrl"; "bundleId";
   "releaseDate"; "version"].

(** A result that is not a dict has no [get]; the [except] clause turns
    the [AttributeError] into a warning and [None]. *)
Definition safe_extract_app_data (result : value)
  : list printed * option (gmap string value) :=
  match result with
  | PDict d =>
      ([], Some (list_to_map
                   ((λ k, (k, dict_get_or d k (PStr (lit "Unknown")))) <$> FIELDS)))
  | _ => ([WarningExtracting AttributeError], None)
  end.

(** What [requests.get], [raise_for_status] and [response.json()] come to:
    one of the exceptions of [requests], a body that is not JSON, or the
    decoded body. *)
Inductive response :=
| Timeout
| ConnectionError
| HTTPError
| RequestException
| InvalidJson
| Json (data : value).

(** [enumerate(results, 1)] *)
Definition enumerate {A} (start : nat) (l : list A) : list (nat * A) :=
  imap (λ i x, (start + i, x)) l.

(** One round of the loop over the results: what is printed, the valid
    results and the error count. *)
Definition search_step
  (acc : list printed * list (gmap string value) * nat)
  (item : nat * value) : list printed * list (gmap string value) * nat :=
  let '(out, valid_results, error_count) := acc in
  let '(i, result) := item in
  let '(warning, app_data) := safe_extract_app_data result in
  match app_data with
  | Some app_data =>
      if truthy (PDict app_data)
      then (out ++ warning ++ [ResultLines i app_data],
            valid_results ++ [app_data], error_count)
      else (out ++ warning, valid_results, S error_count)
  | None => (out ++ warning, valid_results, S error_count)
  end.

(** [http term country] stands for the request to the search service.
    Every exception is caught inside the function: the result is what was
    printed and the list returned. *)
Definition search_app_store (http : str -> str -> response)
  (app_name country : value) : list printed * list (gmap string value) :=
  match validate_search_inputs app_name country with
  | Raise e => ([UnexpectedError e], [])
  | Ok _ =>
  match app_name, country with
  | PStr name, PStr c =>
      let out := [Searching app_name country] in
      match http (strip name) (lower c) with
      | Timeout => (out ++ [ErrorTimeout], [])
      | ConnectionError => (out ++ [ErrorConnection], [])
      | HTTPError => (out ++ [ErrorHTTP], [])
      | RequestException => (out ++ [ErrorDuringSearch], [])
      | InvalidJson => (out ++ [ErrorInvalidJson], [])
      | Json (PDict data) =>
          let results := dict_get_or data "results" (PList []) in
          if negb (truthy results) then (out ++ [NoResultsFound], [])
          else
            match data_processing.iterate results with
            | Raise e => (out ++ [ResultsHeading; UnexpectedError e], [])
            | Ok items =>
                let '(out', valid_results, error_count) :=
                  foldl search_step ([], [], 0) (enumerate 1 items) in
                (out ++ [ResultsHeading] ++ out'
                   ++ (if (0 <? error_count)%nat
                       then [WarningErrorCount error_count] else []),
                 valid_results)
            end
      | Json _ => (out ++ [ErrorUnexpectedFormat], [])
      end
  | _, _ => ([UnexpectedError AttributeError], [])
  end
  end.

End find_app_id.

(** ** api_main.py: the /search endpoint *)

Module api_search.
Import Py Unicode find_app_id.

(** What a request comes to: FastAPI rejects it with status 422 before
    the handler runs, or the handler returns the results (which FastAPI
    then serializes as the body of the response), or it raises
    [HTTPException]. *)
Inductive answer :=
| Rejected_422
| Returned (results : list (gmap string value))
| HTTPException (status_code : Z).

(** What the [try] block can raise: an [HTTPException] of its own or an
    exception of the callee. *)
Inductive raised :=
| RaisedHTTPException (status_code : Z)
| Raised (e : exn).

(** The [try] block of the handler. *)
Definition search_app_body (http : str -> str -> response)
  (name country : str) : raised + list (gmap string value) :=
  let results := (search_app_store http (PStr name) (PStr country)).2 in
  if negb (truthy (PList (PDict <$> results)))
  then inl (RaisedHTTPException 404)
  else inr results.

(** The handler: the [except] clauses in their order, [ValueError] first,
    then [Exception], of which [HTTPException] is a subclass. *)
Definition search_app_handler (http : str -> str -> response)
  (name country : str) : answer :=
  match search_app_body http name country with
  | inr results => Returned results
  | inl (Raised ValueError) => HTTPException 400
  | inl _ => HTTPException 500
  end.

(** The endpoint with the checks its signature declares: [name] is
    required, [country] defaults to "us" and, when given, must be two
    characters long. [None] stands for a parameter the request leaves
    out. *)
Definition search_app (http : str -> str -> response)
  (name country : option str) : answer :=
  match name with
  | None => Rejected_422
  | Some name =>
      match country with
      | None => search_app_handler http name (lit "us")
      | Some country =>
          if (length country =? 2)%nat
          then search_app_handler http name country
          else Rejected_422
      end
  end.

End api_search.

(** ** extract_info.py: the reviews [calculate_statistics] keeps *)

Module extract_info.
Import Py.

(** [r and isinstance(r.get("rating"), (int, float))
       and 1 <= r["rating"] <= 5] *)
Definition valid_review (r : gmap string value) : bool :=
  truthy (PDict r)
  && match dict_get r "rating" with
     | PBool b => b
     | PInt n => (1 <=? n)%Z && (n <=? 5)%Z
     | PFloat x => SFleb (float_of_Z 1) x && SFleb x (float_of_Z 5)
     | _ => false
     end.

(** [valid_reviews = [r for r in reviews if ...]] *)
Definition valid_reviews (reviews : list (gmap string value))
  : list (gmap string value) :=
  List.filter valid_review reviews.

End extract_info.

(** * Vocabulary of the statements *)

(** ** Text *)

Section table_vocabulary.
Import Unicode.

(** The code points from [lo] to [hi]. *)
Definition span (lo hi : N) : list N :=
  (λ k, lo + N.of_nat k)%N <$> seq 0 (N.to_nat (hi + 1 - lo)).

(** Every code point of a table, listed. *)
Definition listed (ranges : list (N * N)) : list N :=
  flat_map (λ r, span r.1 r.2) ranges.

(** The images of a run of the lower case table. *)
Definition images (run : N * N * N * N) : list N :=
  omap (lower_in run) (span run.1.1.1 run.1.1.2).

End table_vocabulary.

Section text_vocabulary.
Import Unicode data_processing.

(** A character [lower] leaves as it is wherever it stands. *)
Definition lower_fixed (c : N) : bool :=
  bool_decide (lower_full c = [c]) && negb (c =? 931)%N.

(** A character the second pass leaves alone: a word character or white
    space that is its own lower case. *)
Definition settled (c : N) : bool :=
  (is_word c || is_space c) && lower_fixed c.

(** A token of [split]: non empty, without white space. *)
Definition token (P : N -> Prop) (t : str) : Prop :=
  t ≠ [] ∧ Forall (λ c, is_space c = false ∧ P c) t.

(** The text [clean_chars] returns, word by word. *)
Definition clean_tokens (text : str) : list str :=
  List.filter (λ tok, negb (is_stopword tok))
    (split (NON_WORD_PATTERN_sub (URL_PATTERN_sub (lower text)))).

End text_vocabulary.

(** ** Star ratings *)

Section rating_vocabulary.
Import Py metrics_visualization.

Definition rating_of (r : gmap string value) : value := dict_get r "rating".

(** The reviews [calculate_metrics] keeps. *)
Definition has_numeric_rating (r : gmap string value) : bool :=
  is_int_or_float (rating_of r).

Definition sum_Z (ns : list Z) : Z := foldr Z.add 0%Z ns.

(** How many of [ns] equal each of the five star values. *)
Definition bucket_counts (ns : list Z) : gmap Z nat :=
  list_to_map ((λ r, (r, length (filter (λ n, n = r) ns))) <$> RATING_RANGE).

Definition mean_rating (ns : list Z) : result value :=
  if (0 <? length ns)%nat
  then PFloat <$> int_truediv (sum_Z ns) (Z.of_nat (length ns))
  else Ok (PInt 0).

(** [rating_counts[rating] += 1] under [if rating in rating_counts]. *)
Definition tally (c : gmap Z nat) (n : Z) : gmap Z nat :=
  match c !! n with
  | Some k => <[n := S k]> c
  | None => c
  end.

End rating_vocabulary.

(** ** Sentiment *)

Section sentiment_vocabulary.
Import Py advanced_insights.

Definition is_float (v : value) : bool :=
  match v with
  | PFloat _ => true
  | _ => false
  end.

(** A numeric score: an [int] or a [float]. *)
Definition is_number (v : value) : bool :=
  match v with
  | PInt _ | PFloat _ => true
  | _ => false
  end.

(** [round(100 * n / total, 2)], NaN standing for a division that
    raises. *)
Definition percentage (total n : nat) : float :=
  match int_truediv (100 * Z.of_nat n) (Z.of_nat total) with
  | Ok q => round2 q
  | Raise _ => float_nan
  end.

(** *** Rounding

    The code rounds three times: the quotient to a float, its
    hundredths to an integer, and that integer over 100 to a float
    again. *)

(** The value of a float in units of [2^-1074], the least positive float:
    every finite float is a whole number of them. *)
Definition units (x : float) : Z :=
  match x with
  | S754_finite s m e => (if s then -1 else 1) * (Zpos m * 2 ^ (e + 1074))
  | _ => 0
  end.

(** The unit in the last place of a float, in the same units. *)
Definition ulp (x : float) : Z :=
  match x with
  | S754_finite _ _ e => 2 ^ (e + 1074)
  | _ => 1
  end.

(** A zero, or a finite float in its one valid form (53 bits of mantissa,
    fewer below [2^-1022]). *)
Definition well_formed (x : float) : bool :=
  match x with
  | S754_zero _ => true
  | S754_finite _ m e => bounded prec emax m e
  | _ => false
  end.

(** [x] is the ratio [a / b] rounded to a float: it differs from it by
    half a unit in its last place at most. *)
Definition rounded (a b : Z) (x : float) : Prop :=
  well_formed x = true
  ∧ (2 * Z.abs (units x * b - a * 2 ^ 1074) ≤ ulp x * b)%Z.

(** [h] is [100 x] rounded to an integer: it differs from it by a half at
    most, and is even when it differs by exactly a half. *)
Definition hundredths (x : float) (h : Z) : Prop :=
  let twice_off := (2 * Z.abs (100 * units x - h * 2 ^ 1074))%Z in
  (twice_off ≤ 2 ^ 1074)%Z
  ∧ (twice_off = 2 ^ 1074 -> Z.even h = true)%Z.

(** [p] is [100 * n / total] rounded to two decimals the way
    [round(100 * n / total, 2)] does it: the quotient is rounded to a
    float [q], the hundredths of [q] to an integer [h], and [h / 100] to
    the float [p]. *)
Definition rounded_percentage (n total : nat) (p : float) : Prop :=
  ∃ (q : float) (h : Z),
    rounded (100 * Z.of_nat n) (Z.of_nat total) q
    ∧ hundredths q h
    ∧ rounded h 100 p.

(** Where the ratio [A / B] lies with respect to the mantissa of a shift
    record and its two bits: in [[m, m + 1)], with the round bit telling
    whether it is in the upper half and the sticky bit whether it is
    strictly inside a half. *)
Definition located (A B : Z) (mrs : shr_record) : Prop :=
  let rest := (A - shr_m mrs * B)%Z in
  (0 ≤ shr_m mrs)%Z ∧ (0 < B)%Z ∧ (0 ≤ rest < B)%Z
  ∧ (shr_r mrs = true ↔ (B ≤ 2 * rest)%Z)
  ∧ (shr_s mrs = true ↔ (2 * rest ≠ 0 ∧ 2 * rest ≠ B)%Z).

End sentiment_vocabulary.

(** ** The hierarchy *)

Section hierarchy_vocabulary.
Import Py advanced_insights.

(** A node: its label, the label of its parent and its weight. *)
Definition node : Type := string * string * value.

(** The node sequence the three parallel lists stand for. *)
Definition nodes (sb : sunburst) : list node :=
  zip (zip (labels sb) (parents sb)) (values sb).

Definition sunburst_of (ns : list node) : sunburst :=
  {| labels := ns.*1.*1; parents := ns.*1.*2; values := ns.*2 |}.

Definition count_of (m : metrics) (s : string) : nat :=
  default 0 (counts m !! s).

Definition keyword_node (s : string) (kw : string * float) : node :=
  (kw.1, capitalize s, PFloat (round2 (float_mul kw.2 (float_of_Z 100)))).

Definition bucket_node (m : metrics) (s : string) : node :=
  (capitalize s, "Reviews", PInt (Z.of_nat (count_of m s))).

(** The nodes one sentiment contributes. *)
Definition bucket_nodes (m : metrics)
  (keywords : gmap string (list (string * float))) (s : string) : list node :=
  if (count_of m s =? 0)%nat then []
  else bucket_node m s
       :: (keyword_node s <$> take 50 (default [] (keywords !! s))).

(** The three kinds of node of a hierarchy built for [m]. *)
Inductive node_kind (m : metrics) : node -> Prop :=
| root_node :
    node_kind m ("Reviews", "", PInt (Z.of_nat (total_reviews m)))
| sentiment_node s :
    s ∈ SENTIMENTS -> count_of m s ≠ 0 ->
    node_kind m (bucket_node m s)
| word_node s kw :
    s ∈ SENTIMENTS -> count_of m s ≠ 0 ->
    node_kind m (keyword_node s kw).

(** Every node of [ns] has its parent among [seen] or before it in
    [ns]. *)
Fixpoint top_down (seen : list string) (ns : list node) : Prop :=
  match ns with
  | [] => True
  | n :: ns' => n.1.2 ∈ seen ∧ top_down (n.1.1 :: seen) ns'
  end.

End hierarchy_vocabulary.

(** ** Insight rules *)

Section insight_vocabulary.
Import Py advanced_insights.

(** The keywords [generate_insights] looks at. *)
Definition negative_keywords (keywords : gmap string (list (string * float)))
  : list string :=
  (take 50 (default [] (keywords !! "negative"))).*1.

(** The six tests of [generate_insights] as a table, in the order of the
    code: the trigger words and the message. *)
Definition RULES : list (list string * string) :=
  [ (["price"; "subscription"; "pay"], PRICING);
    (["bug"; "crash"; "error"; "issue"], STABILITY);
    (["login"; "account"; "sign"], AUTHENTICATION);
    (["ads"; "advert"], ADS);
    (["slow"; "lag"; "performance"], PERFORMANCE);
    (["youtube"; "streaming"; "video"; "channel"], STREAMING) ].

(** The messages of the rules that fire, in the order of the table. *)
Definition fired (neg_keywords : list string) : list string :=
  (List.filter (λ rule, any_in neg_keywords rule.1) RULES).*2.

(** A rule fires when one of its trigger words is among the keywords. *)
Definition fires (neg_keywords : list string) (rule : list string * string)
  : Prop :=
  Exists (λ k, k ∈ neg_keywords) rule.1.

(** The messages of the rules that fire, read off the table. *)
Definition triggered (neg_keywords : list string) : list string :=
  (filter (fires neg_keywords) RULES).*2.

End insight_vocabulary.

(** ** The loader *)

Section loader_vocabulary.
Import Py data_processing.

Definition is_dict (v : value) : bool :=
  match v with
  | PDict _ => true
  | _ => false
  end.

(** A raw file of the expected shape, or one that fails to open or to
    parse: if it parses, it holds an object whose ["reviews"], when
    present, is a list of objects. *)
Definition well_shaped (f : raw_file) : Prop :=
  match file_content_of f with
  | Unreadable | NotJson => True
  | Json (PDict data) =>
      match data !! "reviews" with
      | None => True
      | Some (PList l) => Forall (λ r, is_dict r) l
      | Some _ => False
      end
  | _ => False
  end.

(** The reviews the loop draws from such a file. *)
Definition reviews_of (f : raw_file) : list value :=
  match file_content_of f with
  | Json (PDict data) =>
      match data !! "reviews" with
      | Some (PList l) => l
      | _ => []
      end
  | _ => []
  end.

(** The cleaned entry of a review, when its title and its content can
    both be cleaned. *)
Definition entry_of (dir : string) (review : value) : option cleaned_entry :=
  match review with
  | PDict d =>
      let t := dict_get_or d "title" (PStr []) in
      let c := dict_get_or d "content" (PStr []) in
      match clean_text_of_value t, clean_text_of_value c with
      | Ok ct, Ok cc =>
          Some {| id := dict_get d "id"; country := dir;
                  rating := dict_get d "rating"; title := t; content := c;
                  cleaned_title := ct; cleaned_content := cc |}
      | _, _ => None
      end
  | _ => None
  end.

(** What is printed for a review that is skipped. *)
Definition skipped (dir : string) (review : value) : list printed :=
  match review, entry_of dir review with
  | PDict d, None => [ErrorProcessingReview (dict_get d "id")]
  | _, _ => []
  end.

Definition entries_of_file (f : raw_file) : list cleaned_entry :=
  omap (entry_of (file_country f)) (reviews_of f).

Definition printed_of_file (f : raw_file) : list printed :=
  match file_content_of f with
  | Unreadable | NotJson => [ErrorLoading f]
  | _ => flat_map (skipped (file_country f)) (reviews_of f)
  end.

End loader_vocabulary.

(** * Further vocabulary *)

(** ** Text *)

Section text_vocabulary_more.
Import Unicode data_processing.

(** The words of a text. *)
Definition words (s : str) : list str := split s.

End text_vocabulary_more.

(** ** The loader *)

Section loader_vocabulary_more.
Import Py data_processing.

Definition is_review_error (p : printed) : bool :=
  match p with
  | ErrorProcessingReview _ => true
  | _ => false
  end.

Definition is_load_error (p : printed) : bool :=
  match p with
  | ErrorLoading _ => true
  | _ => false
  end.

(** A file that [load_reviews] gives up on. *)
Definition fails_to_load (f : raw_file) : bool :=
  match file_content_of f with
  | Unreadable | NotJson => true
  | _ => false
  end.

End loader_vocabulary_more.

(** ** Star ratings *)

Section rating_vocabulary_more.
Import Py metrics_visualization.

(** The five buckets added up. *)
Definition bucket_total (c : gmap Z nat) : nat :=
  sum_list ((λ r, default 0 (c !! r)) <$> RATING_RANGE).

(** The review is rated with the integer [n]. *)
Definition rated (n : Z) (r : gmap string value) : bool :=
  match rating_of r with
  | PInt k => (k =? n)%Z
  | _ => false
  end.

(** NaN or an infinity. *)
Definition not_finite (x : float) : bool :=
  match x with
  | S754_nan | S754_infinity _ => true
  | _ => false
  end.

End rating_vocabulary_more.

(** ** The CSV file *)

Section csv_vocabulary.
Import Py metrics_visualization metrics_files.

(** The percentage column of a row, the empty text standing for a
    computation that raises. *)
Definition percent_text (count total : nat) : string :=
  match percentage_or_zero count total with
  | Ok v => match format_2f_value v with
            | Ok s => s
            | Raise _ => ""
            end
  | Raise _ => ""
  end.

(** The row of rating [r] for the result [m]. *)
Definition csv_line (m : metrics) (r : Z) : string :=
  let count := default 0 (rating_counts m !! r) in
  (str_of_Z r ++ "," ++ str_of_Z (Z.of_nat count) ++ ","
   ++ percent_text count (total_reviews m) ++ newline)%string.

End csv_vocabulary.

(** ** Sentiment *)

Section sentiment_vocabulary_more.
Import Py advanced_insights.

(** The slices of [texts] that [transformer_sentiment] hands to the
    pipeline, one per round of its loop. *)
Definition batches (texts : list string) : list (list string) :=
  (λ i, take batch_size (drop i texts))
    <$> range_step (length texts) batch_size.

(** The counts of a dictionary added up. *)
Definition total_count (counts : gmap string nat) : nat :=
  sum_list (map_to_list counts).*2.

(** The rows labelled [l]. *)
Definition labelled (l : string) (df : list row) : list row :=
  filter (λ r, sentiment r = l) df.

End sentiment_vocabulary_more.

(** ** The analysis run *)

Section pipeline_vocabulary_more.
Import Py advanced_insights.

(** The weights of the nodes of [ns] whose parent is [p], added up (a
    weight that is not an [int] counts for nothing). *)
Definition weight_under (p : string) (ns : list node) : Z :=
  sum_Z ((λ n : node, match n.2 with PInt k => k | _ => 0%Z end)
           <$> filter (λ n : node, n.1.2 = p) ns).

End pipeline_vocabulary_more.

(** ** Application search *)

Section search_vocabulary_more.
Import Py Unicode find_app_id.

(** The ten fields of an application, each defaulting to "Unknown". *)
Definition app_data_of (d : gmap string value) : gmap string value :=
  list_to_map ((λ k, (k, default (PStr (lit "Unknown")) (d !! k))) <$> FIELDS).

Definition app_data_of_value (v : value) : option (gmap string value) :=
  match v with
  | PDict d => Some (app_data_of d)
  | _ => None
  end.

(** The applications a response holds: the dicts of its "results" list. *)
Definition found (r : response) : list (gmap string value) :=
  match r with
  | Json (PDict data) =>
      match data !! "results" with
      | Some (PList items) => omap app_data_of_value items
      | _ => []
      end
  | _ => []
  end.

(** A name with a character that is not white space, and one of the ten
    country codes in any letter case. *)
Definition acceptable (app_name country : value) : Prop :=
  ∃ name c,
    app_name = PStr name ∧ country = PStr c
    ∧ Exists (λ ch, is_space ch = false) name
    ∧ lower c ∈ valid_countries.

End search_vocabulary_more.
(** * Properties *)

(** ** The character tables *)

Section UnicodeTables.
Import Unicode.

Lemma elem_of_span lo hi c : (lo ≤ c ≤ hi)%N -> c ∈ span lo hi.
Proof.
  intros Hc. unfold span. apply list_elem_of_fmap.
  exists (N.to_nat (c - lo)). split; [lia|]. apply elem_of_seq. lia.
Qed.

Lemma in_ranges_listed ranges c :
  in_ranges ranges c = true -> c ∈ listed ranges.
Proof.
  unfold in_ranges, listed. rewrite existsb_exists.
  intros ([lo hi] & Hin & Hc). cbn [fst snd] in Hc.
  apply andb_true_iff in Hc as [Hlo Hhi].
  apply N.leb_le in Hlo, Hhi.
  apply list_elem_of_In, in_flat_map. exists (lo, hi). split; [done|].
  apply list_elem_of_In, elem_of_span. cbn [fst snd]. lia.
Qed.

Lemma in_ranges_forall (P : N -> bool) ranges c :
  forallb P (listed ranges) = true -> in_ranges ranges c = true -> P c = true.
Proof.
  intros Hall Hc. apply in_ranges_listed in Hc.
  rewrite forallb_forall in Hall. by apply Hall, list_elem_of_In.
Qed.

Lemma lower_in_images run c d : lower_in run c = Some d -> d ∈ images run.
Proof.
  unfold images. destruct run as [[[first last] step] image].
  intros H. apply list_elem_of_omap. exists c. split; [|done].
  unfold lower_in in H. cbn [fst snd].
  destruct (first <=? c)%N eqn:E1; [|done].
  destruct (c <=? last)%N eqn:E2; [|done].
  apply N.leb_le in E1, E2. apply elem_of_span. lia.
Qed.

Lemma lower_lookup_images runs c d :
  lower_lookup runs c = Some d -> d ∈ flat_map images runs.
Proof.
  induction runs as [|run runs IH]; simpl; [done|].
  destruct (lower_in run c) as [d'|] eqn:E.
  - intros [= <-]. apply elem_of_app. left. by eapply lower_in_images.
  - intros H. apply elem_of_app. right. by apply IH.
Qed.

Lemma lower_fixed_spec c :
  lower_fixed c = true <-> lower_full c = [c] ∧ c ≠ 931%N.
Proof.
  unfold lower_fixed. rewrite andb_true_iff, bool_decide_eq_true.
  rewrite negb_true_iff, N.eqb_neq. done.
Qed.

Lemma images_lower_fixed :
  forallb lower_fixed (flat_map images LOWERCASE) = true.
Proof. vm_compute. reflexivity. Qed.

(** What [lower] makes of a character is left alone by [lower]. *)
Lemma lower_full_fixed c :
  c ≠ 931%N -> Forall (λ d, lower_fixed d = true) (lower_full c).
Proof.
  intros Hc. unfold lower_full at 1.
  destruct (c =? 304)%N eqn:E; [by repeat constructor|].
  destruct (lower_lookup LOWERCASE c) as [d|] eqn:El; simpl.
  - repeat constructor. apply lower_lookup_images in El.
    pose proof images_lower_fixed as H. rewrite forallb_forall in H.
    by apply H, list_elem_of_In.
  - repeat constructor. apply lower_fixed_spec. split; [|done].
    unfold lower_full. by rewrite E, El.
Qed.

Lemma lower_from_fixed before s :
  Forall (λ d, lower_fixed d = true) (lower_from before s).
Proof.
  revert before. induction s as [|c s IH]; intros before; simpl;
    [constructor|].
  apply Forall_app. split; [|apply IH].
  destruct (c =? 931)%N eqn:E.
  - by destruct (final_sigma before s); repeat constructor.
  - apply lower_full_fixed. by apply N.eqb_neq.
Qed.

Lemma lower_from_id before s :
  Forall (λ d, lower_fixed d = true) s -> lower_from before s = s.
Proof.
  intros Hs. revert before.
  induction Hs as [|c s Hc Hs IH]; intros before; simpl; [done|].
  apply lower_fixed_spec in Hc as [Hc Hn].
  apply N.eqb_neq in Hn. by rewrite Hn, Hc, IH.
Qed.

(** White space is neither lowered nor counted as a letter by the test
    for the final sigma. *)
Lemma white_space_plain :
  forallb (λ c, lower_fixed c && negb (case_ignorable c) && negb (cased c)
                && negb (is_word c))
          (listed WHITE_SPACE) = true.
Proof. vm_compute. reflexivity. Qed.

Lemma is_space_plain c :
  is_space c = true ->
  lower_full c = [c] ∧ c ≠ 931%N ∧ case_ignorable c = false
  ∧ cased c = false ∧ is_word c = false.
Proof.
  intros Hc. pose proof (in_ranges_forall _ _ c white_space_plain Hc) as H.
  cbv beta in H. rewrite !andb_true_iff, !negb_true_iff in H.
  destruct H as [[[Hl Hi] Hcased] Hw]. apply lower_fixed_spec in Hl as [Hl Hn].
  done.
Qed.

End UnicodeTables.

(** ** TextNormalizer: [clean_text] *)

Section TextNormalizer.
Import Unicode data_processing.

Lemma is_space_space : is_space space = true.
Proof. reflexivity. Qed.

Lemma settled_lower c : settled c = true -> lower_fixed c = true.
Proof. unfold settled. intros H. by apply andb_true_iff in H as [_ H]. Qed.

Lemma settled_kept c : settled c = true -> is_word c || is_space c = true.
Proof. unfold settled. intros H. by apply andb_true_iff in H as [H _]. Qed.

Lemma settled_space : settled space = true.
Proof. reflexivity. Qed.

Lemma settled_NON_WORD c :
  lower_fixed c = true ->
  settled (if is_word c || is_space c then c else space) = true.
Proof.
  intros Hc. destruct (is_word c || is_space c) eqn:E; [|reflexivity].
  unfold settled. by rewrite E, Hc.
Qed.

(** *** What each step preserves *)

Lemma Forall_URL_PATTERN_sub_from (P : N -> Prop) b s :
  P space -> Forall P s -> Forall P (URL_PATTERN_sub_from b s).
Proof.
  intros Hsp Hs. revert b.
  induction Hs as [|c s Hc Hs IH]; intros b; simpl; [constructor|].
  destruct (b && negb (is_space c)); [apply IH|].
  destruct (URL_PATTERN_matches_at (c :: s)); constructor; auto.
Qed.

Lemma Forall_collapse_from (P : N -> Prop) b s :
  P space -> Forall P s -> Forall P (collapse_from b s).
Proof.
  intros Hsp Hs. revert b.
  induction Hs as [|c s Hc Hs IH]; intros b; simpl; [constructor|].
  destruct (is_space c); [destruct b|]; try constructor; auto.
Qed.

Lemma Forall_lstrip (P : N -> Prop) s : Forall P s -> Forall P (lstrip s).
Proof.
  induction 1 as [|c s Hc Hs IH]; simpl; [constructor|].
  destruct (is_space c); [assumption | by constructor].
Qed.

Lemma Forall_rstrip (P : N -> Prop) s : Forall P s -> Forall P (rstrip s).
Proof.
  induction 1 as [|c s Hc Hs IH]; simpl; [constructor|].
  destruct (rstrip s) as [|d r].
  - destruct (is_space c); repeat constructor; assumption.
  - by constructor.
Qed.

Lemma Forall_cons_nonempty (Q : str -> Prop) w ws :
  (w ≠ [] -> Q w) -> Forall Q ws -> Forall Q (cons_nonempty w ws).
Proof. destruct w; simpl; intros Hw Hws; [done|]. constructor; auto. Qed.

Lemma scan_tokens (P : N -> Prop) s :
  Forall P s ->
  Forall (λ c, is_space c = false ∧ P c) (scan s).1 ∧ Forall (token P) (scan s).2.
Proof.
  induction 1 as [|c s Hc Hs [IH1 IH2]]; simpl; [by split; constructor|].
  destruct (scan s) as [w ws]; simpl in *.
  destruct (is_space c) eqn:E; simpl.
  - split; [constructor|]. apply Forall_cons_nonempty; [|done]. by split.
  - split; [|done]. by constructor.
Qed.

Lemma split_tokens (P : N -> Prop) s :
  Forall P s -> Forall (token P) (split s).
Proof.
  intros Hs. destruct (scan_tokens P s Hs) as [H1 H2]. unfold split.
  destruct (scan s) as [w ws]; simpl in *.
  apply Forall_cons_nonempty; [|done]. by split.
Qed.

(** *** [split] does not see the white space that [re.sub] and [strip]
    remove *)

Lemma split_cons_space c s : is_space c = true -> split (c :: s) = split s.
Proof.
  intros E. unfold split. simpl. destruct (scan s) as [w ws]. by rewrite E.
Qed.

Lemma scan_cons_space c s : is_space c = true -> scan (c :: s) = ([], split s).
Proof.
  intros E. unfold split. simpl. destruct (scan s) as [w ws]. by rewrite E.
Qed.

Lemma scan_cons_nonspace c s :
  is_space c = false -> scan (c :: s) = (c :: (scan s).1, (scan s).2).
Proof. intros E. simpl. destruct (scan s) as [w ws]. by rewrite E. Qed.

Lemma scan_collapse s :
  scan (collapse_from false s) = scan s ∧
  split (collapse_from true s) = split s.
Proof.
  induction s as [|c s [IH1 IH2]]; [done|].
  simpl collapse_from. destruct (is_space c) eqn:E.
  - split.
    + rewrite (scan_cons_space c s) by done.
      rewrite (scan_cons_space space) by reflexivity. by rewrite IH2.
    + by rewrite split_cons_space.
  - assert (scan (c :: collapse_from false s) = scan (c :: s)) as Hs.
    { rewrite (scan_cons_nonspace c s) by done.
      rewrite (scan_cons_nonspace c (collapse_from false s)) by done.
      by rewrite IH1. }
    split; [done|]. unfold split. by rewrite Hs.
Qed.

Lemma split_lstrip s : split (lstrip s) = split s.
Proof.
  induction s as [|c s IH]; [done|]. simpl lstrip.
  destruct (is_space c) eqn:E; [|done]. by rewrite split_cons_space.
Qed.

Lemma scan_rstrip s : scan (rstrip s) = scan s.
Proof.
  induction s as [|c s IH]; [done|]. simpl rstrip.
  destruct (rstrip s) as [|d r] eqn:Er.
  - destruct (is_space c) eqn:E.
    + rewrite (scan_cons_space c s) by done. unfold split. by rewrite <- IH.
    + rewrite (scan_cons_nonspace c s), (scan_cons_nonspace c []) by done.
      by rewrite <- IH.
  - destruct (is_space c) eqn:E.
    + rewrite (scan_cons_space c s), (scan_cons_space c (d :: r)) by done.
      unfold split. by rewrite IH.
    + rewrite (scan_cons_nonspace c s), (scan_cons_nonspace c (d :: r)) by done.
      by rewrite IH.
Qed.

Lemma split_strip_collapse s : split (strip (collapse_whitespace s)) = split s.
Proof.
  unfold strip, collapse_whitespace, split at 1. rewrite scan_rstrip.
  fold (split (lstrip (collapse_from false s))). rewrite split_lstrip.
  unfold split. by rewrite (proj1 (scan_collapse s)).
Qed.

(** *** [split] undoes [join] on tokens *)

Lemma scan_app_token (P : N -> Prop) t s :
  Forall (λ c, is_space c = false ∧ P c) t ->
  scan (t ++ s) = (t ++ (scan s).1, (scan s).2).
Proof.
  induction 1 as [|c t [Hc _] Ht IH]; simpl app.
  - by destruct (scan s).
  - rewrite scan_cons_nonspace by done. by rewrite IH.
Qed.

Lemma split_join (P : N -> Prop) toks :
  Forall (token P) toks -> split (join [space] toks) = toks.
Proof.
  induction 1 as [|t toks [Hne Ht] Htoks IH]; [done|].
  destruct toks as [|t' toks].
  - simpl join. unfold split.
    rewrite <- (app_nil_r t) at 1. rewrite (scan_app_token P) by done.
    simpl. rewrite app_nil_r. by destruct t.
  - change (join [space] (t :: t' :: toks))
      with (t ++ space :: join [space] (t' :: toks)).
    unfold split. rewrite (scan_app_token P) by done.
    rewrite scan_cons_space by reflexivity. cbn [fst snd].
    rewrite app_nil_r, IH. by destruct t.
Qed.

Lemma Forall_join (P : N -> Prop) toks :
  P space -> Forall (Forall P) toks -> Forall P (join [space] toks).
Proof.
  intros Hsp. induction 1 as [|t toks Ht Htoks IH]; [constructor|].
  destruct toks as [|t' toks]; [done|].
  change (join [space] (t :: t' :: toks))
    with (t ++ space :: join [space] (t' :: toks)).
  apply Forall_app. split; [done|]. by constructor.
Qed.

(** *** The second pass *)

Lemma strip_prefix_Some p s r : strip_prefix p s = Some r -> s = p ++ r.
Proof.
  revert s. induction p as [|a p IH]; intros [|b s]; simpl; try congruence.
  destruct (N.eqb_spec a b) as [->|]; [|done].
  intros H. by rewrite (IH _ H).
Qed.

Lemma Forall_forallb_true (f : N -> bool) l :
  Forall (λ c, f c = true) l -> forallb f l = true.
Proof. induction 1 as [|c l Hc Hl IH]; simpl; [done|]. by rewrite Hc, IH. Qed.

Lemma literal_no_match p s :
  forallb settled (lit p) = false ->
  Forall (λ c, settled c = true) s ->
  literal_then_nonspace p s = false.
Proof.
  intros Hp Hs. unfold literal_then_nonspace.
  destruct (strip_prefix _ s) as [r|] eqn:E; [|done].
  apply strip_prefix_Some in E as ->.
  apply Forall_app in Hs as [Hs _].
  apply Forall_forallb_true in Hs. congruence.
Qed.

Lemma URL_PATTERN_no_match s :
  Forall (λ c, settled c = true) s -> URL_PATTERN_matches_at s = false.
Proof.
  intros Hs. unfold URL_PATTERN_matches_at.
  by rewrite !literal_no_match.
Qed.

Lemma URL_PATTERN_sub_settled s :
  Forall (λ c, settled c = true) s -> URL_PATTERN_sub s = s.
Proof.
  unfold URL_PATTERN_sub. intros Hs.
  induction s as [|c s IH]; [done|].
  simpl URL_PATTERN_sub_from. rewrite URL_PATTERN_no_match by done.
  simpl. f_equal. apply IH. by inversion Hs.
Qed.

Lemma lower_settled s : Forall (λ c, settled c = true) s -> lower s = s.
Proof.
  intros Hs. apply lower_from_id.
  eapply Forall_impl; [exact Hs|]. apply settled_lower.
Qed.

Lemma NON_WORD_PATTERN_sub_settled s :
  Forall (λ c, settled c = true) s -> NON_WORD_PATTERN_sub s = s.
Proof.
  unfold NON_WORD_PATTERN_sub. induction 1 as [|c s Hc Hs IH]; simpl; [done|].
  by rewrite settled_kept, IH.
Qed.

(** *** The first pass *)

Lemma lower_lowered s : Forall (λ c, lower_fixed c = true) (lower s).
Proof. apply lower_from_fixed. Qed.

Lemma NON_WORD_PATTERN_sub_makes_settled s :
  Forall (λ c, lower_fixed c = true) s ->
  Forall (λ c, settled c = true) (NON_WORD_PATTERN_sub s).
Proof.
  unfold NON_WORD_PATTERN_sub.
  induction 1; simpl; constructor; auto using settled_NON_WORD.
Qed.

Lemma filter_filter {A} (f : A -> bool) l :
  List.filter f (List.filter f l) = List.filter f l.
Proof.
  induction l as [|x l IH]; simpl; [done|].
  destruct (f x) eqn:E; simpl; [|done]. by rewrite E, IH.
Qed.

Lemma Forall_filter {A} (P : A -> Prop) (f : A -> bool) l :
  Forall P l -> Forall P (List.filter f l).
Proof.
  induction 1 as [|x l Hx Hl IH]; simpl; [constructor|].
  destruct (f x); [by constructor | done].
Qed.

Lemma clean_chars_join text : clean_chars text = join [space] (clean_tokens text).
Proof. unfold clean_chars, clean_tokens. by rewrite split_strip_collapse. Qed.

Lemma clean_tokens_settled text :
  Forall (token (λ c, settled c = true)) (clean_tokens text).
Proof.
  apply Forall_filter, split_tokens, NON_WORD_PATTERN_sub_makes_settled.
  apply Forall_URL_PATTERN_sub_from; [reflexivity | apply lower_lowered].
Qed.

(** The clean text is the join of its own tokens, all settled: a second
    pass finds nothing to lower, no URL, no symbol, no extra white space and
    no stop word. *)
Lemma clean_chars_idempotent text :
  clean_chars (clean_chars text) = clean_chars text.
Proof.
  pose proof (clean_tokens_settled text) as Htok.
  assert (Forall (λ c, settled c = true) (clean_chars text)) as Hy.
  { rewrite clean_chars_join. apply Forall_join; [reflexivity|].
    eapply Forall_impl; [exact Htok|]. intros t [_ Ht].
    eapply Forall_impl; [exact Ht|]. by intros c [_ Hc]. }
  rewrite (clean_chars_join (clean_chars text)). unfold clean_tokens at 1.
  rewrite lower_settled, URL_PATTERN_sub_settled, NON_WORD_PATTERN_sub_settled
    by done.
  rewrite clean_chars_join at 1.
  rewrite (split_join (λ c, settled c = true)) by done.
  unfold clean_tokens. rewrite filter_filter.
  symmetry. apply clean_chars_join.
Qed.

(** C2: [clean_text] is idempotent. Cleaning a text that is already clean
    changes nothing, for every text, the empty one included: a [str] of
    any code points, whatever their script or case. *)
Theorem clean_text_idempotent (x : str) :
  clean_text (clean_text x) = clean_text x.
Proof.
  destruct x as [|c x]; [reflexivity|].
  unfold clean_text at 2 3.
  set (y := clean_chars (c :: x)).
  pose proof (clean_chars_idempotent (c :: x)) as H. fold y in H.
  unfold clean_text. destruct y; [done | exact H].
Qed.

(** C9: the raw text "Great app!! Visit https://x.com now" is cleaned to
    "great app visit now": the URL and the punctuation are gone, the white
    space is collapsed, and "now", which is no stop word, stays. *)
Example clean_text_scenario :
  clean_text (lit "Great app!! Visit https://x.com now")
  = lit "great app visit now".
Proof. vm_compute. reflexivity. Qed.

End TextNormalizer.

(** ** RatingMetrics: [calculate_metrics] *)

Section RatingMetrics.
Import Py metrics_visualization.

Lemma filter_numeric_idem (reviews : list (gmap string value)) :
  filter (λ r, has_numeric_rating r) (filter (λ r, has_numeric_rating r) reviews)
  = filter (λ r, has_numeric_rating r) reviews.
Proof.
  induction reviews as [|r reviews IH]; [done|].
  rewrite filter_cons. case_decide as Hr; [|done].
  rewrite filter_cons. rewrite decide_True by done. by rewrite IH.
Qed.

Lemma Forall_filter_numeric (reviews : list (gmap string value)) :
  Forall (λ r, has_numeric_rating r) (filter (λ r, has_numeric_rating r) reviews).
Proof.
  induction reviews as [|r reviews IH]; [constructor|].
  rewrite filter_cons. case_decide; [by constructor | done].
Qed.

(** A kept review does have the key. *)
Lemma getitem_numeric (r : gmap string value) :
  has_numeric_rating r -> getitem r "rating" = Ok (rating_of r).
Proof.
  unfold has_numeric_rating, rating_of, dict_get, getitem.
  by destruct (r !! "rating").
Qed.

Lemma tally_lookup c n k :
  tally c n !! k = (if decide (k = n) then S else id) <$> c !! k.
Proof.
  unfold tally. destruct (c !! n) as [v|] eqn:E.
  - case_decide as Hk.
    + subst k. by rewrite lookup_insert_eq, E.
    + rewrite lookup_insert_ne by done. by destruct (c !! k).
  - case_decide as Hk; [subst k; by rewrite E | by destruct (c !! k)].
Qed.

Lemma foldl_tally_lookup ns c k :
  foldl tally c ns !! k = (λ v, v + length (filter (λ n, n = k) ns)) <$> c !! k.
Proof.
  revert c. induction ns as [|n ns IH]; intros c; simpl.
  - destruct (c !! k); simpl; [f_equal; lia | done].
  - rewrite IH, tally_lookup, filter_cons.
    destruct (c !! k) as [v|]; simpl; [|done]. f_equal.
    destruct (decide (k = n)) as [->|Hk].
    + rewrite decide_True by done. simpl. lia.
    + rewrite decide_False by congruence. done.
Qed.

Lemma foldl_tally_zero ns : foldl tally zero_counts ns = bucket_counts ns.
Proof.
  apply map_eq. intros k. rewrite foldl_tally_lookup.
  unfold zero_counts, bucket_counts, RATING_RANGE. simpl.
  do 5 (match goal with
        | |- context [<[?n := 0]> _ !! k] =>
            destruct (decide (k = n)) as [->|?];
            [by rewrite !lookup_insert_eq
            |rewrite !(lookup_insert_ne _ n) by congruence]
        end).
  by rewrite !lookup_empty.
Qed.

(** The loop over [valid_reviews], when every rating converts. *)
Lemma for_each_count_rating valid ns c s :
  Forall (λ r, has_numeric_rating r) valid ->
  mapM (λ r, int_of (rating_of r)) valid = Ok ns ->
  for_each count_rating valid (c, s) = Ok (foldl tally c ns, (s + sum_Z ns)%Z).
Proof.
  intros Hv. revert ns c s.
  induction Hv as [|r valid Hr Hv IH]; intros ns c s; simpl.
  - intros [= <-]. simpl. by rewrite Z.add_0_r.
  - unfold count_rating at 1. rewrite (getitem_numeric r Hr). simpl.
    destruct (int_of (rating_of r)) as [n|e] eqn:En; simpl; [|done].
    destruct (mapM _ valid) as [ns'|e] eqn:Ens; simpl; [|done].
    intros [= <-]. rewrite (IH ns') by done. simpl.
    f_equal. f_equal. lia.
Qed.

Lemma mapM_result_length {A B} (f : A -> result B) l ks :
  mapM f l = Ok ks -> length ks = length l.
Proof.
  revert ks. induction l as [|x l IH]; intros ks; simpl.
  - by intros [= <-].
  - destruct (f x); simpl; [|done].
    destruct (mapM f l) as [ks'|]; simpl; [|done].
    intros [= <-]. simpl. f_equal. by apply IH.
Qed.

Lemma calculate_metrics_on_valid reviews ns :
  mapM (λ r, int_of (rating_of r)) (filter (λ r, has_numeric_rating r) reviews)
    = Ok ns ->
  calculate_metrics reviews =
    (avg ← mean_rating ns;
     Ok {| average_rating := avg; rating_counts := bucket_counts ns;
           total_reviews := length ns |}).
Proof.
  intros Hns. pose proof (mapM_result_length _ _ _ Hns) as Hlen.
  destruct reviews as [|r reviews].
  { simpl in Hns. injection Hns as <-. reflexivity. }
  unfold calculate_metrics.
  set (valid := filter _ (r :: reviews)) in *.
  rewrite (for_each_count_rating valid ns) by (done || apply Forall_filter_numeric).
  simpl. rewrite foldl_tally_zero. unfold mean_rating. rewrite Hlen.
  destruct (0 <? length valid)%nat; simpl; [|done].
  by destruct (int_truediv _ _).
Qed.

(** What [calculate_metrics] does: it keeps exactly the reviews whose
    rating is an [int], a [bool] or a [float]. A review with any other
    rating, or with none, changes nothing in the result. When every kept
    rating converts to an integer ([int] truncates a float), the result
    counts all of them in [total_reviews] and in the average, whatever
    their value, and only [rating_counts] is limited to the values 1 to
    5. *)
Theorem calculate_metrics_keeps_numeric
  (reviews : list (gmap string value)) (ns : list Z) :
  mapM (λ r, int_of (rating_of r)) (filter (λ r, has_numeric_rating r) reviews)
    = Ok ns ->
  calculate_metrics reviews
    = calculate_metrics (filter (λ r, has_numeric_rating r) reviews)
  ∧ calculate_metrics reviews =
      (avg ← mean_rating ns;
       Ok {| average_rating := avg; rating_counts := bucket_counts ns;
             total_reviews := length ns |}).
Proof.
  intros Hns. split; [|by apply calculate_metrics_on_valid].
  rewrite (calculate_metrics_on_valid reviews ns) by done.
  symmetry. apply calculate_metrics_on_valid. by rewrite filter_numeric_idem.
Qed.

Lemma calculate_metrics_keeps_numeric_witness :
  let reviews : list (gmap string value) :=
    [ {[ "rating" := PInt 5 ]}; {[ "rating" := PStr (Unicode.lit "5") ]}; ∅;
      {[ "rating" := PInt 7 ]}; {[ "rating" := PInt 1 ]} ] in
  calculate_metrics reviews
    = calculate_metrics (filter (λ r, has_numeric_rating r) reviews)
  ∧ calculate_metrics reviews =
      (avg ← mean_rating [5; 7; 1]%Z;
       Ok {| average_rating := avg; rating_counts := bucket_counts [5; 7; 1]%Z;
             total_reviews := 3 |}).
Proof.
  intros reviews. apply (calculate_metrics_keeps_numeric reviews [5; 7; 1]%Z).
  vm_compute. reflexivity.
Defined.

(** C1: the range test is missing from [calculate_metrics]. It tests the
    type of a rating only, and [rating in rating_counts] guards the bucket
    and nothing else. So a review rated 0, which is what
    [extract_info.safe_get_review_data] writes for a review without a
    rating, or rated 7, is counted in [total_reviews] and in the average:
    ratings 5 and 0 give two reviews of average 2.5. The reviews that
    [extract_info.calculate_statistics] keeps, with its test
    [1 <= r["rating"] <= 5], give one review of average 5.0, as the
    specification has it. *)
Theorem calculate_metrics_counts_out_of_range :
  let rated (n : Z) : gmap string value := {[ "rating" := PInt n ]} in
  extract_info.valid_reviews [rated 5%Z; rated 0%Z] = [rated 5%Z]
  ∧ calculate_metrics [rated 5%Z; rated 0%Z]
    = Ok {| average_rating := PFloat (S754_finite false 5629499534213120 (-51));
            rating_counts := {[ 1%Z := 0; 2%Z := 0; 3%Z := 0; 4%Z := 0; 5%Z := 1 ]};
            total_reviews := 2 |}
  ∧ calculate_metrics (extract_info.valid_reviews [rated 5%Z; rated 0%Z])
    = Ok {| average_rating := PFloat (S754_finite false 5629499534213120 (-50));
            rating_counts := {[ 1%Z := 0; 2%Z := 0; 3%Z := 0; 4%Z := 0; 5%Z := 1 ]};
            total_reviews := 1 |}
  ∧ extract_info.valid_reviews [rated 7%Z] = []
  ∧ calculate_metrics [rated 7%Z]
    = Ok {| average_rating := PFloat (S754_finite false 7881299347898368 (-50));
            rating_counts := zero_counts; total_reviews := 1 |}
  ∧ calculate_metrics (extract_info.valid_reviews [rated 7%Z])
    = Ok {| average_rating := PInt 0;
            rating_counts := zero_counts; total_reviews := 0 |}.
Proof. vm_compute. repeat split; reflexivity. Qed.

(** The scenario of the specification: ratings 5, 5 and 1. *)
Example calculate_metrics_5_5_1 :
  calculate_metrics
    [ {[ "rating" := PInt 5 ]}; {[ "rating" := PInt 5 ]}; {[ "rating" := PInt 1 ]} ]
  = Ok {| average_rating := PFloat (S754_finite false 8256599316845909 (-51));
          rating_counts := {[ 1%Z := 1; 2%Z := 0; 3%Z := 0; 4%Z := 0; 5%Z := 2 ]};
          total_reviews := 3 |}.
Proof. vm_compute. reflexivity. Qed.

End RatingMetrics.
(** ** binary64: division and rounding are correctly rounded *)

Section Binary64.
Import Py.
Local Open Scope Z_scope.

Lemma fexp_eq e : fexp prec emax e = Z.max (e - 53) (-1074).
Proof. reflexivity. Qed.

(** *** The number of binary digits *)

Lemma digits2_pos_size p : digits2_pos p = Pos.size p.
Proof. induction p as [p IH|p IH|]; simpl; congruence. Qed.

Lemma Zdigits2_log2 m : 0 < m -> Zdigits2 m = Z.log2 m + 1.
Proof.
  destruct m as [|p|p]; try lia. intros _. simpl.
  rewrite digits2_pos_size. destruct p; simpl; lia.
Qed.

Lemma Zdigits2_0 : Zdigits2 0 = 0.
Proof. reflexivity. Qed.

Lemma Zdigits2_nonneg m : 0 <= m -> 0 <= Zdigits2 m.
Proof. destruct m; simpl; lia. Qed.

Lemma Zdigits2_bounds m :
  0 < m -> 2 ^ (Zdigits2 m - 1) <= m < 2 ^ Zdigits2 m.
Proof.
  intros Hm. rewrite Zdigits2_log2 by done.
  replace (Z.log2 m + 1 - 1) with (Z.log2 m) by lia.
  apply Z.log2_spec. done.
Qed.

Lemma Zdigits2_ge m k : 0 <= k -> 2 ^ k <= m -> k + 1 <= Zdigits2 m.
Proof.
  intros Hk Hm. assert (0 < m) by (pose proof (Z.pow_pos_nonneg 2 k); lia).
  rewrite Zdigits2_log2 by done.
  apply Z.log2_le_pow2 in Hm; lia.
Qed.

Lemma Zdigits2_le m k : 0 <= k -> 0 <= m < 2 ^ k -> Zdigits2 m <= k.
Proof.
  intros Hk [Hm Hlt]. destruct (Z.eq_dec m 0) as [->|Hne]; [simpl; lia|].
  rewrite Zdigits2_log2 by lia.
  apply Z.log2_lt_pow2 in Hlt; lia.
Qed.

(** *** Shifting a mantissa right keeps track of what is dropped *)

Lemma shr_1_located A B mrs :
  located A B mrs ->
  located A (2 * B) (shr_1 mrs) ∧ shr_m (shr_1 mrs) = shr_m mrs / 2.
Proof.
  destruct mrs as [m r s]. unfold located. simpl.
  intros (Hm & HB & Hrest & Hr & Hs).
  assert (orb r s = true <-> A - m * B ≠ 0) as Hrs.
  { rewrite orb_true_iff, Hr, Hs. lia. }
  assert (∀ m' bit : Z,
            m = 2 * m' + bit -> 0 <= bit <= 1 -> 0 <= m' ->
            let rest := A - m' * (2 * B) in
            (0 <= rest < 2 * B)
            ∧ ((bit = 1) <-> 2 * B <= 2 * rest)
            ∧ (orb r s = true <-> (2 * rest ≠ 0 ∧ 2 * rest ≠ 2 * B))) as Hstep.
  { intros m' bit -> Hbit Hm'. cbv zeta. rewrite Hrs.
    assert (bit = 0 ∨ bit = 1) as [-> | ->] by lia; lia. }
  destruct m as [|p|p]; [|destruct p as [p|p|]|lia]; simpl.
  - destruct (Hstep 0 0) as (H1 & H2 & H3); try lia.
    split; [|done]. repeat split; intros; try done; try lia; try (by apply H3); intuition (try done; lia).
  - destruct (Hstep (Z.pos p) 1) as (H1 & H2 & H3); try lia.
    split; [|rewrite Pos2Z.inj_xI; apply Z.div_unique with 1; lia].
    repeat split; intros; try done; try lia; try (by apply H3); intuition (try done; lia).
  - destruct (Hstep (Z.pos p) 0) as (H1 & H2 & H3); try lia.
    split; [|rewrite Pos2Z.inj_xO; apply Z.div_unique with 0; lia].
    repeat split; intros; try done; try lia; try (by apply H3); intuition (try done; lia).
  - destruct (Hstep 0 1) as (H1 & H2 & H3); try lia.
    split; [|done]. repeat split; intros; try done; try lia; try (by apply H3); intuition (try done; lia).
Qed.

Lemma iter_pos_shr_1_located p :
  ∀ A B mrs,
    located A B mrs ->
    located A (2 ^ Z.pos p * B) (SpecFloat.iter_pos shr_1 p mrs)
    ∧ shr_m (SpecFloat.iter_pos shr_1 p mrs) = shr_m mrs / 2 ^ Z.pos p.
Proof.
  induction p as [p IH|p IH|]; intros A B mrs Hloc; simpl SpecFloat.iter_pos.
  - destruct (shr_1_located _ _ _ Hloc) as [H1 E1].
    destruct (IH _ _ _ H1) as [H2 E2].
    destruct (IH _ _ _ H2) as [H3 E3].
    assert (2 ^ Z.pos p~1 = 2 ^ Z.pos p * (2 ^ Z.pos p * 2)) as ->.
    { rewrite (Pos2Z.inj_xI p).
      replace (2 * Z.pos p + 1) with (Z.pos p + Z.pos p + 1) by lia.
      rewrite !Z.pow_add_r, Z.pow_1_r by lia. ring. }
    split.
    + replace (2 ^ Z.pos p * (2 ^ Z.pos p * 2) * B)
        with (2 ^ Z.pos p * (2 ^ Z.pos p * (2 * B))) by ring. done.
    + rewrite E3, E2, E1.
      pose proof (Z.pow_pos_nonneg 2 (Z.pos p)).
      rewrite !Z.div_div by lia. f_equal. ring.
  - destruct (IH _ _ _ Hloc) as [H2 E2].
    destruct (IH _ _ _ H2) as [H3 E3].
    assert (2 ^ Z.pos p~0 = 2 ^ Z.pos p * 2 ^ Z.pos p) as ->.
    { rewrite (Pos2Z.inj_xO p).
      replace (2 * Z.pos p) with (Z.pos p + Z.pos p) by lia.
      rewrite !Z.pow_add_r by lia. ring. }
    split.
    + replace (2 ^ Z.pos p * 2 ^ Z.pos p * B)
        with (2 ^ Z.pos p * (2 ^ Z.pos p * B)) by ring. done.
    + rewrite E3, E2.
      pose proof (Z.pow_pos_nonneg 2 (Z.pos p)).
      rewrite !Z.div_div by lia. done.
  - rewrite Z.pow_1_r. by apply shr_1_located.
Qed.

Lemma shr_located A B mrs e n :
  located A B mrs ->
  located A (2 ^ Z.max n 0 * B) (shr mrs e n).1
  ∧ shr_m (shr mrs e n).1 = shr_m mrs / 2 ^ Z.max n 0
  ∧ (shr mrs e n).2 = e + Z.max n 0.
Proof.
  intros Hloc. destruct n as [|p|p]; unfold shr; cbn [fst snd].
  - change (2 ^ Z.max 0 0) with 1.
    rewrite Z.mul_1_l, Z.div_1_r. split; [done|split; [done|simpl; lia]].
  - change (Z.max (Z.pos p) 0) with (Z.pos p).
    destruct (iter_pos_shr_1_located p _ _ _ Hloc) as [H1 H2]. done.
  - change (2 ^ Z.max (Z.neg p) 0) with 1.
    rewrite Z.mul_1_l, Z.div_1_r. split; [done|split; [done|simpl; lia]].
Qed.

(** *** Rounding to nearest *)

Lemma round_nearest_even_located A B mrs :
  located A B mrs ->
  let m := round_nearest_even (shr_m mrs) (loc_of_shr_record mrs) in
  (m = shr_m mrs ∨ m = shr_m mrs + 1)
  ∧ 2 * Z.abs (m * B - A) <= B.
Proof.
  destruct mrs as [m r s]. unfold located. simpl.
  intros (Hm & HB & Hrest & Hr & Hs).
  destruct r, s; simpl.
  - split; [by right|]. assert (B <= 2 * (A - m * B)) by (by apply Hr). lia.
  - assert (B <= 2 * (A - m * B)) by (by apply Hr).
    assert (2 * (A - m * B) = B).
    { destruct (Z.eq_dec (2 * (A - m * B)) B) as [|Hne]; [done|].
      assert (false = true) by (apply Hs; lia). done. }
    destruct (Z.even m); [split; [by left|lia]|split; [by right|lia]].
  - split; [by left|].
    assert (¬ B <= 2 * (A - m * B)) by (intros HH; by apply Hr in HH). lia.
  - split; [by left|].
    assert (¬ B <= 2 * (A - m * B)) by (intros HH; by apply Hr in HH). lia.
Qed.

Lemma Zdigits2_div_pow2 m n :
  0 <= n -> 0 < m / 2 ^ n -> Zdigits2 (m / 2 ^ n) = Zdigits2 m - n.
Proof.
  intros Hn Hpos.
  pose proof (Z.pow_pos_nonneg 2 n ltac:(lia) Hn) as H2n.
  assert (2 ^ n <= m) as Hm.
  { destruct (Z_lt_le_dec m (2 ^ n)) as [Hlt|]; [|done].
    destruct (Z_lt_le_dec m 0) as [Hneg|Hnn].
    - pose proof (Z.div_lt_upper_bound m (2 ^ n) 0 H2n). lia.
    - rewrite Z.div_small in Hpos by lia. lia. }
  pose proof (Zdigits2_bounds m ltac:(lia)) as [Hlo Hhi].
  pose proof (Zdigits2_ge m n Hn Hm) as Hd.
  apply Z.le_antisymm.
  - apply Zdigits2_le; [lia|]. split; [lia|].
    apply Z.div_lt_upper_bound; [done|].
    rewrite <- Z.pow_add_r by lia. by replace (n + (Zdigits2 m - n)) with (Zdigits2 m) by lia.
  - replace (Zdigits2 m - n) with ((Zdigits2 m - n - 1) + 1) by lia.
    apply Zdigits2_ge; [lia|].
    apply Z.div_le_lower_bound; [done|].
    rewrite <- Z.pow_add_r by lia. by replace (n + (Zdigits2 m - n - 1)) with (Zdigits2 m - 1) by lia.
Qed.

Lemma Zdigits2_succ m :
  0 <= m ->
  Zdigits2 (m + 1) = Zdigits2 m
  ∨ (Zdigits2 (m + 1) = Zdigits2 m + 1 ∧ m + 1 = 2 ^ Zdigits2 m).
Proof.
  intros Hm. destruct (Z.eq_dec m 0) as [->|Hne]; [by right|].
  pose proof (Zdigits2_bounds m ltac:(lia)) as [Hlo Hhi].
  pose proof (Zdigits2_nonneg m Hm) as Hd.
  assert (1 <= Zdigits2 m) as Hd1.
  { rewrite Zdigits2_log2 by lia. pose proof (Z.log2_nonneg m). lia. }
  destruct (Z.eq_dec (m + 1) (2 ^ Zdigits2 m)) as [Heq|Hlt].
  - right. split; [|done]. apply Z.le_antisymm.
    + apply Zdigits2_le; [lia|]. rewrite Z.pow_add_r, Z.pow_1_r by lia. lia.
    + apply Zdigits2_ge; lia.
  - left. apply Z.le_antisymm.
    + apply Zdigits2_le; lia.
    + replace (Zdigits2 m) with (Zdigits2 m - 1 + 1) at 1 by lia.
      apply Zdigits2_ge; lia.
Qed.

(** *** The quotient the division starts from *)

Lemma new_location_located A b q r :
  0 < b -> A = b * q + r -> 0 <= r < b -> 0 <= q ->
  located A b (shr_record_of_loc q (new_location b r)).
Proof.
  intros Hb -> Hr Hq. unfold new_location, new_location_even, new_location_odd.
  assert (b * q + r - q * b = r) as Hrest by ring.
  destruct (Z.even b) eqn:Heven.
  - destruct (Z.eqb_spec r 0) as [->|Hne]; simpl.
    + unfold located; simpl. rewrite Hrest. repeat split; intros; try done; lia.
    + destruct (Z.compare_spec (2 * r) b) as [Heq|Hlt|Hgt];
        unfold located; simpl; rewrite Hrest; repeat split; intros; try done; lia.
  - destruct (Z.eqb_spec r 0) as [->|Hne]; simpl.
    + unfold located; simpl. rewrite Hrest. repeat split; intros; try done; lia.
    + assert (2 * r ≠ b).
      { intros <-. rewrite Z.even_mul in Heven. done. }
      destruct (Z.compare_spec (2 * r + 1) b) as [Heq|Hlt|Hgt];
        unfold located; simpl; rewrite Hrest; repeat split; intros; try done; lia.
Qed.

Lemma SFdiv_core_binary_located a b :
  0 < a -> 0 < b ->
  ∃ Q e1 loc,
    SFdiv_core_binary prec emax a 0 b 0 = (Q, e1, loc)
    ∧ -1074 <= e1 <= 0
    ∧ located (a * 2 ^ (- e1)) b (shr_record_of_loc Q loc)
    ∧ e1 <= fexp prec emax (Zdigits2 Q + e1).
Proof.
  intros Ha Hb. unfold SFdiv_core_binary.
  rewrite !Z.add_0_r, Z.sub_0_r.
  set (e1 := Z.min (fexp prec emax (Zdigits2 a - Zdigits2 b)) 0).
  assert (-1074 <= e1 <= 0) as He1.
  { unfold e1. rewrite fexp_eq. lia. }
  assert (match 0 - e1 with
          | 0 => a | Z.pos _ => Z.shiftl a (0 - e1) | Z.neg _ => 0
          end = a * 2 ^ (- e1)) as ->.
  { destruct (0 - e1) eqn:E.
    - replace (- e1) with 0 by lia. lia.
    - rewrite Z.shiftl_mul_pow2 by lia. f_equal. f_equal. lia.
    - lia. }
  pose proof (Z.pow_pos_nonneg 2 (- e1) ltac:(lia) ltac:(lia)) as Hpow.
  pose proof (Z_div_mod (a * 2 ^ (- e1)) b ltac:(lia)) as Hdiv.
  destruct (Z.div_eucl (a * 2 ^ (- e1)) b) as [Q r] eqn:E.
  destruct Hdiv as [Hdiv Hr].
  assert (0 <= Q) as HQ by nia.
  exists Q, e1, (new_location b r). split; [done|]. split; [done|]. split.
  { by apply new_location_located. }
  (* the quotient has the digits the exponent was chosen for *)
  assert (Zdigits2 a - Zdigits2 b <= Zdigits2 Q + e1) as Hdig.
  { pose proof (Zdigits2_bounds a Ha) as [Halo Hahi].
    pose proof (Zdigits2_bounds b Hb) as [Hblo Hbhi].
    pose proof (Zdigits2_nonneg Q HQ).
    pose proof (Zdigits2_ge a 0 ltac:(lia) ltac:(simpl; lia)).
    pose proof (Zdigits2_ge b 0 ltac:(lia) ltac:(simpl; lia)).
    remember (Zdigits2 a - 1 - e1 - Zdigits2 b) as k eqn:Ek.
    destruct (Z_lt_le_dec k 0) as [Hk|Hk]; [lia|].
    assert (2 ^ k <= Q); [|pose proof (Zdigits2_ge Q k Hk); lia].
    assert (2 ^ k * 2 ^ Zdigits2 b <= 2 ^ (Zdigits2 a - 1) * 2 ^ (- e1)) as Hp.
    { rewrite <- !Z.pow_add_r by lia. apply Z.pow_le_mono_r; lia. }
    assert (0 < 2 ^ k) by (apply Z.pow_pos_nonneg; lia).
    nia. }
  assert (e1 <= fexp prec emax (Zdigits2 a - Zdigits2 b)) as Hle by (unfold e1; lia).
  rewrite fexp_eq in Hle. rewrite fexp_eq. lia.
Qed.

(** *** Rounding the quotient *)

Lemma shr_m_of_loc m loc : shr_m (shr_record_of_loc m loc) = m.
Proof. by destruct loc as [|[]]. Qed.

Lemma close_scaled m B A P T U :
  2 * Z.abs (m * B - A) <= B -> 0 <= P -> T = B * P -> U = A * P ->
  2 * Z.abs (m * T - U) <= T.
Proof.
  intros H HP -> ->.
  replace (m * (B * P) - A * P) with ((m * B - A) * P) by ring.
  rewrite Z.abs_mul, (Z.abs_eq P) by done. nia.
Qed.

Lemma no_overflow m e a b :
  0 < b -> a < 2 ^ 1023 * b -> 0 < m ->
  fexp prec emax (Zdigits2 m + e) = e ->
  2 * Z.abs (m * (2 ^ (e + 1074) * b) - a * 2 ^ 1074) <= 2 ^ (e + 1074) * b ->
  e <= 971.
Proof.
  intros Hb Hab Hm Hcan Hclose.
  destruct (Z_le_gt_dec e 971) as [|Hbig]; [done|exfalso].
  rewrite fexp_eq in Hcan.
  assert (2 ^ 52 <= m) as Hm52.
  { pose proof (Zdigits2_bounds m Hm) as [Hlo _].
    replace (Zdigits2 m - 1) with 52 in Hlo by lia. done. }
  assert (2 ^ 2046 <= 2 ^ (e + 1074)) as HW by (apply Z.pow_le_mono_r; lia).
  remember (2 ^ (e + 1074)) as W eqn:EW. clear EW.
  assert (2 ^ 52 * 2 ^ 2046 <= (2 * m - 1) * W) as H1.
  { apply Z.mul_le_mono_nonneg; lia. }
  assert (2 ^ 52 * 2 ^ 2046 * b <= (2 * m - 1) * W * b) as H2.
  { apply Z.mul_le_mono_nonneg_r; lia. }
  lia.
Qed.

Lemma binary_round_aux_rounded a b Q e1 loc :
  0 < a -> 0 < b -> a < 2 ^ 1023 * b -> -1074 <= e1 <= 0 ->
  located (a * 2 ^ (- e1)) b (shr_record_of_loc Q loc) ->
  e1 <= fexp prec emax (Zdigits2 Q + e1) ->
  let x := binary_round_aux prec emax false Q e1 loc in
  rounded a b x ∧ (x = S754_zero false ∨ ∃ m e, x = S754_finite false m e).
Proof.
  intros Ha Hb Hab He1 Hloc Hn1. cbv zeta.
  unfold binary_round_aux, shr_fexp.
  set (n1 := fexp prec emax (Zdigits2 Q + e1) - e1).
  assert (0 <= n1) as Hn1' by (unfold n1; lia).
  destruct (shr_located _ _ _ e1 n1 Hloc) as (L1 & M1 & E1).
  rewrite shr_m_of_loc in M1. rewrite Z.max_l in L1, M1, E1 by done.
  destruct (shr (shr_record_of_loc Q loc) e1 n1) as [mrs1 e2]. cbn [fst snd] in *.
  assert (0 <= Q) as HQ.
  { destruct Hloc as (HQ & _). by rewrite shr_m_of_loc in HQ. }
  destruct (round_nearest_even_located _ _ _ L1) as [Hmr Hclose].
  set (m_r := round_nearest_even (shr_m mrs1) (loc_of_shr_record mrs1)) in *.
  set (m1 := shr_m mrs1) in *.
  pose proof (Z.pow_pos_nonneg 2 n1 ltac:(lia) Hn1') as H2n1.
  assert (0 <= m1) as Hm1 by (rewrite M1; apply Z.div_pos; lia).
  (* after the first shift the mantissa has the digits of its exponent *)
  assert (fexp prec emax (Zdigits2 m1 + e2) = e2) as Hcan.
  { destruct (Z.eq_dec m1 0) as [Hz|Hnz].
    - rewrite Hz. change (Zdigits2 0) with 0.
      assert (Zdigits2 Q <= n1) as HdQ.
      { apply Zdigits2_le; [done|]. rewrite Hz in M1. symmetry in M1.
        apply Z.div_small_iff in M1; lia. }
      unfold n1 in *. rewrite fexp_eq in *. lia.
    - rewrite M1, Zdigits2_div_pow2 by lia.
      replace (Zdigits2 Q - n1 + e2) with (Zdigits2 Q + e1) by lia.
      unfold n1 in E1. lia. }
  assert (Zdigits2 m_r = Zdigits2 m1
          ∨ (Zdigits2 m_r = Zdigits2 m1 + 1 ∧ m_r = 2 ^ Zdigits2 m1)) as Hdr.
  { destruct Hmr as [->| ->]; [by left|by apply Zdigits2_succ]. }
  remember (fexp prec emax (Zdigits2 m_r + e2) - e2) as n2 eqn:En2.
  assert (n2 = 0 ∨ (n2 = 1 ∧ m_r = 2 ^ 53)) as Hn2.
  { rewrite fexp_eq in *.
    destruct Hdr as [Hd|[Hd Hp]]; [lia|].
    destruct (Z.eq_dec (Zdigits2 m1) 53) as [E53|]; [|lia].
    rewrite E53 in Hp. lia. }
  assert (-1074 <= e2) as He2 by (rewrite fexp_eq in Hcan; lia).
  (* the distance to the quotient, in units of the least float *)
  assert (2 * Z.abs (m_r * (2 ^ (e2 + 1074) * b) - a * 2 ^ 1074)
          <= 2 ^ (e2 + 1074) * b) as HT.
  { apply (close_scaled _ _ _ (2 ^ (1074 + e1)) _ _ Hclose).
    - apply Z.pow_nonneg; lia.
    - replace (e2 + 1074) with (n1 + (1074 + e1)) by lia.
      rewrite Z.pow_add_r by lia. ring.
    - replace 1074 with (- e1 + (1074 + e1)) at 1 by lia.
      rewrite Z.pow_add_r by lia. ring. }
  pose proof (Z.pow_pos_nonneg 2 (e2 + 1074) ltac:(lia) ltac:(lia)) as HW.
  clearbody m_r m1 n1. clear Hclose L1 Hloc.
  destruct Hn2 as [-> | [-> Hp]].
  - (* no second shift *)
    unfold shr. cbn [shr_m shr_record_of_loc].
    destruct m_r as [|m|m]; [| |lia].
    + split; [|by left]. split; [done|]. cbn [units ulp].
      assert (m1 = 0) as -> by lia. change (Zdigits2 0) with 0 in Hcan.
      rewrite fexp_eq in Hcan. assert (e2 = -1074) as -> by lia.
      change (2 ^ (-1074 + 1074)) with 1 in HT. lia.
    + assert (fexp prec emax (Zdigits2 (Z.pos m) + e2) = e2) as Hcanm by lia.
      assert (e2 <= 971) as Hle by (by apply (no_overflow (Z.pos m) e2 a b)).
      change (emax - prec) with 971.
      destruct (Z.leb_spec e2 971) as [_|]; [|lia].
      split; [|right; by eexists _, _].
      split.
      * cbn [well_formed]. unfold bounded, canonical_mantissa.
        change (Z.pos (digits2_pos m)) with (Zdigits2 (Z.pos m)).
        rewrite Hcanm, Z.eqb_refl. change (emax - prec) with 971.
        simpl. by apply Z.leb_le.
      * cbn [units ulp].
        replace (1 * (Z.pos m * 2 ^ (e2 + 1074)) * b)
          with (Z.pos m * (2 ^ (e2 + 1074) * b)) by ring. done.
  - (* the rounded mantissa has a digit more: one more shift, of a zero bit *)
    subst m_r.
    assert (Zdigits2 m1 = 53) as Hd53.
    { destruct Hdr as [Hd|[Hd _]]; change (Zdigits2 (2 ^ 53)) with 54 in Hd;
        rewrite fexp_eq in *; lia. }
    assert (2 ^ (e2 + 1 + 1074) = 2 * 2 ^ (e2 + 1074)) as HW2.
    { replace (e2 + 1 + 1074) with (Z.succ (e2 + 1074)) by lia.
      rewrite Z.pow_succ_r by lia. done. }
    assert (e2 + 1 <= 971) as Hle.
    { apply (no_overflow (2 ^ 52) (e2 + 1) a b); try done.
      - change (Zdigits2 (2 ^ 52)) with 53. rewrite fexp_eq in *. lia.
      - rewrite HW2. change (2 ^ 53) with (2 * 2 ^ 52) in HT. lia. }
    change (shr (shr_record_of_loc (2 ^ 53) loc_Exact) e2 1)
      with ({| shr_m := 2 ^ 52; shr_r := false; shr_s := false |}, e2 + 1).
    cbn [shr_m]. change (2 ^ 52) with (Z.pos (2 ^ 52)).
    change (emax - prec) with 971.
    destruct (Z.leb_spec (e2 + 1) 971) as [_|]; [|lia].
    split; [|right; by eexists _, _].
    split.
    + cbn [well_formed]. unfold bounded, canonical_mantissa.
      change (Z.pos (digits2_pos (2 ^ 52))) with 53.
      change (emax - prec) with 971.
      apply andb_true_intro. split; [|by apply Z.leb_le].
      apply Z.eqb_eq. rewrite fexp_eq in *. lia.
    + cbn [units ulp]. rewrite HW2.
      change (2 ^ 53) with (2 * 2 ^ 52) in HT.
      change (Z.pos (2 ^ 52)) with (2 ^ 52). lia.
Qed.

(** [p / q] rounded to a float. *)
Lemma nearest_ratio_rounded a b :
  0 < a -> 0 < b -> a < 2 ^ 1023 * b ->
  let x := nearest_ratio false a b in
  rounded a b x ∧ (x = S754_zero false ∨ ∃ m e, x = S754_finite false m e).
Proof.
  intros Ha Hb Hab. unfold nearest_ratio.
  destruct (SFdiv_core_binary_located a b Ha Hb)
    as (Q & e1 & loc & -> & He1 & Hloc & Hn1).
  by apply binary_round_aux_rounded.
Qed.

(** A float rounded from a ratio is no larger than twice the ratio. *)
Lemma rounded_below a b k x :
  0 < b -> 0 < a <= k * b -> rounded a b x ->
  (x = S754_zero false ∨ ∃ m e, x = S754_finite false m e) ->
  0 <= units x <= 2 * k * 2 ^ 1074.
Proof.
  intros Hb Ha [Hwf Hclose] [->|(m & e & ->)]; simpl in *; [nia|].
  unfold bounded, canonical_mantissa in Hwf.
  apply andb_prop in Hwf as [Hcan _]. apply Z.eqb_eq in Hcan.
  rewrite fexp_eq in Hcan.
  pose proof (Z.pow_pos_nonneg 2 (e + 1074) ltac:(lia) ltac:(lia)) as HW.
  remember (2 ^ (e + 1074)) as W eqn:EW. clear EW.
  destruct (Z.pos m * W) as [|u|u] eqn:Eu; [lia| |lia].
  split; [lia|].
  assert (Z.pos u <= 2 * Z.pos u - W) by nia.
  assert ((2 * Z.pos u - W) * b <= 2 * k * 2 ^ 1074 * b) as Hub by lia.
  assert (Z.pos u * b <= 2 * k * 2 ^ 1074 * b) as Hu by nia.
  apply Z.mul_le_mono_pos_r in Hu; done.
Qed.

(** Away from the powers of two, one float only is a ratio rounded: the
    one that is closer to the ratio than half a unit in its last place. *)
Lemma cancel_close d c P :
  0 < P -> 2 * Z.abs (d * P) < c * P -> 2 * Z.abs d < c.
Proof.
  intros HP H. rewrite Z.abs_mul, (Z.abs_eq P) in H by lia.
  apply (Z.mul_lt_mono_pos_r P); [done|]. lia.
Qed.

Lemma rounded_unique a b m0 e0 x :
  0 < a -> 0 < b -> -1074 <= e0 ->
  2 ^ 52 < Z.pos m0 < 2 ^ 53 - 1 ->
  2 * Z.abs (Z.pos m0 * 2 ^ (e0 + 1074) * b - a * 2 ^ 1074)
    < 2 ^ (e0 + 1074) * b ->
  rounded a b x ->
  x = S754_finite false m0 e0.
Proof.
  intros Ha Hb He0 Hm0 Hnear [Hwf Hclose].
  pose proof (Z.pow_pos_nonneg 2 (e0 + 1074) ltac:(lia) ltac:(lia)) as HW0.
  destruct x as [s|s| |s m e]; try done.
  { (* zero is too far *)
    exfalso. cbn [units ulp] in Hclose.
    remember (2 ^ (e0 + 1074)) as W0 eqn:EW0. clear EW0.
    assert (b <= W0 * b) by nia.
    assert (2 * (W0 * b) <= Z.pos m0 * W0 * b) by nia.
    lia. }
  cbn [well_formed] in Hwf. unfold bounded, canonical_mantissa in Hwf.
  apply andb_prop in Hwf as [Hcan _]. apply Z.eqb_eq in Hcan.
  rewrite fexp_eq in Hcan.
  change (Z.pos (digits2_pos m)) with (Zdigits2 (Z.pos m)) in Hcan.
  pose proof (Zdigits2_bounds (Z.pos m) ltac:(lia)) as [Hlo Hhi].
  assert (Z.pos m < 2 ^ 53) as Hm53.
  { eapply Z.lt_le_trans; [exact Hhi|]. apply Z.pow_le_mono_r; lia. }
  assert (-1074 < e -> 2 ^ 52 <= Z.pos m) as Hm52.
  { intros He. replace (Zdigits2 (Z.pos m) - 1) with 52 in Hlo by lia. done. }
  assert (-1074 <= e) as He by lia.
  clear Hlo Hhi Hcan.
  pose proof (Z.pow_pos_nonneg 2 (e + 1074) ltac:(lia) ltac:(lia)) as HW.
  cbn [units ulp] in Hclose.
  destruct s.
  { (* a negative float is too far *)
    exfalso. remember (2 ^ (e + 1074)) as W eqn:EW. clear EW.
    assert (W * b <= Z.pos m * W * b) by nia. lia. }
  destruct (Z.lt_trichotomy e e0) as [Hlt|[->|Hgt]].
  - (* a smaller exponent: the mantissa would need more than 53 bits *)
    exfalso.
    assert (2 ^ (e0 + 1074) = 2 ^ (e0 - e) * 2 ^ (e + 1074)) as EW0.
    { rewrite <- Z.pow_add_r by lia. f_equal. lia. }
    assert (2 ^ 1 <= 2 ^ (e0 - e)) as Hc by (apply Z.pow_le_mono_r; lia).
    change (2 ^ 1) with 2 in Hc.
    remember (2 ^ (e0 - e)) as c eqn:Ec. clear Ec.
    remember (2 ^ (e + 1074)) as W eqn:EW. clear EW.
    rewrite EW0 in Hnear. clear EW0 HW0.
    assert (2 * Z.abs ((Z.pos m - Z.pos m0 * c) * (W * b)) < (1 + c) * (W * b))
      as Hd.
    { replace ((Z.pos m - Z.pos m0 * c) * (W * b))
        with (1 * (Z.pos m * W) * b - a * 2 ^ 1074
              - (Z.pos m0 * (c * W) * b - a * 2 ^ 1074)) by ring.
      lia. }
    apply cancel_close in Hd; [|nia].
    assert ((2 ^ 52 + 1) * c <= Z.pos m0 * c) by (apply Z.mul_le_mono_nonneg_r; lia).
    lia.
  - (* the same exponent: the same mantissa *)
    remember (2 ^ (e0 + 1074)) as W eqn:EW. clear EW.
    assert (2 * Z.abs ((Z.pos m - Z.pos m0) * (W * b)) < 2 * (W * b)) as Hd.
    { replace ((Z.pos m - Z.pos m0) * (W * b))
        with (1 * (Z.pos m * W) * b - a * 2 ^ 1074
              - (Z.pos m0 * W * b - a * 2 ^ 1074)) by ring.
      lia. }
    apply cancel_close in Hd; [|nia].
    assert (m = m0) as -> by lia. done.
  - (* a larger exponent: the mantissa would have fewer than 53 bits *)
    exfalso.
    assert (2 ^ (e + 1074) = 2 ^ (e - e0) * 2 ^ (e0 + 1074)) as EW.
    { rewrite <- Z.pow_add_r by lia. f_equal. lia. }
    assert (2 ^ 1 <= 2 ^ (e - e0)) as Hc by (apply Z.pow_le_mono_r; lia).
    change (2 ^ 1) with 2 in Hc.
    remember (2 ^ (e - e0)) as c eqn:Ec. clear Ec.
    remember (2 ^ (e0 + 1074)) as W0 eqn:EW0. clear EW0.
    rewrite EW in Hclose. clear EW HW.
    assert (2 * Z.abs ((Z.pos m * c - Z.pos m0) * (W0 * b)) < (c + 1) * (W0 * b))
      as Hd.
    { replace ((Z.pos m * c - Z.pos m0) * (W0 * b))
        with (1 * (Z.pos m * (c * W0)) * b - a * 2 ^ 1074
              - (Z.pos m0 * W0 * b - a * 2 ^ 1074)) by ring.
      lia. }
    apply cancel_close in Hd; [|nia].
    assert (2 ^ 52 * c <= Z.pos m * c).
    { apply Z.mul_le_mono_nonneg_r; [lia|]. apply Hm52. lia. }
    lia.
Qed.

(** *** [round(x, 2)] *)

Lemma round_half_even_close num den :
  0 < den ->
  let h := round_half_even num den in
  2 * Z.abs (num - h * den) <= den
  ∧ (2 * Z.abs (num - h * den) = den -> Z.even h = true).
Proof.
  intros Hden. unfold round_half_even.
  pose proof (Z.div_mod num den ltac:(lia)) as Hdm.
  pose proof (Z.mod_pos_bound num den Hden) as Hr.
  remember (num / den) as q eqn:Eq. remember (num mod den) as r eqn:Er.
  clear Eq Er. subst num.
  destruct (Z.compare_spec (2 * r) den) as [Heq|Hlt|Hgt]; cbv zeta.
  - destruct (Z.even q) eqn:Heven.
    + split; [lia|done].
    + split; [lia|]. intros _. rewrite Z.even_add, Heven. done.
  - split; lia.
  - split; lia.
Qed.

Lemma round_half_even_nonneg num den :
  0 <= num -> 0 < den -> 0 <= round_half_even num den.
Proof.
  intros Hnum Hden. unfold round_half_even.
  pose proof (Z.div_pos num den Hnum Hden).
  destruct (2 * (num mod den) ?= den); [destruct (Z.even _)| |]; lia.
Qed.

Lemma round2_rounded x :
  well_formed x = true ->
  units x <= 2 ^ 1000 * 2 ^ 1074 ->
  (x = S754_zero false ∨ ∃ m e, x = S754_finite false m e) ->
  ∃ h, hundredths x h ∧ rounded h 100 (round2 x).
Proof.
  intros Hwf Hx [->|(m & e & ->)].
  { exists 0. split; [split; [done|by intros _]|]. split; [done|]. simpl. lia. }
  cbn [well_formed] in Hwf. unfold bounded, canonical_mantissa in Hwf.
  apply andb_prop in Hwf as [Hcan _]. apply Z.eqb_eq in Hcan.
  rewrite fexp_eq in Hcan.
  cbn [units] in Hx. rewrite Z.mul_1_l in Hx.
  unfold round2.
  set (h := match e with
            | Z.neg k => round_half_even (Z.pos m * 100) (2 ^ Z.pos k)
            | _ => Z.shiftl (Z.pos m) e * 100
            end).
  assert (hundredths (S754_finite false m e) h ∧ 0 <= h) as [Hh Hh0].
  { unfold hundredths. cbn [units]. rewrite Z.mul_1_l.
    destruct e as [|k|k].
    - subst h. rewrite Z.shiftl_0_r. change (0 + 1074) with 1074.
      replace (100 * (Z.pos m * 2 ^ 1074) - Z.pos m * 100 * 2 ^ 1074)
        with 0 by ring.
      split; [split; [done|discriminate]|lia].
    - subst h. rewrite Z.shiftl_mul_pow2 by lia.
      pose proof (Z.pow_pos_nonneg 2 (Z.pos k) ltac:(lia) ltac:(lia)).
      rewrite Z.pow_add_r by lia.
      replace (100 * (Z.pos m * (2 ^ Z.pos k * 2 ^ 1074))
               - Z.pos m * 2 ^ Z.pos k * 100 * 2 ^ 1074) with 0 by ring.
      split; [split; [done|discriminate]|nia].
    - pose proof (Z.pow_pos_nonneg 2 (Z.pos k) ltac:(lia) ltac:(lia)) as Hk.
      destruct (round_half_even_close (Z.pos m * 100) (2 ^ Z.pos k) Hk)
        as [Hc He].
      pose proof (round_half_even_nonneg (Z.pos m * 100) (2 ^ Z.pos k)
                    ltac:(lia) Hk) as Hnn.
      fold h in Hc, He, Hnn.
      pose proof (Z.pow_pos_nonneg 2 (Z.neg k + 1074) ltac:(lia) ltac:(lia))
        as HP.
      assert (2 ^ 1074 = 2 ^ Z.pos k * 2 ^ (Z.neg k + 1074)) as HE.
      { rewrite <- Z.pow_add_r by lia. f_equal. lia. }
      remember (2 ^ (Z.neg k + 1074)) as P eqn:EP. clear EP.
      remember (2 ^ Z.pos k) as D eqn:ED. clear ED.
      rewrite HE.
      replace (100 * (Z.pos m * P) - h * (D * P))
        with ((Z.pos m * 100 - h * D) * P) by ring.
      rewrite Z.abs_mul, (Z.abs_eq P) by lia.
      split; [split|done].
      + nia.
      + intros Htie. apply He. nia. }
  clearbody h.
  exists h. split; [done|].
  destruct (Z.eqb_spec h 0) as [->|Hne].
  { split; [done|]. simpl. lia. }
  apply nearest_ratio_rounded; [lia|lia|].
  destruct Hh as [Hh _]. cbn [units] in Hh. rewrite Z.mul_1_l in Hh.
  assert (h * 2 ^ 1074 < 2 ^ 1023 * 100 * 2 ^ 1074) as Hlt by lia.
  apply Z.mul_lt_mono_pos_r in Hlt; lia.
Qed.

End Binary64.

(** ** SentimentAggregator: [apply_sentiment] and [sentiment_metrics] *)

Section SentimentAggregator.
Import Py advanced_insights.

Variable add_up : list float -> float.

(** *** Counting labels *)

Lemma value_counts_step_bounds (ls : list string) :
  ∀ (m : gmap string nat) (b : nat),
    (∀ l n, m !! l = Some n -> (1 ≤ n ≤ b)%nat) ->
    ∀ l n,
      foldl (λ m l, <[l := S (default 0 (m !! l))]> m) m ls !! l = Some n ->
      (1 ≤ n ≤ b + length ls)%nat.
Proof.
  induction ls as [|x ls IH]; intros m b Hm l n; simpl.
  - intros H. apply Hm in H. lia.
  - intros H. apply (IH _ (S b)) in H; [lia|].
    intros l' n'. destruct (decide (l' = x)) as [->|Hne].
    + rewrite lookup_insert_eq. intros [= <-].
      destruct (m !! x) as [k|] eqn:E; simpl; [apply Hm in E|]; lia.
    + rewrite lookup_insert_ne by done. intros H'. apply Hm in H'. lia.
Qed.

Lemma value_counts_bounds (ls : list string) l n :
  value_counts ls !! l = Some n -> (1 ≤ n ≤ length ls)%nat.
Proof.
  intros H. apply (value_counts_step_bounds ls ∅ 0) in H; [lia|].
  intros l' n'. by rewrite lookup_empty.
Qed.

Lemma value_counts_step_lookup (ls : list string) (m : gmap string nat) l :
  (∀ k n, m !! k = Some n -> (1 ≤ n)%nat) ->
  foldl (λ m l, <[l := S (default 0 (m !! l))]> m) m ls !! l
  = match (default 0 (m !! l) + length (filter (λ k, k = l) ls))%nat with
    | 0 => None
    | S n => Some (S n)
    end.
Proof.
  revert m. induction ls as [|x ls IH]; intros m Hm; simpl.
  - rewrite Nat.add_0_r.
    destruct (m !! l) as [n|] eqn:E; simpl; [|done].
    apply Hm in E. by destruct n; [lia|].
  - rewrite IH.
    2:{ intros k n. destruct (decide (k = x)) as [->|Hne].
        - rewrite lookup_insert_eq. intros [= <-]. lia.
        - rewrite lookup_insert_ne by done. apply Hm. }
    rewrite filter_cons. destruct (decide (x = l)) as [->|Hne].
    + rewrite lookup_insert_eq. simpl. by rewrite Nat.add_succ_r.
    + by rewrite lookup_insert_ne.
Qed.

Lemma value_counts_lookup (ls : list string) l :
  value_counts ls !! l
  = match length (filter (λ k, k = l) ls) with
    | 0 => None
    | S n => Some (S n)
    end.
Proof.
  unfold value_counts. rewrite value_counts_step_lookup.
  - by rewrite lookup_empty.
  - intros k n. by rewrite lookup_empty.
Qed.

Lemma length_filter_sentiment (df : list row) l :
  length (filter (λ k, k = l) (sentiment <$> df)) = length (labelled l df).
Proof.
  unfold labelled. induction df as [|r df IH]; [done|].
  rewrite fmap_cons, !filter_cons.
  destruct (decide (sentiment r = l)); simpl; by rewrite IH.
Qed.

(** *** The division cannot raise on a count *)

Lemma overflow_bound : (100 < 2 ^ 1024 - 2 ^ 970)%Z.
Proof. by vm_compute. Qed.

Lemma int_truediv_percent (total n : nat) :
  (1 ≤ n ≤ total)%nat ->
  ∃ q, int_truediv (100 * Z.of_nat n) (Z.of_nat total) = Ok q.
Proof.
  intros Hn. unfold int_truediv.
  destruct (Z.eqb_spec (Z.of_nat total) 0); [lia|].
  destruct (Z.eqb_spec (100 * Z.of_nat n) 0); [lia|].
  pose proof overflow_bound as Hb.
  set (B := (2 ^ 1024 - 2 ^ 970)%Z) in *.
  destruct (Z.leb_spec (B * Z.abs (Z.of_nat total)) (Z.abs (100 * Z.of_nat n)));
    [|by eexists].
  exfalso. nia.
Qed.

Lemma percentage_spec (total n : nat) :
  (1 ≤ n ≤ total)%nat ->
  ∃ q, int_truediv (100 * Z.of_nat n) (Z.of_nat total) = Ok q
       ∧ percentage total n = round2 q.
Proof.
  intros Hn. destruct (int_truediv_percent total n Hn) as [q Hq].
  exists q. split; [done|]. unfold percentage. by rewrite Hq.
Qed.

(** The percentage of a count is the quotient rounded three times: to a
    float, to hundredths, and to a float again. *)
Lemma percentage_rounded (total n : nat) :
  (1 ≤ n ≤ total)%nat -> rounded_percentage n total (percentage total n).
Proof.
  intros Hn. unfold percentage, int_truediv.
  destruct (Z.eqb_spec (Z.of_nat total) 0); [lia|].
  destruct (Z.eqb_spec (100 * Z.of_nat n) 0); [lia|].
  pose proof overflow_bound as Hb.
  set (B := (2 ^ 1024 - 2 ^ 970)%Z) in *.
  destruct (Z.leb_spec (B * Z.abs (Z.of_nat total)) (Z.abs (100 * Z.of_nat n)));
    [exfalso; nia|].
  destruct (Z.ltb_spec (100 * Z.of_nat n) 0); [lia|].
  destruct (Z.ltb_spec (Z.of_nat total) 0); [lia|].
  rewrite !Z.abs_eq by lia. cbn [xorb].
  assert (100 * Z.of_nat n < 2 ^ 1023 * Z.of_nat total)%Z as Hlt.
  { assert (100 < 2 ^ 1023)%Z by (by vm_compute). nia. }
  destruct (nearest_ratio_rounded (100 * Z.of_nat n) (Z.of_nat total))
    as [Hq Hshape]; [lia|lia|done|].
  set (q := nearest_ratio false (100 * Z.of_nat n) (Z.of_nat total)) in *.
  assert (0 ≤ units q ≤ 2 * 100 * 2 ^ 1074)%Z as Hu.
  { apply (rounded_below (100 * Z.of_nat n) (Z.of_nat total)); try done; lia. }
  destruct (round2_rounded q) as (h & Hh & Hp); [apply Hq| |done|].
  { assert (2 * 100 ≤ 2 ^ 1000)%Z by (by vm_compute). nia. }
  by exists q, h.
Qed.

Lemma mapM_result_Ok {A B} (f : A -> result B) (g : A -> B) (l : list A) :
  Forall (λ x, f x = Ok (g x)) l -> mapM f l = Ok (g <$> l).
Proof.
  induction 1 as [|x l Hx Hl IH]; simpl; [done|]. by rewrite Hx, IH.
Qed.

(** *** [sentiment_metrics] in closed form *)

Lemma sentiment_metrics_closed (df : list row) :
  sentiment_metrics add_up df
  = Ok {| total_reviews := length df;
          counts := value_counts (sentiment <$> df);
          percentages := percentage (length df) <$> value_counts (sentiment <$> df);
          average_score := series_mean add_up (sentiment_score <$> df) |}.
Proof.
  unfold sentiment_metrics.
  set (cs := value_counts (sentiment <$> df)).
  rewrite (mapM_result_Ok _ (prod_map id (percentage (length df)))).
  - simpl. by rewrite list_to_map_fmap, list_to_map_to_list.
  - apply Forall_forall. intros [l n] Hin.
    apply elem_of_map_to_list in Hin.
    apply value_counts_bounds in Hin. rewrite length_fmap in Hin.
    destruct (percentage_spec (length df) n Hin) as (q & Hq & Hp).
    simpl. rewrite Hq. simpl. unfold prod_map. simpl. by rewrite Hp.
Qed.

(** C3: [sentiment_metrics] never raises. On an empty frame it returns
    the empty metrics (no review, no count, no percentage, NaN as mean
    score). Otherwise a label has a count and a percentage exactly when
    some row carries it; the count [n] is the number of these rows, and
    the percentage is [round(100 * n / total, 2)]: the division does not
    raise, and the result is [100 * n / total] rounded to the nearest
    float, that float to the nearest hundredth (the even one on a tie),
    and that decimal to the nearest float. *)
Theorem sentiment_metrics_total (df : list row) :
  ∃ m, sentiment_metrics add_up df = Ok m
    ∧ total_reviews m = length df
    ∧ counts m = value_counts (sentiment <$> df)
    ∧ (total_reviews m = 0 ->
         counts m = ∅ ∧ percentages m = ∅ ∧ average_score m = float_nan)
    ∧ dom (percentages m) = dom (counts m)
    ∧ (∀ l n, counts m !! l = Some n ->
         ∃ q, int_truediv (100 * Z.of_nat n) (Z.of_nat (length df)) = Ok q
              ∧ percentages m !! l = Some (round2 q))
    ∧ (∀ l, match length (labelled l df) with
            | 0 => counts m !! l = None ∧ percentages m !! l = None
            | n => counts m !! l = Some n
                   ∧ ∃ p, percentages m !! l = Some p
                          ∧ rounded_percentage n (length df) p
            end).
Proof.
  eexists. split; [apply sentiment_metrics_closed|]. simpl.
  split; [done|]. split; [done|]. split; [|split; [|split]].
  - intros Hlen. destruct df; [|done]. simpl.
    unfold value_counts. simpl. by rewrite fmap_empty.
  - apply dom_fmap_L.
  - intros l n Hl. pose proof (value_counts_bounds _ _ _ Hl) as Hn.
    rewrite length_fmap in Hn.
    destruct (percentage_spec (length df) n Hn) as (q & Hq & Hp).
    exists q. split; [done|]. by rewrite lookup_fmap, Hl, <- Hp.
  - intros l. rewrite lookup_fmap.
    pose proof (value_counts_lookup (sentiment <$> df) l) as Hl.
    rewrite length_filter_sentiment in Hl.
    destruct (length (labelled l df)) as [|n] eqn:E; rewrite Hl; [done|].
    split; [done|]. eexists. split; [done|].
    apply percentage_rounded.
    pose proof (value_counts_bounds _ _ _ Hl) as Hn.
    by rewrite length_fmap in Hn.
Qed.

Example sentiment_metrics_empty :
  sentiment_metrics add_up []
  = Ok {| total_reviews := 0; counts := ∅; percentages := ∅;
          average_score := float_nan |}.
Proof. reflexivity. Qed.

(** Two positive reviews and a negative one: 66.67 and 33.33 per cent. *)
Example sentiment_metrics_two_to_one :
  percentages <$>
    sentiment_metrics add_up
      [ {| cleaned_content := "good"; sentiment := "positive";
           sentiment_score := float_zero |};
        {| cleaned_content := "bad"; sentiment := "negative";
           sentiment_score := float_zero |};
        {| cleaned_content := "fine"; sentiment := "positive";
           sentiment_score := float_zero |} ]
  = Ok {[ "positive" := S754_finite false 4691484174324859 (-46);
          "negative" := S754_finite false 4690780486883082 (-47) ]}.
Proof. vm_compute. reflexivity. Qed.

(** The rounding of the statement leaves no choice here: two reviews out
    of three are 66.67 per cent and one out of three is 33.33, as floats. *)
Example rounded_percentage_of_three p2 p1 :
  rounded_percentage 2 3 p2 -> rounded_percentage 1 3 p1 ->
  p2 = S754_finite false 4691484174324859 (-46)
  ∧ p1 = S754_finite false 4690780486883082 (-47).
Proof.
  intros (q2 & h2 & Hq2 & Hh2 & Hp2) (q1 & h1 & Hq1 & Hh1 & Hp1).
  change (100 * Z.of_nat 2)%Z with 200%Z in Hq2.
  change (100 * Z.of_nat 1)%Z with 100%Z in Hq1.
  change (Z.of_nat 3) with 3%Z in Hq1, Hq2.
  apply (rounded_unique _ _ 4691249611844267 (-46)) in Hq2;
    [|lia|lia|lia|lia|vm_compute; done].
  apply (rounded_unique _ _ 4691249611844267 (-47)) in Hq1;
    [|lia|lia|lia|lia|vm_compute; done].
  subst q1 q2.
  assert (h2 = 6667%Z) as ->.
  { destruct Hh2 as [Hh2 _]. cbn [units] in Hh2.
    change (2 ^ (-46 + 1074))%Z with (2 ^ 1028)%Z in Hh2. lia. }
  assert (h1 = 3333%Z) as ->.
  { destruct Hh1 as [Hh1 _]. cbn [units] in Hh1.
    change (2 ^ (-47 + 1074))%Z with (2 ^ 1027)%Z in Hh1. lia. }
  split.
  - apply (rounded_unique _ _ 4691484174324859 (-46)) in Hp2;
      [done|lia|lia|lia|lia|vm_compute; done].
  - apply (rounded_unique _ _ 4690780486883082 (-47)) in Hp1;
      [done|lia|lia|lia|lia|vm_compute; done].
Qed.

(** *** [apply_sentiment] *)

Lemma Forall2_zip_rows (df : list string) (results : list classification) :
  length results = length df ->
  Forall2
    (λ r c, sentiment r = canonical_label (label c)
            ∧ sentiment_score r = stored_score (score c))
    (zip_with (λ text ls, {| cleaned_content := text; sentiment := ls.1;
                             sentiment_score := ls.2 |})
       df (zip ((λ r, canonical_label (label r)) <$> results)
               ((λ r, stored_score (score r)) <$> results)))
    results.
Proof.
  revert df. induction results as [|c results IH]; intros [|text df] Hlen;
    simpl in *; try done; constructor; auto.
Qed.

(** C4 (as amended): when the classifier answers once per text,
    [apply_sentiment] does not raise, and the score it stores with a
    review is the classifier's score when that is a [float], and [0.0]
    when it is anything else, an [int] included. *)
Theorem apply_sentiment_scores
  (sent_pipe : list string -> list classification) (df : list string) :
  length (transformer_sentiment sent_pipe df) = length df ->
  ∃ rows, apply_sentiment sent_pipe (Column df) = Ok rows
    ∧ Forall2
        (λ r c, (is_float (score c) = true -> PFloat (sentiment_score r) = score c)
                ∧ (is_float (score c) = false -> sentiment_score r = float_zero))
        rows (transformer_sentiment sent_pipe df).
Proof.
  intros Hlen. unfold apply_sentiment. rewrite bool_decide_eq_true_2 by done.
  eexists. split; [done|].
  eapply Forall2_impl; [by apply Forall2_zip_rows|].
  intros r c [_ ->]. by destruct (score c).
Qed.

Lemma apply_sentiment_scores_witness :
  let sent_pipe := λ texts : list string,
    (λ t, {| label := Unicode.lit "NEGATIVE";
             score := if String.eqb t "" then PNone
                      else PFloat (float_of_Z 1) |}) <$> texts in
  let df := ["app crashes"; ""] in
  length (transformer_sentiment sent_pipe df) = length df
  ∧ ∃ rows, apply_sentiment sent_pipe (Column df) = Ok rows
    ∧ Forall2
        (λ r c, (is_float (score c) = true -> PFloat (sentiment_score r) = score c)
                ∧ (is_float (score c) = false -> sentiment_score r = float_zero))
        rows (transformer_sentiment sent_pipe df).
Proof.
  intros sent_pipe df. split; [reflexivity|].
  apply (apply_sentiment_scores sent_pipe df). reflexivity.
Defined.

(** C4 (as stated) fails: the score 1, an [int], is numeric, and what is
    stored for it is 0.0. *)
Lemma apply_sentiment_drops_int_score :
  let sent_pipe := λ texts : list string,
    (λ _, {| label := Unicode.lit "POSITIVE"; score := PInt 1 |}) <$> texts in
  is_number (PInt 1) = true
  ∧ apply_sentiment sent_pipe (Column ["great app"])
    = Ok [ {| cleaned_content := "great app"; sentiment := "positive";
              sentiment_score := float_zero |} ]
  ∧ PFloat float_zero ≠ PInt 1.
Proof. split; [reflexivity|]. split; [vm_compute; reflexivity | discriminate]. Qed.

End SentimentAggregator.

(** ** KeywordBucketer: [keyword_extraction] *)

Section KeywordBucketer.
Import Py advanced_insights.

Variable extract_keywords : string -> nat -> list (string * float).
Variable df : list row.
Variable top_n : nat.

(** What one round of the loop stores for a sentiment. *)
Lemma keyword_extraction_calls_unfold :
  keyword_extraction_calls extract_keywords df top_n
  = ( <["neutral" := match texts_of df "neutral" with
                     | [] => []
                     | texts => extract_keywords (String.concat " " texts) top_n
                     end]>
      (<["negative" := match texts_of df "negative" with
                       | [] => []
                       | texts => extract_keywords (String.concat " " texts) top_n
                       end]>
       (<["positive" := match texts_of df "positive" with
                        | [] => []
                        | texts => extract_keywords (String.concat " " texts) top_n
                        end]> ∅)),
      String.concat " " <$>
        filter (λ texts, texts ≠ []) (texts_of df <$> SENTIMENTS) ).
Proof.
  unfold keyword_extraction_calls, SENTIMENTS. simpl.
  rewrite !filter_cons, filter_nil.
  destruct (texts_of df "positive"), (texts_of df "negative"),
    (texts_of df "neutral"); reflexivity.
Qed.

(** C5 (as amended): for each of the three sentiments, the cleaned
    contents of the reviews that carry it are taken in the order of the
    reviews. When no review carries the sentiment its bucket is empty and
    the extractor is not called; otherwise the bucket is what the
    extractor returns for these texts joined by single spaces, even when
    the joined text is empty. The extractor is called once per sentiment
    that has a review, in the order positive, negative, neutral. *)
Theorem keyword_extraction_buckets :
  Forall
    (λ s, keyword_extraction extract_keywords df top_n !! s
          = Some match texts_of df s with
                 | [] => []
                 | texts => extract_keywords (String.concat " " texts) top_n
                 end)
    SENTIMENTS
  ∧ (keyword_extraction_calls extract_keywords df top_n).2
    = String.concat " " <$>
        filter (λ texts, texts ≠ []) (texts_of df <$> SENTIMENTS).
Proof.
  unfold keyword_extraction. rewrite keyword_extraction_calls_unfold.
  split; [|done]. unfold SENTIMENTS. repeat constructor; by simplify_map_eq.
Qed.

End KeywordBucketer.

Section KeywordBucketer_examples.
Import Py advanced_insights.

(** C5 (as stated) fails: one positive review whose cleaned content is
    empty gives an empty joined text, and the extractor is still called
    with it; the bucket is whatever the extractor answers. *)
Lemma keyword_extraction_calls_on_empty_text :
  let df := [ {| cleaned_content := ""; sentiment := "positive";
                 sentiment_score := float_zero |} ] in
  let extract_keywords := λ (_ : string) (_ : nat), [("app", float_zero)] in
  String.concat " " (texts_of df "positive") = ""
  ∧ keyword_extraction extract_keywords df 50 !! "positive"
    = Some [("app", float_zero)]
  ∧ (keyword_extraction_calls extract_keywords df 50).2 = [""].
Proof. vm_compute. repeat split; reflexivity. Qed.

Example keyword_extraction_order :
  let df := [ {| cleaned_content := "love app"; sentiment := "positive";
                 sentiment_score := float_zero |};
              {| cleaned_content := "crash login"; sentiment := "negative";
                 sentiment_score := float_zero |};
              {| cleaned_content := "great"; sentiment := "positive";
                 sentiment_score := float_zero |} ] in
  (keyword_extraction_calls (λ _ _, []) df 50).2
  = ["love app great"; "crash login"].
Proof. vm_compute. reflexivity. Qed.

End KeywordBucketer_examples.

(** ** ReviewCorpus: [process_reviews] and the [/process] endpoint *)

Section ReviewCorpus.
Import Py Unicode data_processing api_main.

Lemma process_review_dict dir d :
  process_review dir (PDict d)
  = (skipped dir (PDict d), Ok (entry_of dir (PDict d))).
Proof.
  unfold process_review, skipped, entry_of.
  destruct (clean_text_of_value (dict_get_or d "title" (PStr [])));
    destruct (clean_text_of_value (dict_get_or d "content" (PStr [])));
    reflexivity.
Qed.

Lemma process_file_reviews_dicts dir (reviews : list value) acc :
  Forall (λ r, is_dict r) reviews ->
  process_file_reviews dir reviews acc
  = (flat_map (skipped dir) reviews, Ok (acc ++ omap (entry_of dir) reviews)).
Proof.
  intros Hd. revert acc.
  induction Hd as [|r reviews Hr Hd IH]; intros acc; simpl.
  - by rewrite app_nil_r.
  - destruct r as [| | | | | |d]; try done.
    rewrite process_review_dict.
    unfold mbind, run_mbind, run_bind. rewrite IH.
    destruct (entry_of dir (PDict d)); simpl; [|done].
    by rewrite <- app_assoc.
Qed.

Lemma load_and_process_file file acc :
  well_shaped file ->
  (reviews ← load_reviews file;
   items ← (([], iterate reviews) : run (list value));
   process_file_reviews (file_country file) items acc)
  = (printed_of_file file, Ok (acc ++ entries_of_file file)).
Proof.
  unfold well_shaped, load_reviews, printed_of_file, entries_of_file, reviews_of.
  destruct (file_content_of file) as [| | | | |[| | | | | |data]]; try done.
  - intros _. simpl. by rewrite app_nil_r.
  - intros _. simpl. by rewrite app_nil_r.
  - unfold dict_get_or. destruct (data !! "reviews") as [[| | | | |l|]|];
      try done.
    + intros Hl. unfold mbind, run_mbind, run_bind, mret, run_ret. simpl.
      by rewrite process_file_reviews_dicts.
    + intros _. simpl. by rewrite app_nil_r.
Qed.

Lemma process_files_well_shaped files acc :
  Forall well_shaped files ->
  process_files files acc
  = (flat_map printed_of_file files, Ok (acc ++ flat_map entries_of_file files)).
Proof.
  intros Hf. revert acc.
  induction Hf as [|file files Hfile Hf IH]; intros acc; simpl.
  - by rewrite app_nil_r.
  - pose proof (load_and_process_file file acc Hfile) as H.
    unfold mbind, run_mbind, run_bind in *.
    destruct (load_reviews file) as [out1 [reviews|e]]; [|done].
    destruct (iterate reviews) as [items|e]; [|by destruct out1].
    simpl in *.
    destruct (process_file_reviews (file_country file) items acc)
      as [out2 [entries|e]]; [|done].
    injection H as H1 H2. subst entries.
    rewrite IH, <- H1. simpl. by rewrite <- !app_assoc.
Qed.




(** A review that is not an object is outside the amended statement: the
    handler's own [review.get] raises and the loader with it. *)
Example process_reviews_raises_on_a_string_review :
  let fs :=
    [ {| file_country := "us"; file_app_id := 1%Z;
         file_content_of := Json (PDict {[ "reviews" := PList [PStr (lit "x")] ]}) |} ] in
  (process_reviews fs 1).2 = Raise AttributeError.
Proof. vm_compute. reflexivity. Qed.

(** So is a file on which [json.load] raises something else than
    [JSONDecodeError]: the [except] clause of [load_reviews] names that
    class and [OSError] only, and the recursion limit met on deeply nested
    JSON, the digit limit met on a long integer and a byte that is not
    UTF-8 all go through [process_reviews] to its caller. *)
Example process_reviews_raises_on_other_load_errors :
  let found c :=
    [ {| file_country := "us"; file_app_id := 1%Z; file_content_of := c |} ] in
  (process_reviews (found TooDeep) 1).2 = Raise RecursionError
  ∧ (process_reviews (found IntegerTooLong) 1).2 = Raise ValueError
  ∧ (process_reviews (found NotUtf8) 1).2 = Raise UnicodeDecodeError.
Proof. vm_compute. repeat split; reflexivity. Qed.

End ReviewCorpus.

(** ** HierarchyBuilder: [build_sunburst] *)

Section HierarchyBuilder.
Import Py advanced_insights.

(** *** The node sequence in closed form *)

Lemma append_node_sunburst_of ns l p v :
  append_node (sunburst_of ns) l p v = sunburst_of (ns ++ [(l, p, v)]).
Proof.
  unfold append_node, sunburst_of. simpl. by rewrite !fmap_app.
Qed.

Lemma foldl_keyword_nodes s (kws : list (string * float)) ns :
  foldl (λ sb '(word, score),
           append_node sb word (capitalize s)
             (PFloat (round2 (float_mul score (float_of_Z 100)))))
        (sunburst_of ns) kws
  = sunburst_of (ns ++ (keyword_node s <$> kws)).
Proof.
  revert ns. induction kws as [|[word sc] kws IH]; intros ns; simpl.
  - by rewrite app_nil_r.
  - rewrite append_node_sunburst_of, IH. by rewrite <- app_assoc.
Qed.

Lemma foldl_bucket_nodes m keywords (ss : list string) ns :
  foldl (λ sb s,
           let count := default 0 (counts m !! s) in
           if (count =? 0)%nat then sb
           else
             let sb := append_node sb (capitalize s) "Reviews"
                                   (PInt (Z.of_nat count)) in
             foldl (λ sb '(word, score),
                      append_node sb word (capitalize s)
                        (PFloat (round2 (float_mul score (float_of_Z 100)))))
                   sb (take 50 (default [] (keywords !! s))))
        (sunburst_of ns) ss
  = sunburst_of (ns ++ flat_map (bucket_nodes m keywords) ss).
Proof.
  revert ns. induction ss as [|s ss IH]; intros ns; simpl.
  - by rewrite app_nil_r.
  - unfold bucket_nodes at 1, count_of.
    destruct (default 0 (counts m !! s) =? 0)%nat eqn:E.
    + by rewrite IH.
    + rewrite append_node_sunburst_of, foldl_keyword_nodes, IH.
      f_equal. rewrite <- !app_assoc. reflexivity.
Qed.

Lemma build_sunburst_closed m keywords :
  build_sunburst m keywords
  = sunburst_of (("Reviews", "", PInt (Z.of_nat (total_reviews m)))
                 :: flat_map (bucket_nodes m keywords) SENTIMENTS).
Proof.
  unfold build_sunburst.
  change {| labels := ["Reviews"]; parents := [""];
            values := [PInt (Z.of_nat (total_reviews m))] |}
    with (sunburst_of [("Reviews", "", PInt (Z.of_nat (total_reviews m)))]).
  by rewrite foldl_bucket_nodes.
Qed.

Lemma nodes_sunburst_of ns : nodes (sunburst_of ns) = ns.
Proof.
  induction ns as [|[[l p] v] ns IH]; [done|].
  unfold nodes, sunburst_of in *. simpl in *. by f_equal.
Qed.

(** *** The kinds of node *)

Lemma bucket_nodes_kind m keywords s :
  s ∈ SENTIMENTS -> Forall (node_kind m) (bucket_nodes m keywords s).
Proof.
  intros Hs. unfold bucket_nodes.
  destruct (Nat.eqb_spec (count_of m s) 0) as [|Hc]; [constructor|].
  constructor; [by constructor|].
  apply Forall_fmap, Forall_true. intros kw. by constructor.
Qed.

Lemma flat_map_kind m keywords (ss : list string) :
  ss ⊆ SENTIMENTS ->
  Forall (node_kind m) (flat_map (bucket_nodes m keywords) ss).
Proof.
  induction ss as [|s ss IH]; intros Hss; simpl; [constructor|].
  apply Forall_app. split.
  - apply bucket_nodes_kind, Hss. by left.
  - apply IH. intros x Hx. apply Hss. by right.
Qed.

Lemma capitalize_sentiment s :
  s ∈ SENTIMENTS ->
  capitalize s ≠ "Reviews" ∧ capitalize s ≠ "".
Proof.
  unfold SENTIMENTS. intros Hs.
  repeat (apply elem_of_cons in Hs as [->|Hs]; [by vm_compute|]).
  by apply elem_of_nil in Hs.
Qed.

Lemma capitalize_sentiment_inj s s' :
  s ∈ SENTIMENTS -> s' ∈ SENTIMENTS -> capitalize s = capitalize s' -> s = s'.
Proof.
  unfold SENTIMENTS. intros Hs Hs'.
  repeat (apply elem_of_cons in Hs as [->|Hs]);
    repeat (apply elem_of_cons in Hs' as [->|Hs']);
    try (by apply elem_of_nil in Hs); try (by apply elem_of_nil in Hs');
    by vm_compute.
Qed.

(** *** Parents come first *)

Lemma top_down_mono seen seen' ns :
  seen ⊆ seen' -> top_down seen ns -> top_down seen' ns.
Proof.
  revert seen seen'. induction ns as [|n ns IH]; intros seen seen' Hsub; simpl;
    [done|].
  intros [Hn Hns]. split; [by apply Hsub|].
  eapply IH; [|exact Hns]. intros x Hx.
  apply elem_of_cons in Hx as [->|Hx]; [by left | right; by apply Hsub].
Qed.

Lemma top_down_app seen ns1 ns2 :
  top_down seen ns1 -> top_down seen ns2 -> top_down seen (ns1 ++ ns2).
Proof.
  revert seen. induction ns1 as [|n ns1 IH]; intros seen; simpl; [done|].
  intros [Hn H1] H2. split; [done|]. apply IH; [done|].
  eapply top_down_mono; [|exact H2]. intros x Hx. by right.
Qed.

Lemma top_down_keywords seen s (kws : list (string * float)) :
  capitalize s ∈ seen -> top_down seen (keyword_node s <$> kws).
Proof.
  revert seen. induction kws as [|kw kws IH]; intros seen Hs; simpl; [done|].
  split; [done|]. apply IH. by right.
Qed.

Lemma top_down_bucket_nodes seen m keywords s :
  "Reviews" ∈ seen -> top_down seen (bucket_nodes m keywords s).
Proof.
  intros Hr. unfold bucket_nodes.
  destruct (count_of m s =? 0)%nat; simpl; [done|].
  split; [done|]. apply top_down_keywords. by left.
Qed.

Lemma top_down_flat_map seen m keywords (ss : list string) :
  "Reviews" ∈ seen -> top_down seen (flat_map (bucket_nodes m keywords) ss).
Proof.
  intros Hr. induction ss as [|s ss IH]; simpl; [done|].
  apply top_down_app; [by apply top_down_bucket_nodes | done].
Qed.

Lemma top_down_lookup seen (ns : list node) i (n : node) :
  top_down seen ns -> ns !! i = Some n ->
  n.1.2 ∈ seen ∨ ∃ j n', (j < i)%nat ∧ ns !! j = Some n' ∧ n'.1.1 = n.1.2.
Proof.
  revert seen i. induction ns as [|n0 ns IH]; intros seen i; [done|].
  simpl top_down. intros [Hn0 Hns]. destruct i as [|i]; simpl.
  - intros [= <-]. by left.
  - intros Hi. destruct (IH _ _ Hns Hi) as [Hin|(j & n' & Hj & Hn' & Hl)].
    + apply elem_of_cons in Hin as [Heq|Hin]; [|by left].
      right. exists 0, n0. split; [lia|]. by split.
    + right. exists (S j), n'. split; [lia|]. by split.
Qed.

(** C7: in the node sequence of [build_sunburst] the three lists are
    parallel and the root comes first. A node under the root is the node
    of a sentiment whose count is not zero, and that count is its weight:
    no sentiment node has weight 0. A sentiment whose count is zero is the
    parent of no node. Past the root, every node's parent label is the
    label of an earlier node. *)
Theorem build_sunburst_well_formed
  (m : metrics) (keywords : gmap string (list (string * float))) :
  let sb := build_sunburst m keywords in
  let ns := nodes sb in
  (labels sb, parents sb, values sb) = (ns.*1.*1, ns.*1.*2, ns.*2)
  ∧ ns !! 0 = Some ("Reviews", "", PInt (Z.of_nat (total_reviews m)))
  ∧ (∀ i l v, ns !! i = Some (l, "Reviews", v) ->
       ∃ s, s ∈ SENTIMENTS ∧ l = capitalize s
            ∧ v = PInt (Z.of_nat (count_of m s)) ∧ count_of m s ≠ 0
            ∧ v ≠ PInt 0)
  ∧ (∀ s i l v, s ∈ SENTIMENTS -> count_of m s = 0 ->
       ns !! i ≠ Some (l, capitalize s, v))
  ∧ (∀ i l p v, ns !! S i = Some (l, p, v) ->
       ∃ j l' p' v', (j ≤ i)%nat ∧ ns !! j = Some (l', p', v') ∧ l' = p).
Proof.
  intros sb ns. unfold ns, sb. rewrite build_sunburst_closed, nodes_sunburst_of.
  set (rest := flat_map (bucket_nodes m keywords) SENTIMENTS).
  assert (Forall (node_kind m) rest) as Hkind by by apply flat_map_kind.
  assert (top_down ["Reviews"] rest) as Htd
    by (apply top_down_flat_map; by left).
  split; [done|]. split; [done|]. split; [|split].
  - intros [|i] l v; simpl; [done|]. intros Hi.
    apply list_elem_of_lookup_2 in Hi.
    rewrite Forall_forall in Hkind. apply Hkind in Hi.
    remember (l, "Reviews", v) as n eqn:En.
    destruct Hi as [|s Hs Hc|s kw Hs Hc].
    + by injection En.
    + unfold bucket_node in En. injection En as <- <-.
      exists s. repeat split; try done. intros [= Hz]. lia.
    + unfold keyword_node in En. injection En as _ Hcap _.
      by destruct (capitalize_sentiment s Hs) as [[] _].
  - intros s [|i] l v Hs Hz; simpl.
    + intros [= _ Hcap]. by destruct (capitalize_sentiment s Hs) as [_ []].
    + intros Hi. apply list_elem_of_lookup_2 in Hi.
      rewrite Forall_forall in Hkind. apply Hkind in Hi.
      remember (l, capitalize s, v) as n eqn:En.
      destruct Hi as [|s' Hs' Hc|s' kw Hs' Hc].
      * injection En as _ Hcap _.
        by destruct (capitalize_sentiment s Hs) as [_ []].
      * unfold bucket_node in En. injection En as _ Hcap _.
        by destruct (capitalize_sentiment s Hs) as [[] _].
      * unfold keyword_node in En. injection En as _ Hcap _.
        apply capitalize_sentiment_inj in Hcap; [|done..]. by subst.
  - intros i l p v Hi. simpl in Hi.
    destruct (top_down_lookup _ _ _ _ Htd Hi) as [Hin|(j & [[l' p'] v'] & Hj & Hn' & Hl)].
    + simpl in Hin. apply list_elem_of_singleton in Hin as ->.
      exists 0, "Reviews", "", (PInt (Z.of_nat (total_reviews m))).
      split; [lia|]. by split.
    + exists (S j), l', p', v'. split; [lia|]. by split.
Qed.

Lemma build_sunburst_well_formed_witness :
  let m := {| total_reviews := 3;
              counts := {[ "positive" := 2; "negative" := 1 ]};
              percentages := ∅; average_score := float_nan |} in
  let keywords : gmap string (list (string * float)) :=
    {[ "positive" := [("love", float_of_Z 1)];
       "neutral" := [("fine", float_zero)] ]} in
  nodes (build_sunburst m keywords) !! 2
    = Some ("love", "Positive", PFloat (float_of_Z 100))
  ∧ ∃ j l' p' v', (j ≤ 1)%nat
      ∧ nodes (build_sunburst m keywords) !! j = Some (l', p', v')
      ∧ l' = "Positive".
Proof.
  intros m keywords. split; [vm_compute; reflexivity|].
  pose proof (build_sunburst_well_formed m keywords) as H.
  destruct H as (_ & _ & _ & _ & H).
  apply (H 1 "love" "Positive" (PFloat (float_of_Z 100))).
  vm_compute. reflexivity.
Defined.

Example build_sunburst_skips_empty_bucket :
  let m := {| total_reviews := 3;
              counts := {[ "positive" := 2; "negative" := 1 ]};
              percentages := ∅; average_score := float_nan |} in
  let keywords : gmap string (list (string * float)) :=
    {[ "positive" := [("love", float_of_Z 1)];
       "neutral" := [("fine", float_zero)] ]} in
  nodes (build_sunburst m keywords)
  = [ ("Reviews", "", PInt 3); ("Positive", "Reviews", PInt 2);
      ("love", "Positive", PFloat (float_of_Z 100));
      ("Negative", "Reviews", PInt 1) ].
Proof. vm_compute. reflexivity. Qed.

End HierarchyBuilder.

(** ** InsightRuleEngine: [generate_insights] *)

Section InsightRuleEngine.
Import Py advanced_insights.

(** The chain of tests is the table read from top to bottom. *)
Lemma generate_insights_closed keywords :
  generate_insights keywords
  = match fired (negative_keywords keywords) with
    | [] => [FALLBACK]
    | messages => messages
    end.
Proof.
  unfold generate_insights, fired, RULES.
  fold (negative_keywords keywords).
  generalize (negative_keywords keywords). intros neg.
  unfold append_if. cbn -[any_in].
  destruct (any_in neg ["price"; "subscription"; "pay"]),
    (any_in neg ["bug"; "crash"; "error"; "issue"]),
    (any_in neg ["login"; "account"; "sign"]),
    (any_in neg ["ads"; "advert"]),
    (any_in neg ["slow"; "lag"; "performance"]),
    (any_in neg ["youtube"; "streaming"; "video"; "channel"]);
    reflexivity.
Qed.

Lemma any_in_elem neg (triggers : list string) k :
  k ∈ triggers -> k ∈ neg -> any_in neg triggers = true.
Proof.
  intros Hk Hn. unfold any_in. apply existsb_exists.
  exists k. split; [by apply list_elem_of_In | by apply bool_decide_eq_true].
Qed.

Lemma fired_messages neg : fired neg ⊆ RULES.*2.
Proof.
  unfold fired. generalize RULES. intros rules.
  induction rules as [|r rules IH]; simpl; [done|].
  destruct (any_in neg r.1); simpl.
  - intros x Hx. apply elem_of_cons in Hx as [->|Hx]; [by left|].
    right. by apply IH.
  - intros x Hx. right. by apply IH.
Qed.

Lemma fired_length neg : (length (fired neg) ≤ 6)%nat.
Proof.
  unfold fired. rewrite length_fmap.
  etrans; [apply List.filter_length_le|]. reflexivity.
Qed.

Lemma FALLBACK_not_fired neg : FALLBACK ∉ fired neg.
Proof.
  intros H. apply fired_messages in H. revert H.
  apply (bool_decide_eq_false_1 (FALLBACK ∈ RULES.*2)). by vm_compute.
Qed.

Lemma any_in_spec neg (triggers : list string) :
  any_in neg triggers = true <-> ∃ k, k ∈ triggers ∧ k ∈ neg.
Proof.
  unfold any_in. rewrite existsb_exists. split.
  - intros (k & Hin & Hk). apply bool_decide_eq_true in Hk.
    exists k. by rewrite list_elem_of_In.
  - intros (k & Hin & Hk). exists k. rewrite <- list_elem_of_In.
    split; [done | by apply bool_decide_eq_true].
Qed.

Lemma any_in_fires neg rule : any_in neg rule.1 = true <-> fires neg rule.
Proof. unfold fires. by rewrite any_in_spec, Exists_exists. Qed.

Lemma filter_bool_Prop {A} (f : A -> bool) (P : A -> Prop)
  `{!∀ x, Decision (P x)} (l : list A) :
  (∀ x, f x = true <-> P x) -> List.filter f l = filter P l.
Proof.
  intros Hf. induction l as [|x l IH]; [done|].
  simpl. rewrite filter_cons. destruct (f x) eqn:E.
  - rewrite decide_True by by apply Hf. by rewrite IH.
  - rewrite decide_False; [done|]. intros HP. apply Hf in HP. congruence.
Qed.

Lemma fired_triggered neg : fired neg = triggered neg.
Proof.
  unfold fired, triggered. f_equal.
  apply filter_bool_Prop. intros rule. apply any_in_fires.
Qed.

Lemma triggered_nil neg :
  triggered neg = []
  <-> ∀ triggers message k,
        (triggers, message) ∈ RULES -> k ∈ triggers -> k ∉ neg.
Proof.
  unfold triggered.
  assert ((filter (fires neg) RULES).*2 = [] <-> filter (fires neg) RULES = [])
    as -> by (split; [apply fmap_nil_inv | by intros ->]).
  split.
  - intros Hnil triggers message k Hrule Hk Hneg.
    assert ((triggers, message) ∈ filter (fires neg) RULES) as Hin.
    { apply list_elem_of_filter. split; [|done].
      apply Exists_exists. by exists k. }
    rewrite Hnil in Hin. by apply elem_of_nil in Hin.
  - intros Hno. destruct (filter (fires neg) RULES) as [|[triggers message] l]
      eqn:E; [done|].
    assert ((triggers, message) ∈ filter (fires neg) RULES) as Hin
      by (rewrite E; left).
    apply list_elem_of_filter in Hin as [Hf Hin].
    apply Exists_exists in Hf as (k & Hk & Hneg).
    by destruct (Hno triggers message k Hin Hk).
Qed.

(** C8: with both "crash" and "login" among the negative keywords, the
    stability message is immediately followed by the authentication
    message and the fallback message is absent. In general the messages
    are those of the rules that fire (a rule fires when one of its
    trigger words is among the keywords), in the order of the rules, and
    the fallback message is there exactly when no rule fires, that is
    when no trigger word of any rule is among the keywords. *)
Theorem generate_insights_rules
  (keywords : gmap string (list (string * float))) :
  let neg := negative_keywords keywords in
  let insights := generate_insights keywords in
  ("crash" ∈ neg -> "login" ∈ neg ->
     (∃ before after,
        insights = before ++ STABILITY :: AUTHENTICATION :: after)
     ∧ FALLBACK ∉ insights)
  ∧ (FALLBACK ∈ insights
     ↔ ∀ triggers message k,
         (triggers, message) ∈ RULES -> k ∈ triggers -> k ∉ neg)
  ∧ (FALLBACK ∈ insights ↔ triggered neg = [])
  ∧ (triggered neg ≠ [] -> insights = triggered neg)
  ∧ (triggered neg = [] -> insights = [FALLBACK]).
Proof.
  intros neg insights. unfold insights. rewrite generate_insights_closed.
  fold neg.
  assert (FALLBACK ∈ match fired neg with [] => [FALLBACK] | ms => ms end
          ↔ triggered neg = []) as Hfallback.
  { pose proof (FALLBACK_not_fired neg) as Hfb.
    rewrite <- fired_triggered.
    destruct (fired neg) as [|msg msgs] eqn:E.
    - split; [done|]. intros _. by left.
    - split; [done|]. intros [=]. }
  split; [|split; [|split; [|split]]].
  - intros Hcrash Hlogin.
    assert (any_in neg ["bug"; "crash"; "error"; "issue"] = true) as Hs
      by (apply (any_in_elem neg _ "crash"); [|done];
          apply list_elem_of_In; simpl; auto).
    assert (any_in neg ["login"; "account"; "sign"] = true) as Ha
      by (apply (any_in_elem neg _ "login"); [|done];
          apply list_elem_of_In; simpl; auto).
    assert (fired neg
            = (if any_in neg ["price"; "subscription"; "pay"]
               then [PRICING] else [])
              ++ STABILITY :: AUTHENTICATION
                 :: (List.filter (λ rule, any_in neg rule.1) (drop 3 RULES)).*2)
      as Hf.
    { unfold fired, RULES. cbn -[any_in]. rewrite Hs, Ha.
      by destruct (any_in neg ["price"; "subscription"; "pay"]). }
    pose proof (FALLBACK_not_fired neg) as Hfb.
    destruct (fired neg) as [|msg msgs] eqn:E.
    { by destruct (any_in neg ["price"; "subscription"; "pay"]). }
    split; [|done]. eexists _, _. exact Hf.
  - by rewrite Hfallback, triggered_nil.
  - exact Hfallback.
  - rewrite <- fired_triggered. by destruct (fired neg).
  - rewrite <- fired_triggered. by intros ->.
Qed.

Lemma generate_insights_rules_witness :
  let keywords : gmap string (list (string * float)) :=
    {[ "negative" := [("crash", float_zero); ("login", float_zero)] ]} in
  "crash" ∈ negative_keywords keywords
  ∧ "login" ∈ negative_keywords keywords
  ∧ (∃ before after,
       generate_insights keywords
       = before ++ STABILITY :: AUTHENTICATION :: after)
  ∧ FALLBACK ∉ generate_insights keywords.
Proof.
  intros keywords.
  assert ("crash" ∈ negative_keywords keywords) as Hc
    by (apply list_elem_of_In; left; reflexivity).
  assert ("login" ∈ negative_keywords keywords) as Hl
    by (apply list_elem_of_In; right; left; reflexivity).
  split; [exact Hc|]. split; [exact Hl|].
  exact (proj1 (generate_insights_rules keywords) Hc Hl).
Defined.

Example generate_insights_crash_login :
  generate_insights
    {[ "negative" := [("crash", float_zero); ("login", float_zero)] ]}
  = [STABILITY; AUTHENTICATION].
Proof. vm_compute. reflexivity. Qed.


Example generate_insights_no_negative_bucket :
  generate_insights ∅ = [FALLBACK].
Proof. vm_compute. reflexivity. Qed.

End InsightRuleEngine.
(** * Further properties *)

(** ** [clean_text]: the shape of the result, and white space as a
    boundary *)

Section TextNormalizer_more.
Import Unicode data_processing.

Lemma filter_all_true {A} (f : A -> bool) l :
  Forall (λ x, f x = true) (List.filter f l).
Proof.
  induction l as [|x l IH]; simpl; [constructor|].
  destruct (f x) eqn:E; [by constructor | done].
Qed.

Lemma settled_nonspace_word c :
  settled c = true -> is_space c = false ->
  is_word c = true ∧ lower_fixed c = true.
Proof.
  intros Hs Hn. split; [|by apply settled_lower].
  apply settled_kept in Hs. by rewrite Hn, orb_false_r in Hs.
Qed.

Lemma clean_text_chars x : clean_text x = join [space] (clean_tokens x).
Proof. destruct x; [done|]. apply clean_chars_join. Qed.

(** X1: the text [clean_text] returns is a sequence of words separated by
    one space each, with no space before the first or after the last.
    Every word is non empty, is made of word characters, is its own lower
    case, and is no stop word. This holds for a text of any code
    points. *)
Theorem clean_text_format (x : str) :
  ∃ toks : list str,
    clean_text x = join [space] toks
    ∧ Forall (λ t, t ≠ []
                   ∧ Forall (λ c, is_word c = true) t
                   ∧ lower t = t
                   ∧ t ∉ STOPWORDS) toks.
Proof.
  exists (clean_tokens x). split; [apply clean_text_chars|].
  pose proof (clean_tokens_settled x) as Hs.
  pose proof (filter_all_true (λ tok, negb (is_stopword tok))
    (split (NON_WORD_PATTERN_sub (URL_PATTERN_sub (lower x))))) as Hf.
  fold (clean_tokens x) in Hf.
  rewrite Forall_forall in Hs, Hf. apply Forall_forall. intros t Ht.
  destruct (Hs t Ht) as [Hne Hc]. split; [done|]. split; [|split].
  - eapply Forall_impl; [exact Hc|]. intros c [Hn Hset].
    by apply settled_nonspace_word.
  - apply lower_from_id. eapply Forall_impl; [exact Hc|].
    intros c [_ Hset]. by apply settled_lower.
  - specialize (Hf t Ht). cbv beta in Hf. apply negb_true_iff in Hf.
    unfold is_stopword in Hf. by apply bool_decide_eq_false in Hf.
Qed.

(** *** White space separates what is cleaned *)

Lemma skip_ignorable_app a c b :
  case_ignorable c = false ->
  skip_ignorable (a ++ c :: b)
  = match skip_ignorable a with
    | [] => c :: b
    | r => r ++ c :: b
    end.
Proof.
  intros Hc. induction a as [|x a IH]; simpl; [by rewrite Hc|].
  destruct (case_ignorable x); [exact IH | done].
Qed.

Lemma final_sigma_after before a c b :
  is_space c = true ->
  final_sigma before (a ++ c :: b) = final_sigma before a.
Proof.
  intros Hc. destruct (is_space_plain c Hc) as (_ & _ & Hi & Hcased & _).
  unfold final_sigma. rewrite skip_ignorable_app by done.
  destruct (skip_ignorable before); [done|]. f_equal.
  destruct (skip_ignorable a); [by rewrite Hcased | done].
Qed.

Lemma final_sigma_before a c b after :
  is_space c = true ->
  final_sigma (a ++ c :: b) after = final_sigma a after.
Proof.
  intros Hc. destruct (is_space_plain c Hc) as (_ & _ & Hi & Hcased & _).
  unfold final_sigma. rewrite skip_ignorable_app by done.
  destruct (skip_ignorable a); [by rewrite Hcased | done].
Qed.

Lemma lower_from_before a c b s :
  is_space c = true -> lower_from (a ++ c :: b) s = lower_from a s.
Proof.
  intros Hc. revert a. induction s as [|x s IH]; intros a; simpl; [done|].
  rewrite final_sigma_before by done.
  change (x :: a ++ c :: b) with ((x :: a) ++ c :: b).
  by rewrite (IH (x :: a)).
Qed.

Lemma lower_from_app before a c b :
  is_space c = true ->
  lower_from before (a ++ c :: b)
  = lower_from before a ++ c :: lower_from [] b.
Proof.
  intros Hc. destruct (is_space_plain c Hc) as (Hl & Hn & _).
  revert before. induction a as [|x a IH]; intros before; simpl.
  - apply N.eqb_neq in Hn. rewrite Hn, Hl. simpl. f_equal.
    apply (lower_from_before [] c before b Hc).
  - rewrite final_sigma_after by done. by rewrite IH, <- app_assoc.
Qed.

Lemma literal_then_nonspace_app p s c b :
  forallb (λ a, negb (is_space a)) (lit p) = true ->
  is_space c = true ->
  literal_then_nonspace p (s ++ c :: b) = literal_then_nonspace p s.
Proof.
  unfold literal_then_nonspace. intros Hp Hc.
  generalize dependent (lit p). clear p.
  intros p. revert s. induction p as [|a p IH]; intros s Hp; simpl.
  - destruct s as [|x s]; simpl; [by rewrite Hc | done].
  - simpl in Hp. apply andb_true_iff in Hp as [Ha Hp].
    destruct s as [|x s]; simpl.
    + destruct (N.eqb_spec a c) as [->|_]; [|done].
      by rewrite Hc in Ha.
    + destruct (a =? x)%N; [by apply IH | done].
Qed.

Lemma URL_PATTERN_matches_at_app s c b :
  is_space c = true ->
  URL_PATTERN_matches_at (s ++ c :: b) = URL_PATTERN_matches_at s.
Proof.
  intros Hc. unfold URL_PATTERN_matches_at.
  by rewrite !literal_then_nonspace_app.
Qed.

Lemma URL_PATTERN_sub_from_cons st x s :
  URL_PATTERN_sub_from st (x :: s)
  = if st && negb (is_space x) then URL_PATTERN_sub_from true s
    else if URL_PATTERN_matches_at (x :: s)
         then space :: URL_PATTERN_sub_from true s
         else x :: URL_PATTERN_sub_from false s.
Proof. reflexivity. Qed.

Lemma URL_PATTERN_sub_from_app st a c b :
  is_space c = true ->
  URL_PATTERN_sub_from st (a ++ c :: b)
  = URL_PATTERN_sub_from st a ++ c :: URL_PATTERN_sub_from false b.
Proof.
  intros Hc. revert st. induction a as [|x a IH]; intros st.
  - change ([] ++ c :: b) with (c :: b).
    rewrite URL_PATTERN_sub_from_cons, Hc, andb_false_r.
    pose proof (URL_PATTERN_matches_at_app [] c b Hc) as Hm.
    change ([] ++ c :: b) with (c :: b) in Hm. rewrite Hm. reflexivity.
  - change ((x :: a) ++ c :: b) with (x :: (a ++ c :: b)).
    rewrite (URL_PATTERN_sub_from_cons st x (a ++ c :: b)).
    rewrite (URL_PATTERN_sub_from_cons st x a).
    change (x :: (a ++ c :: b)) with ((x :: a) ++ c :: b).
    rewrite URL_PATTERN_matches_at_app by done. rewrite !IH.
    destruct (st && negb (is_space x)); [done|].
    by destruct (URL_PATTERN_matches_at (x :: a)).
Qed.

Lemma cons_nonempty_app w ws l :
  cons_nonempty w ws ++ l = cons_nonempty w (ws ++ l).
Proof. by destruct w. Qed.

Lemma scan_app_space a c b :
  is_space c = true ->
  scan (a ++ c :: b) = ((scan a).1, (scan a).2 ++ split b).
Proof.
  intros Hc. induction a as [|x a IH].
  - simpl app. by rewrite scan_cons_space.
  - change ((x :: a) ++ c :: b) with (x :: (a ++ c :: b)).
    destruct (is_space x) eqn:Ex.
    + rewrite (scan_cons_space x (a ++ c :: b)), (scan_cons_space x a) by done.
      unfold split at 1 3. rewrite IH. destruct (scan a) as [w ws]. simpl.
      by rewrite cons_nonempty_app.
    + rewrite (scan_cons_nonspace x (a ++ c :: b)), (scan_cons_nonspace x a)
        by done.
      by rewrite IH.
Qed.

Lemma split_app_space a c b :
  is_space c = true -> split (a ++ c :: b) = split a ++ split b.
Proof.
  intros Hc. unfold split at 1 2. rewrite scan_app_space by done.
  destruct (scan a) as [w ws]. simpl. by rewrite cons_nonempty_app.
Qed.

Lemma clean_tokens_app_space a c b :
  is_space c = true ->
  clean_tokens (a ++ c :: b) = clean_tokens a ++ clean_tokens b.
Proof.
  intros Hc. unfold clean_tokens, lower, URL_PATTERN_sub, NON_WORD_PATTERN_sub.
  rewrite lower_from_app by done.
  rewrite URL_PATTERN_sub_from_app by done.
  rewrite map_app. simpl map.
  rewrite Hc, orb_true_r.
  by rewrite split_app_space, List.filter_app.
Qed.

Lemma split_clean_text x : words (clean_text x) = clean_tokens x.
Proof.
  unfold words. rewrite clean_text_chars.
  apply (split_join (λ c, settled c = true)), clean_tokens_settled.
Qed.

(** X2: white space is a boundary for [clean_text]. The words of the
    cleaned text of [x], a white space character and [y] put together
    are the words of the cleaned [x] followed by those of the cleaned
    [y]: no URL, word or stop word is recognised across the gap, and no
    letter is lowered differently for what stands on the other side.
    This holds for texts of any code points and each of the white space
    characters of Unicode. *)
Theorem clean_text_app_space (x y : str) (c : N) :
  is_space c = true ->
  words (clean_text (x ++ c :: y))
  = words (clean_text x) ++ words (clean_text y).
Proof.
  intros Hc. rewrite !split_clean_text. by apply clean_tokens_app_space.
Qed.

Lemma clean_text_app_space_witness :
  let x := lit "Visit www.x.com" in
  let y := [913; 931]%N ++ lit " the BEST app!" in
  is_space 8232 = true
  ∧ words (clean_text (x ++ 8232%N :: y))
    = words (clean_text x) ++ words (clean_text y).
Proof.
  intros x y. split; [reflexivity|].
  apply (clean_text_app_space x y 8232%N). reflexivity.
Defined.

End TextNormalizer_more.

(** ** [process_reviews]: what becomes of every review *)

Section ReviewCorpus_more.
Import Py Unicode data_processing.

Lemma entries_and_errors_of_reviews dir (reviews : list value) :
  Forall (λ r, is_dict r) reviews ->
  length (omap (entry_of dir) reviews)
  + length (List.filter is_review_error (flat_map (skipped dir) reviews))
  = length reviews.
Proof.
  induction 1 as [|r reviews Hr Hd IH]; [done|].
  destruct r as [| | | | | |d]; try done.
  change (omap (entry_of dir) (PDict d :: reviews))
    with (match entry_of dir (PDict d) with
          | Some y => y :: omap (entry_of dir) reviews
          | None => omap (entry_of dir) reviews
          end).
  change (flat_map (skipped dir) (PDict d :: reviews))
    with (skipped dir (PDict d) ++ flat_map (skipped dir) reviews).
  rewrite List.filter_app, length_app.
  change (skipped dir (PDict d))
    with (match entry_of dir (PDict d) with
          | None => [ErrorProcessingReview (dict_get d "id")]
          | Some _ => []
          end).
  destruct (entry_of dir (PDict d)) as [e|]; simpl; lia.
Qed.

Lemma file_accounted f :
  well_shaped f ->
  length (entries_of_file f)
  + length (List.filter is_review_error (printed_of_file f))
  = length (reviews_of f)
  ∧ length (List.filter is_load_error (printed_of_file f))
    = (if fails_to_load f then 1 else 0)%nat.
Proof.
  unfold well_shaped, entries_of_file, printed_of_file, reviews_of, fails_to_load.
  destruct (file_content_of f) as [| | | | |[| | | | | |data]]; try done.
  destruct (data !! "reviews") as [[| | | | |l|]|]; try done.
  intros Hl. split; [by apply entries_and_errors_of_reviews|].
  clear -Hl. induction Hl as [|r l Hr Hl IH]; [done|].
  destruct r as [| | | | | |d]; try done.
  change (flat_map (skipped (file_country f)) (PDict d :: l))
    with (skipped (file_country f) (PDict d)
          ++ flat_map (skipped (file_country f)) l).
  rewrite List.filter_app, length_app, IH.
  change (skipped (file_country f) (PDict d))
    with (match entry_of (file_country f) (PDict d) with
          | None => [ErrorProcessingReview (dict_get d "id")]
          | Some _ => []
          end).
  by destruct (entry_of _ (PDict d)).
Qed.

Lemma files_accounted (files : list raw_file) :
  Forall well_shaped files ->
  length (flat_map entries_of_file files)
  + length (List.filter is_review_error (flat_map printed_of_file files))
  = length (flat_map reviews_of files)
  ∧ length (List.filter is_load_error (flat_map printed_of_file files))
    = length (List.filter fails_to_load files).
Proof.
  induction 1 as [|f files Hfile Hf [IH1 IH2]]; [done|].
  destruct (file_accounted f Hfile) as [H1 H2].
  simpl flat_map. simpl List.filter.
  rewrite !List.filter_app, !length_app, IH2, H2. split; [lia|].
  by destruct (fails_to_load f).
Qed.



End ReviewCorpus_more.

(** ** [calculate_metrics]: invariants of the result, the expected input
    and the input that makes it raise *)

Section RatingMetrics_more.
Import Py metrics_visualization.

Lemma for_each_count_rating_converts valid st st' :
  Forall (λ r, has_numeric_rating r) valid ->
  for_each count_rating valid st = Ok st' ->
  ∃ ns, mapM (λ r, int_of (rating_of r)) valid = Ok ns.
Proof.
  intros Hv. revert st. induction Hv as [|r valid Hr Hv IH]; intros [c s]; simpl.
  - intros _. by exists [].
  - unfold count_rating at 1. rewrite (getitem_numeric r Hr). simpl.
    destruct (int_of (rating_of r)) as [n|e]; simpl; [|done].
    intros H. apply IH in H as [ns ->]. simpl. by eexists.
Qed.

Lemma calculate_metrics_converts reviews m :
  calculate_metrics reviews = Ok m ->
  ∃ ns, mapM (λ r, int_of (rating_of r))
             (filter (λ r, has_numeric_rating r) reviews) = Ok ns.
Proof.
  destruct reviews as [|r reviews]; [intros _; by exists []|].
  unfold calculate_metrics.
  set (valid := filter _ (r :: reviews)).
  destruct (for_each count_rating valid (zero_counts, 0%Z)) as [st|e] eqn:E;
    [|done].
  intros _. eapply for_each_count_rating_converts; [|exact E].
  apply Forall_filter_numeric.
Qed.

Lemma bucket_counts_lookup ns (r : Z) :
  bucket_counts ns !! r
  = if bool_decide (r ∈ RATING_RANGE)
    then Some (length (filter (λ n, n = r) ns)) else None.
Proof.
  rewrite <- foldl_tally_zero, foldl_tally_lookup.
  unfold zero_counts, RATING_RANGE. simpl.
  do 5 (match goal with
        | |- context [<[?n := 0]> _ !! r] =>
            destruct (decide (r = n)) as [->|?];
            [by rewrite lookup_insert_eq
            |rewrite (lookup_insert_ne _ n) by congruence]
        end).
  rewrite lookup_empty. rewrite bool_decide_eq_false_2; [done|].
  unfold RATING_RANGE. intros Hin.
  repeat (apply elem_of_cons in Hin as [->|Hin]; [done|]).
  by apply elem_of_nil in Hin.
Qed.

Lemma count_cons_in (rs : list Z) n ns :
  NoDup rs ->
  sum_list ((λ r, length (filter (λ k, k = r) (n :: ns))) <$> rs)
  = ((if decide (n ∈ rs) then 1 else 0)
     + sum_list ((λ r, length (filter (λ k, k = r) ns)) <$> rs))%nat.
Proof.
  induction 1 as [|r rs Hr Hrs IH]; [done|].
  rewrite !fmap_cons. cbn [sum_list_with id]. rewrite IH, filter_cons.
  destruct (decide (n = r)) as [->|Hne].
  - rewrite (decide_True (P := r ∈ r :: rs)) by by left.
    rewrite (decide_False (P := r ∈ rs)) by done. simpl. lia.
  - destruct (decide (n ∈ rs)) as [Hin|Hout].
    + rewrite (decide_True (P := n ∈ r :: rs)) by by right. lia.
    + rewrite (decide_False (P := n ∈ r :: rs)); [lia|].
      intros [->|?]%elem_of_cons; done.
Qed.

Lemma count_in_filter (rs : list Z) ns :
  NoDup rs ->
  sum_list ((λ r, length (filter (λ k, k = r) ns)) <$> rs)
  = length (filter (λ n, n ∈ rs) ns).
Proof.
  intros Hrs. induction ns as [|n ns IH].
  - clear Hrs. by induction rs as [|r rs IHrs].
  - rewrite count_cons_in, IH, filter_cons by done.
    by destruct (decide (n ∈ rs)).
Qed.

Lemma RATING_RANGE_stars n :
  (1 ≤ n ≤ 5)%Z -> n ∈ RATING_RANGE.
Proof.
  intros Hn. apply list_elem_of_In. unfold RATING_RANGE. simpl. lia.
Qed.

Lemma NoDup_RATING_RANGE : NoDup RATING_RANGE.
Proof.
  unfold RATING_RANGE. repeat (apply NoDup_cons; split);
    [..|apply NoDup_nil_2];
    intros Hin; apply list_elem_of_In in Hin; simpl in Hin; lia.
Qed.

Lemma bucket_total_counts ns :
  bucket_total (bucket_counts ns)
  = length (filter (λ n, n ∈ RATING_RANGE) ns).
Proof.
  rewrite <- count_in_filter by apply NoDup_RATING_RANGE.
  reflexivity.
Qed.

Lemma dom_bucket_counts ns : dom (bucket_counts ns) = list_to_set RATING_RANGE.
Proof.
  apply set_eq. intros r. rewrite elem_of_dom, bucket_counts_lookup.
  rewrite elem_of_list_to_set. case_bool_decide as Hr.
  - split; [done|]. intros _. by eexists.
  - split; [by intros [? ?] | done].
Qed.

(** X5: whenever [calculate_metrics] returns, [rating_counts] has the five
    keys 1 to 5 and no other, the five buckets add up to at most
    [total_reviews] (to exactly the number of kept ratings that are 1 to
    5 once truncated), and [total_reviews] is at most the number of
    reviews given. *)
Theorem calculate_metrics_invariants
  (reviews : list (gmap string value)) (m : metrics) :
  calculate_metrics reviews = Ok m ->
  dom (rating_counts m) = list_to_set RATING_RANGE
  ∧ (bucket_total (rating_counts m) ≤ total_reviews m)%nat
  ∧ (total_reviews m ≤ length reviews)%nat
  ∧ total_reviews m = length (filter (λ r, has_numeric_rating r) reviews).
Proof.
  intros Hm. destruct (calculate_metrics_converts reviews m Hm) as [ns Hns].
  pose proof (mapM_result_length _ _ _ Hns) as Hlen.
  rewrite (calculate_metrics_on_valid reviews ns Hns) in Hm.
  destruct (mean_rating ns) as [avg|e]; [|done]. simpl in Hm.
  injection Hm as <-. simpl.
  split; [apply dom_bucket_counts|].
  split; [rewrite bucket_total_counts; apply length_filter|].
  rewrite Hlen. split; [apply length_filter | done].
Qed.

Lemma calculate_metrics_invariants_witness :
  let reviews : list (gmap string value) :=
    [ {[ "rating" := PInt 5 ]}; {[ "rating" := PInt 9 ]}; ∅ ] in
  let m := {| average_rating := PFloat (float_of_Z 7);
              rating_counts := {[ 1%Z := 0; 2%Z := 0; 3%Z := 0; 4%Z := 0; 5%Z := 1 ]};
              total_reviews := 2 |} in
  calculate_metrics reviews = Ok m
  ∧ dom (rating_counts m) = list_to_set RATING_RANGE
  ∧ (bucket_total (rating_counts m) ≤ total_reviews m)%nat
  ∧ (total_reviews m ≤ length reviews)%nat
  ∧ total_reviews m = length (filter (λ r, has_numeric_rating r) reviews).
Proof.
  intros reviews m.
  assert (calculate_metrics reviews = Ok m) as H by (vm_compute; reflexivity).
  split; [exact H|]. exact (calculate_metrics_invariants reviews m H).
Defined.

(** *** Ratings of one to five stars *)

Lemma mapM_int_of_stars (valid : list (gmap string value)) :
  Forall (λ r, ∃ n, rating_of r = PInt n ∧ (1 ≤ n ≤ 5)%Z) valid ->
  ∃ ns, mapM (λ r, int_of (rating_of r)) valid = Ok ns
        ∧ Forall (λ n, (1 ≤ n ≤ 5)%Z) ns.
Proof.
  induction 1 as [|r valid (n & Hr & Hn) Hv (ns & Hns & Hall)]; simpl.
  - by exists [].
  - rewrite Hr. simpl. rewrite Hns. simpl. exists (n :: ns).
    split; [done|]. by constructor.
Qed.

Lemma sum_Z_stars ns :
  Forall (λ n, (1 ≤ n ≤ 5)%Z) ns ->
  (Z.of_nat (length ns) ≤ sum_Z ns ≤ 5 * Z.of_nat (length ns))%Z.
Proof.
  induction 1 as [|n ns Hn Hns IH]; simpl; [lia|].
  unfold sum_Z in *. simpl. lia.
Qed.

Lemma mean_rating_stars ns :
  Forall (λ n, (1 ≤ n ≤ 5)%Z) ns -> ∃ avg, mean_rating ns = Ok avg.
Proof.
  intros Hns. unfold mean_rating.
  destruct (Nat.ltb_spec 0 (length ns)) as [Hpos|_]; [|by eexists].
  pose proof (sum_Z_stars ns Hns) as Hs.
  unfold int_truediv.
  destruct (Z.eqb_spec (Z.of_nat (length ns)) 0); [lia|].
  destruct (Z.eqb_spec (sum_Z ns) 0); [lia|].
  pose proof overflow_bound as Hb.
  set (B := (2 ^ 1024 - 2 ^ 970)%Z) in *.
  destruct (Z.leb_spec (B * Z.abs (Z.of_nat (length ns))) (Z.abs (sum_Z ns)));
    [exfalso; nia|].
  simpl. by eexists.
Qed.

Lemma filter_stars_all ns :
  Forall (λ n, (1 ≤ n ≤ 5)%Z) ns ->
  filter (λ n, n ∈ RATING_RANGE) ns = ns.
Proof.
  induction 1 as [|n ns Hn Hns IH]; [done|].
  rewrite filter_cons, decide_True, IH; [done|].
  by apply RATING_RANGE_stars.
Qed.

(** X6: when every numeric rating is an integer from 1 to 5,
    [calculate_metrics] does not raise; [total_reviews] is the number of
    reviews that have such a rating, the five buckets add up to it, and
    each bucket holds the number of reviews with that rating. *)
Theorem calculate_metrics_star_ratings (reviews : list (gmap string value)) :
  Forall (λ r, has_numeric_rating r ->
               ∃ n, rating_of r = PInt n ∧ (1 ≤ n ≤ 5)%Z) reviews ->
  ∃ m, calculate_metrics reviews = Ok m
    ∧ total_reviews m = length (filter (λ r, has_numeric_rating r) reviews)
    ∧ bucket_total (rating_counts m) = total_reviews m
    ∧ ∀ n, (1 ≤ n ≤ 5)%Z ->
        rating_counts m !! n
        = Some (length (filter (λ r, rated n r) reviews)).
Proof.
  intros Hall.
  assert (Forall (λ r, ∃ n, rating_of r = PInt n ∧ (1 ≤ n ≤ 5)%Z)
            (filter (λ r, has_numeric_rating r) reviews)) as Hvalid.
  { apply Forall_forall. intros r Hr. apply list_elem_of_filter in Hr as [Hn Hr].
    rewrite Forall_forall in Hall. by apply Hall. }
  destruct (mapM_int_of_stars _ Hvalid) as (ns & Hns & Hstars).
  destruct (mean_rating_stars ns Hstars) as [avg Havg].
  pose proof (mapM_result_length _ _ _ Hns) as Hlen.
  rewrite (calculate_metrics_on_valid reviews ns Hns), Havg. simpl.
  eexists. split; [reflexivity|]. simpl. split; [done|].
  split; [by rewrite bucket_total_counts, filter_stars_all|].
  intros n Hn. rewrite bucket_counts_lookup.
  rewrite bool_decide_eq_true_2 by by apply RATING_RANGE_stars.
  f_equal. clear -Hns Hall. revert ns Hns.
  induction Hall as [|r reviews Hr Hall IH]; intros ns; simpl.
  - by intros [= <-].
  - rewrite !(filter_cons _ r).
    destruct (decide (has_numeric_rating r)) as [Hnum|Hnum].
    + destruct (Hr Hnum) as (k & Hk & _). simpl. rewrite Hk. simpl.
      destruct (mapM _ (filter _ reviews)) as [ns'|] eqn:E; [|done].
      simpl. intros [= <-]. rewrite filter_cons.
      assert (rated n r = (k =? n)%Z) as Hrated
        by (unfold rated; by rewrite Hk).
      destruct (Z.eqb_spec k n) as [->|Hne].
      * rewrite !decide_True by (done || by rewrite Hrated).
        simpl. f_equal. by apply IH.
      * rewrite (decide_False (P := k = n)) by done.
        rewrite (decide_False (P := Is_true (rated n r)))
          by (rewrite Hrated; exact id).
        by apply IH.
    + intros Hns. rewrite decide_False; [by apply IH|].
      intros Heq. apply Hnum. unfold has_numeric_rating.
      unfold rated in Heq. by destruct (rating_of r).
Qed.

Lemma calculate_metrics_star_ratings_witness :
  let reviews : list (gmap string value) :=
    [ {[ "rating" := PInt 5 ]}; {[ "rating" := PInt 5 ]};
      {[ "rating" := PInt 1 ]}; {[ "rating" := PNone ]} ] in
  ∃ m, calculate_metrics reviews = Ok m
    ∧ total_reviews m = length (filter (λ r, has_numeric_rating r) reviews)
    ∧ bucket_total (rating_counts m) = total_reviews m
    ∧ ∀ n, (1 ≤ n ≤ 5)%Z ->
        rating_counts m !! n
        = Some (length (filter (λ r, rated n r) reviews)).
Proof.
  intros reviews. apply (calculate_metrics_star_ratings reviews).
  repeat constructor; intros H; first [by vm_compute in H | idtac].
  - exists 5%Z. split; [reflexivity | lia].
  - exists 5%Z. split; [reflexivity | lia].
  - exists 1%Z. split; [reflexivity | lia].
Defined.

(** *** Ratings that are not finite *)

Lemma int_of_numeric_raises v e :
  is_int_or_float v = true -> int_of v = Raise e ->
  e = ValueError ∨ e = OverflowError.
Proof.
  destruct v as [| | |x| | |]; try done. simpl.
  destruct x; simpl; intros _ [= <-]; auto.
Qed.

Lemma for_each_count_rating_raises valid r x st :
  Forall (λ r, has_numeric_rating r) valid ->
  r ∈ valid -> rating_of r = PFloat x -> not_finite x = true ->
  ∃ e, for_each count_rating valid st = Raise e
       ∧ (e = ValueError ∨ e = OverflowError).
Proof.
  intros Hv. revert st. induction Hv as [|r0 valid Hr0 Hv IH]; intros [c s] Hin Hr Hx.
  { by apply elem_of_nil in Hin. }
  simpl. unfold count_rating at 1. rewrite (getitem_numeric r0 Hr0). simpl.
  destruct (int_of (rating_of r0)) as [n|e] eqn:En; simpl.
  - apply elem_of_cons in Hin as [->|Hin].
    + rewrite Hr in En. destruct x; done.
    + by apply IH.
  - exists e. split; [done|]. eapply int_of_numeric_raises; [|exact En].
    unfold has_numeric_rating in Hr0. by destruct (is_int_or_float _).
Qed.

(** X7: a single review whose rating is NaN or an infinity makes
    [calculate_metrics] raise, [ValueError] or [OverflowError], whatever
    the other reviews are. *)
Theorem calculate_metrics_raises_on_not_finite
  (reviews : list (gmap string value)) (r : gmap string value) (x : float) :
  r ∈ reviews -> rating_of r = PFloat x -> not_finite x = true ->
  calculate_metrics reviews = Raise ValueError
  ∨ calculate_metrics reviews = Raise OverflowError.
Proof.
  intros Hin Hr Hx.
  destruct reviews as [|r0 reviews]; [by apply elem_of_nil in Hin|].
  unfold calculate_metrics. set (valid := filter _ (r0 :: reviews)).
  assert (r ∈ valid) as Hvalid.
  { apply list_elem_of_filter. split; [|done].
    change (Is_true (is_int_or_float (rating_of r))). by rewrite Hr. }
  destruct (for_each_count_rating_raises valid r x (zero_counts, 0%Z)
              (Forall_filter_numeric _) Hvalid Hr Hx) as (e & -> & [->| ->]);
    auto.
Qed.

Lemma calculate_metrics_raises_on_not_finite_witness :
  let reviews : list (gmap string value) :=
    [ {[ "rating" := PInt 4 ]}; {[ "rating" := PFloat float_nan ]} ] in
  calculate_metrics reviews = Raise ValueError
  ∨ calculate_metrics reviews = Raise OverflowError.
Proof.
  intros reviews.
  apply (calculate_metrics_raises_on_not_finite reviews
           {[ "rating" := PFloat float_nan ]} float_nan).
  - apply list_elem_of_In. right. left. reflexivity.
  - reflexivity.
  - reflexivity.
Defined.

End RatingMetrics_more.

(** ** [save_metrics]: the CSV file written for a result of
    [calculate_metrics] *)

Section MetricsFiles.
Import Py metrics_visualization metrics_files.

Lemma keys_descending_bucket_counts ns :
  keys_descending (bucket_counts ns) = [5; 4; 3; 2; 1]%Z.
Proof. reflexivity. Qed.

Lemma percentage_or_zero_Ok (count total : nat) :
  (count ≤ total)%nat ->
  ∃ v s, percentage_or_zero count total = Ok v ∧ format_2f_value v = Ok s.
Proof.
  intros Hc. unfold percentage_or_zero. destruct total as [|t].
  { by exists (PInt 0), "0.00". }
  unfold int_truediv.
  destruct (Z.eqb_spec (Z.of_nat (S t)) 0); [lia|].
  destruct (Z.eqb_spec (100 * Z.of_nat count) 0).
  { simpl. by eexists _, _. }
  pose proof overflow_bound as Hb.
  set (B := (2 ^ 1024 - 2 ^ 970)%Z) in *.
  destruct (Z.leb_spec (B * Z.abs (Z.of_nat (S t))) (Z.abs (100 * Z.of_nat count)));
    [exfalso; nia|].
  simpl. by eexists _, _.
Qed.

Lemma csv_row_Ok (m : metrics) (r : Z) (count : nat) :
  rating_counts m !! r = Some count ->
  (count ≤ total_reviews m)%nat ->
  csv_row m r = Ok (csv_line m r).
Proof.
  intros Hr Hc. unfold csv_row, csv_line, percent_text. rewrite Hr. simpl.
  destruct (percentage_or_zero_Ok count (total_reviews m) Hc)
    as (v & s & -> & Hs).
  simpl. by rewrite Hs.
Qed.

(** X8: for a result [m] of [calculate_metrics], writing the CSV file
    does not raise (no division by zero when no review was kept) and the
    file holds the header and five rows, for the ratings 5, 4, 3, 2 and 1
    in this order, each with the count of its bucket and that count as a
    percentage of [total_reviews] with two decimals; the percentage reads
    0.00 in every row when [total_reviews] is 0. *)
Theorem save_metrics_csv_of_calculate_metrics
  (reviews : list (gmap string value)) (m : metrics) :
  calculate_metrics reviews = Ok m ->
  save_metrics_csv m = Ok (csv_header :: (csv_line m <$> [5; 4; 3; 2; 1]%Z))
  ∧ (total_reviews m = 0 ->
     ∀ r, r ∈ RATING_RANGE ->
       csv_line m r = (str_of_Z r ++ ",0,0.00" ++ newline)%string).
Proof.
  intros Hm.
  destruct (calculate_metrics_converts reviews m Hm) as [ns Hns].
  rewrite (calculate_metrics_on_valid reviews ns Hns) in Hm.
  destruct (mean_rating ns) as [avg|e]; [|done]. simpl in Hm.
  injection Hm as <-.
  set (m := {| average_rating := avg; rating_counts := bucket_counts ns;
               total_reviews := length ns |}).
  assert (∀ r, r ∈ RATING_RANGE -> csv_row m r = Ok (csv_line m r)) as Hrow.
  { intros r Hr. eapply csv_row_Ok; simpl.
    - rewrite bucket_counts_lookup. by rewrite bool_decide_eq_true_2.
    - apply length_filter. }
  split.
  - unfold save_metrics_csv.
    change (rating_counts m) with (bucket_counts ns).
    rewrite keys_descending_bucket_counts.
    rewrite (mapM_result_Ok _ (csv_line m)); [done|].
    repeat constructor; apply Hrow; by apply RATING_RANGE_stars.
  - simpl. intros Hz r Hr. destruct ns; [|done].
    unfold csv_line, m. simpl. rewrite bucket_counts_lookup.
    by rewrite bool_decide_eq_true_2.
Qed.

Lemma save_metrics_csv_of_calculate_metrics_witness :
  let reviews : list (gmap string value) :=
    [ {[ "rating" := PInt 5 ]}; {[ "rating" := PInt 5 ]};
      {[ "rating" := PInt 1 ]} ] in
  let m := {| average_rating := PFloat (S754_finite false 8256599316845909 (-51));
              rating_counts := {[ 1%Z := 1; 2%Z := 0; 3%Z := 0; 4%Z := 0; 5%Z := 2 ]};
              total_reviews := 3 |} in
  calculate_metrics reviews = Ok m
  ∧ save_metrics_csv m
    = Ok [ csv_header;
           ("5,2,66.67" ++ newline)%string; ("4,0,0.00" ++ newline)%string;
           ("3,0,0.00" ++ newline)%string; ("2,0,0.00" ++ newline)%string;
           ("1,1,33.33" ++ newline)%string ].
Proof.
  intros reviews m.
  assert (calculate_metrics reviews = Ok m) as H by (vm_compute; reflexivity).
  split; [exact H|].
  destruct (save_metrics_csv_of_calculate_metrics reviews m H) as [-> _].
  vm_compute. reflexivity.
Defined.

End MetricsFiles.

(** ** [transformer_sentiment], [apply_sentiment] and [sentiment_metrics]:
    batches, labels and counts *)

Section SentimentAggregator_more.
Import Py advanced_insights.

(** *** Batches *)

Lemma transformer_sentiment_batches
  (sent_pipe : list string -> list classification) texts :
  transformer_sentiment sent_pipe texts = mjoin (sent_pipe <$> batches texts).
Proof.
  unfold transformer_sentiment, batches.
  generalize (range_step (length texts) batch_size). intros idxs.
  rewrite <- (app_nil_l (mjoin _)). generalize (@nil classification).
  induction idxs as [|i idxs IH]; intros acc; simpl.
  - by rewrite app_nil_r.
  - rewrite IH. by rewrite <- app_assoc.
Qed.

Lemma range_step_S (n step : nat) :
  (0 < step)%nat -> (0 < n)%nat ->
  range_step n step
  = 0 :: ((λ i, step + i) <$> range_step (n - step) step).
Proof.
  intros Hs Hn. unfold range_step.
  assert ((n + step - 1) `div` step
          = S ((n - step + step - 1) `div` step)) as ->.
  { destruct (Nat.le_gt_cases step n) as [Hle|Hgt].
    - replace (n + step - 1) with ((n - step + step - 1) + 1 * step) by lia.
      rewrite Nat.div_add by lia. lia.
    - replace (n - step + step - 1) with (step - 1) by lia.
      rewrite (Nat.div_small (step - 1)) by lia.
      replace (n + step - 1) with ((n - 1) + 1 * step) by lia.
      rewrite Nat.div_add, Nat.div_small by lia. done. }
  simpl. f_equal. rewrite <- !list_fmap_compose, <- fmap_S_seq.
  rewrite <- list_fmap_compose. apply list_fmap_ext. intros _ k _. simpl. lia.
Qed.

Lemma chunks_spec {A} (b : nat) (l : list A) :
  (0 < b)%nat ->
  let cs := (λ i, take b (drop i l)) <$> range_step (length l) b in
  mjoin cs = l ∧ Forall (λ c, (1 ≤ length c ≤ b)%nat) cs.
Proof.
  intros Hb. remember (length l) as n eqn:Hn. revert l Hn.
  induction n as [n IH] using lt_wf_ind. intros l Hn.
  destruct (Nat.eq_dec n 0) as [->|Hpos].
  { destruct l; [|done]. unfold range_step.
    replace (0 + b - 1) with (b - 1) by lia.
    rewrite Nat.div_small by lia. by split; [|constructor]. }
  rewrite range_step_S by lia. simpl.
  assert (∀ i, take b (drop (b + i) l) = take b (drop i (drop b l))) as Hd.
  { intros i. by rewrite drop_drop. }
  rewrite <- list_fmap_compose.
  rewrite (list_fmap_ext _ (λ i, take b (drop i (drop b l))) _)
    by (intros; apply Hd).
  assert (length (drop b l) = n - b) as Hlen by (rewrite length_drop; lia).
  destruct (IH (n - b) ltac:(lia) (drop b l) (eq_sym Hlen)) as [IH1 IH2].
  rewrite <- Hlen in IH1, IH2 |- *. split.
  - rewrite IH1. apply take_drop.
  - constructor; [|done]. rewrite length_take, drop_0. lia.
Qed.

Lemma batches_spec (texts : list string) :
  mjoin (batches texts) = texts
  ∧ Forall (λ b, (1 ≤ length b ≤ 32)%nat) (batches texts).
Proof. apply (chunks_spec batch_size texts). unfold batch_size. lia. Qed.

(** X9: [transformer_sentiment] hands the texts to the pipeline in
    consecutive batches: put end to end the batches are the texts, each
    batch has at least one and at most 32 texts (none is empty, so no text
    means no call), and the result is the answers to the batches put end
    to end. *)
Theorem transformer_sentiment_batching
  (sent_pipe : list string -> list classification) (texts : list string) :
  transformer_sentiment sent_pipe texts = mjoin (sent_pipe <$> batches texts)
  ∧ mjoin (batches texts) = texts
  ∧ Forall (λ b, (1 ≤ length b ≤ 32)%nat) (batches texts).
Proof.
  split; [apply transformer_sentiment_batches | apply batches_spec].
Qed.

Lemma mjoin_homomorphic {A B} (f : list A -> list B) (ls : list (list A)) :
  (∀ a b, f (a ++ b) = f a ++ f b) ->
  mjoin (f <$> ls) = f (mjoin ls).
Proof.
  intros Hf. assert (f [] = []) as Hnil.
  { pose proof (Hf [] []) as H. simpl in H.
    apply (f_equal length) in H. rewrite length_app in H.
    destruct (f []); [done | simpl in H; lia]. }
  induction ls as [|l ls IH]; [done|].
  change (f l ++ mjoin (f <$> ls) = f (l ++ mjoin ls)). by rewrite IH, Hf.
Qed.

(** X10: batching does not show in the result when the pipeline treats
    its texts independently of one another (what it answers for two lists
    put end to end is its two answers put end to end): the result is then
    what the pipeline would answer for all the texts at once. *)
Theorem transformer_sentiment_transparent
  (sent_pipe : list string -> list classification) (texts : list string) :
  (∀ a b, sent_pipe (a ++ b) = sent_pipe a ++ sent_pipe b) ->
  transformer_sentiment sent_pipe texts = sent_pipe texts.
Proof.
  intros Hf. rewrite transformer_sentiment_batches, mjoin_homomorphic by done.
  f_equal. apply batches_spec.
Qed.

Lemma transformer_sentiment_transparent_witness :
  let sent_pipe := λ texts : list string,
    (λ t, {| label := Unicode.lit (if String.eqb t "" then "neutral"
                                   else "POSITIVE");
             score := PFloat (float_of_Z 1) |}) <$> texts in
  let texts := replicate 40 "good" ++ [""] in
  (∀ a b, sent_pipe (a ++ b) = sent_pipe a ++ sent_pipe b)
  ∧ transformer_sentiment sent_pipe texts = sent_pipe texts.
Proof.
  intros sent_pipe texts.
  assert (∀ a b, sent_pipe (a ++ b) = sent_pipe a ++ sent_pipe b) as H
    by (intros a b; apply fmap_app).
  split; [exact H|]. exact (transformer_sentiment_transparent sent_pipe texts H).
Defined.

(** *** Labels *)

Lemma canonical_label_SENTIMENTS raw : canonical_label raw ∈ SENTIMENTS.
Proof.
  unfold canonical_label, SENTIMENTS.
  repeat case_bool_decide; set_solver.
Qed.

Lemma zip_rows_spec (df : list string) (results : list classification) :
  length results = length df ->
  let rows := zip_with (λ text ls, {| cleaned_content := text; sentiment := ls.1;
                                      sentiment_score := ls.2 |})
                df (zip ((λ r, canonical_label (label r)) <$> results)
                        ((λ r, stored_score (score r)) <$> results)) in
  cleaned_content <$> rows = df
  ∧ Forall (λ r, sentiment r ∈ SENTIMENTS) rows.
Proof.
  revert df. induction results as [|c results IH]; intros [|text df] Hlen;
    simpl in *; try done.
  destruct (IH df ltac:(lia)) as [IH1 IH2]. split; [by f_equal|].
  constructor; [apply canonical_label_SENTIMENTS | done].
Qed.

(** X11: on a frame whose column [cleaned_content], if it has one, holds
    strings, [apply_sentiment] either returns or raises [KeyError] or
    [ValueError]. It raises [KeyError] exactly on a frame without the
    column (the frame built from no entry), and [ValueError] exactly when
    the frame has the column and the number of classifications differs
    from the number of reviews. When it returns, the frame has the
    reviews' contents unchanged and in order, and every sentiment is one
    of positive, negative and neutral. *)
Theorem apply_sentiment_outcome
  (sent_pipe : list string -> list classification) (df : frame) :
  match apply_sentiment sent_pipe df with
  | Ok rows =>
      ∃ texts, df = Column texts
        ∧ length (transformer_sentiment sent_pipe texts) = length texts
        ∧ cleaned_content <$> rows = texts
        ∧ Forall (λ r, sentiment r ∈ SENTIMENTS) rows
  | Raise e =>
      (e = KeyError ∧ df = NoColumn)
      ∨ (e = ValueError
         ∧ ∃ texts, df = Column texts
             ∧ length (transformer_sentiment sent_pipe texts) ≠ length texts)
  end.
Proof.
  destruct df as [|texts]; [by left|].
  unfold apply_sentiment. case_bool_decide as Hlen.
  - exists texts. split; [done|]. split; [done|]. by apply zip_rows_spec.
  - right. split; [done|]. by exists texts.
Qed.

Lemma length_mjoin_batches
  (sent_pipe : list string -> list classification) (ls : list (list string)) :
  (∀ batch, length (sent_pipe batch) = length batch) ->
  length (mjoin (sent_pipe <$> ls)) = length (mjoin ls).
Proof.
  intros Hf. induction ls as [|l ls IH]; [done|].
  change (length (sent_pipe l ++ mjoin (sent_pipe <$> ls))
          = length (l ++ mjoin ls)).
  by rewrite !length_app, IH, Hf.
Qed.

(** X12: on a frame that has the column [cleaned_content], holding
    strings, when the pipeline answers every batch with one classification
    per text, [apply_sentiment] does not raise and returns one row per
    review. *)
Theorem apply_sentiment_returns
  (sent_pipe : list string -> list classification) (df : list string) :
  (∀ batch, length (sent_pipe batch) = length batch) ->
  ∃ rows, apply_sentiment sent_pipe (Column df) = Ok rows
          ∧ length rows = length df.
Proof.
  intros Hf.
  assert (length (transformer_sentiment sent_pipe df) = length df) as Hlen.
  { rewrite transformer_sentiment_batches, length_mjoin_batches by done.
    f_equal. apply batches_spec. }
  unfold apply_sentiment. rewrite bool_decide_true by done.
  eexists. split; [done|].
  destruct (zip_rows_spec df _ Hlen) as [Hrows _].
  apply (f_equal length) in Hrows. by rewrite length_fmap in Hrows.
Qed.

Lemma apply_sentiment_returns_witness :
  let sent_pipe := λ texts : list string,
    (λ t, {| label := Unicode.lit "LABEL_0"; score := PFloat (float_of_Z 1) |}) <$> texts in
  let df := replicate 70 "crash" in
  (∀ batch, length (sent_pipe batch) = length batch)
  ∧ ∃ rows, apply_sentiment sent_pipe (Column df) = Ok rows
            ∧ length rows = length df.
Proof.
  intros sent_pipe df.
  assert (∀ batch, length (sent_pipe batch) = length batch) as H
    by (intros batch; apply length_fmap).
  split; [exact H|]. exact (apply_sentiment_returns sent_pipe df H).
Defined.

(** *** Counts *)

Lemma total_count_insert (m : gmap string nat) l :
  total_count (<[l := S (default 0 (m !! l))]> m) = S (total_count m).
Proof.
  unfold total_count. destruct (m !! l) as [n|] eqn:E; simpl.
  - rewrite <- (insert_delete_eq m).
    rewrite <- (insert_delete_id m l n E) at 2.
    rewrite !map_to_list_insert by apply lookup_delete_eq. done.
  - by rewrite map_to_list_insert.
Qed.

Lemma total_count_value_counts (ls : list string) :
  total_count (value_counts ls) = length ls.
Proof.
  unfold value_counts.
  assert (∀ m : gmap string nat,
            total_count (foldl (λ m l, <[l := S (default 0 (m !! l))]> m) m ls)
            = (total_count m + length ls)%nat) as H.
  { induction ls as [|x ls IH]; intros m; simpl; [lia|].
    rewrite IH, total_count_insert. lia. }
  rewrite H. unfold total_count. by rewrite map_to_list_empty.
Qed.

(** X13: in the result of [sentiment_metrics], a label has a count
    exactly when some row carries it, its count is then the number of
    these rows, and all the counts add up to [total_reviews]. *)
Theorem sentiment_metrics_counts
  (add_up : list float -> float) (df : list row) :
  ∃ m, sentiment_metrics add_up df = Ok m
    ∧ (∀ l, counts m !! l
            = match length (labelled l df) with
              | 0 => None
              | S n => Some (S n)
              end)
    ∧ total_count (counts m) = total_reviews m.
Proof.
  eexists. split; [apply sentiment_metrics_closed|]. simpl. split.
  - intros l. by rewrite value_counts_lookup, length_filter_sentiment.
  - by rewrite total_count_value_counts, length_fmap.
Qed.

End SentimentAggregator_more.

(** ** [apply_sentiment], [sentiment_metrics] and [build_sunburst] put
    together *)

Section AnalysisRun.
Import Py advanced_insights.

Variable add_up : list float -> float.

Lemma weight_under_app p ns1 ns2 :
  weight_under p (ns1 ++ ns2) = (weight_under p ns1 + weight_under p ns2)%Z.
Proof.
  unfold weight_under. rewrite filter_app, fmap_app.
  generalize ((λ n : node, match n.2 with PInt k => k | _ => 0%Z end)
                <$> filter (λ n : node, n.1.2 = p) ns1).
  intros l. induction l as [|x l IH]; simpl; [done|]. rewrite IH. lia.
Qed.

Lemma weight_under_keywords s (kws : list (string * float)) :
  s ∈ SENTIMENTS ->
  weight_under "Reviews" (keyword_node s <$> kws) = 0%Z.
Proof.
  intros Hs. unfold weight_under.
  induction kws as [|kw kws IH]; [done|].
  rewrite fmap_cons, filter_cons. unfold keyword_node at 1. cbn [fst snd].
  destruct (decide (capitalize s = "Reviews")) as [Heq|_]; [|exact IH].
  by destruct (capitalize_sentiment s Hs) as [[] _].
Qed.

Lemma weight_under_bucket_nodes m keywords s :
  s ∈ SENTIMENTS ->
  weight_under "Reviews" (bucket_nodes m keywords s)
  = Z.of_nat (count_of m s).
Proof.
  intros Hs. unfold bucket_nodes.
  destruct (count_of m s =? 0)%nat eqn:E.
  - apply Nat.eqb_eq in E. by rewrite E.
  - change (bucket_node m s :: ?l) with ([bucket_node m s] ++ l).
    rewrite weight_under_app, weight_under_keywords by done.
    unfold weight_under, bucket_node. rewrite filter_cons.
    cbn [fst snd]. rewrite decide_True by done. simpl. lia.
Qed.

Lemma count_labelled_SENTIMENTS (df : list row) :
  Forall (λ r, sentiment r ∈ SENTIMENTS) df ->
  (length (labelled "positive" df) + length (labelled "negative" df)
   + length (labelled "neutral" df) = length df)%nat.
Proof.
  unfold labelled. induction 1 as [|r df Hr _ IH]; [done|].
  rewrite !filter_cons. unfold SENTIMENTS in Hr.
  apply elem_of_cons in Hr as [->|Hr]; [simpl; lia|].
  apply elem_of_cons in Hr as [->|Hr]; [simpl; lia|].
  apply list_elem_of_singleton in Hr as ->. simpl. lia.
Qed.

Lemma count_of_value_counts (df : list row) m s :
  sentiment_metrics add_up df = Ok m ->
  count_of m s = length (labelled s df).
Proof.
  rewrite sentiment_metrics_closed. intros [= <-]. unfold count_of. simpl.
  rewrite value_counts_lookup, length_filter_sentiment.
  by destruct (length (labelled s df)).
Qed.

(** X15: in the hierarchy built from a frame that [apply_sentiment]
    labelled, the weights of the sentiment nodes (the nodes under the
    root) add up to the weight of the root, which is the number of
    reviews. *)
Theorem build_sunburst_weights_add_up
  (sent_pipe : list string -> list classification) (df : list string)
  (rows : list row) (m : metrics)
  (keywords : gmap string (list (string * float))) :
  apply_sentiment sent_pipe (Column df) = Ok rows ->
  sentiment_metrics add_up rows = Ok m ->
  let ns := nodes (build_sunburst m keywords) in
  ns !! 0 = Some ("Reviews", "", PInt (Z.of_nat (length df)))
  ∧ weight_under "Reviews" ns = Z.of_nat (length df).
Proof.
  intros Hrows Hm ns. unfold ns.
  rewrite build_sunburst_closed, nodes_sunburst_of.
  unfold apply_sentiment in Hrows. case_bool_decide as Hlen; [|done].
  injection Hrows as Hrows.
  destruct (zip_rows_spec df _ Hlen) as [Hcol Hsent].
  rewrite Hrows in Hcol, Hsent.
  assert (total_reviews m = length df) as Htotal.
  { rewrite sentiment_metrics_closed in Hm. injection Hm as <-. simpl.
    by rewrite <- Hcol, length_fmap. }
  split; [by rewrite Htotal|].
  change (?n :: ?l) with ([n] ++ l). rewrite weight_under_app.
  unfold SENTIMENTS. cbn [flat_map]. rewrite !weight_under_app.
  rewrite !weight_under_bucket_nodes by (apply list_elem_of_In; simpl; auto).
  rewrite !(count_of_value_counts rows) by done.
  pose proof (count_labelled_SENTIMENTS rows Hsent) as Hsum.
  rewrite <- Hcol, length_fmap.
  change (weight_under "Reviews" []) with 0%Z.
  change (weight_under "Reviews" [("Reviews", "", PInt (Z.of_nat (total_reviews m)))])
    with 0%Z.
  lia.
Qed.

End AnalysisRun.

Section AnalysisRun_examples.
Import Py advanced_insights.

Lemma build_sunburst_weights_add_up_witness :
  let sent_pipe := λ texts : list string,
    (λ t, {| label := Unicode.lit (if String.eqb t "crash login"
                                   then "negative" else "Positive");
             score := PFloat (float_of_Z 1) |}) <$> texts in
  let df := ["love app"; "crash login"; "great"] in
  let rows :=
    [ {| cleaned_content := "love app"; sentiment := "positive";
         sentiment_score := float_of_Z 1 |};
      {| cleaned_content := "crash login"; sentiment := "negative";
         sentiment_score := float_of_Z 1 |};
      {| cleaned_content := "great"; sentiment := "positive";
         sentiment_score := float_of_Z 1 |} ] in
  let keywords : gmap string (list (string * float)) :=
    {[ "negative" := [("crash", float_of_Z 1)] ]} in
  let add_up := λ _ : list float, float_of_Z 1 in
  ∃ m, apply_sentiment sent_pipe (Column df) = Ok rows
    ∧ sentiment_metrics add_up rows = Ok m
    ∧ nodes (build_sunburst m keywords) !! 0
      = Some ("Reviews", "", PInt 3)
    ∧ weight_under "Reviews" (nodes (build_sunburst m keywords)) = 3%Z.
Proof.
  intros sent_pipe df rows keywords add_up.
  assert (apply_sentiment sent_pipe (Column df) = Ok rows) as Hrows
    by (vm_compute; reflexivity).
  eexists. split; [exact Hrows|].
  pose proof (sentiment_metrics_closed add_up rows) as Hm.
  split; [exact Hm|].
  exact (build_sunburst_weights_add_up add_up sent_pipe df rows _ keywords
           Hrows Hm).
Defined.

End AnalysisRun_examples.

(** ** find_app_id.py and the /search endpoint *)

Section ApplicationSearch.
Import Py Unicode find_app_id api_search.

(** *** [validate_search_inputs] *)

Lemma rstrip_nil (s : str) :
  rstrip s = []
  <-> Forall (λ c, is_space c = true) s.
Proof.
  induction s as [|c s IH]; simpl; [by split|].
  destruct (rstrip s) as [|r rs] eqn:E.
  - destruct (is_space c) eqn:Hc; split; try done.
    + intros _. constructor; [done | by apply IH].
    + intros H. inversion H; congruence.
  - split; [done|]. intros H. inversion H as [|? ? _ Hs]; subst.
    by apply IH in Hs.
Qed.

Lemma lstrip_cases (s : str) :
  (lstrip s = []
   ∧ Forall (λ c, is_space c = true) s)
  ∨ (∃ c r, lstrip s = c :: r
            ∧ is_space c = false
            ∧ Exists (λ c, is_space c = false) s).
Proof.
  induction s as [|c s IH]; simpl; [by left|].
  destruct (is_space c) eqn:Hc.
  - destruct IH as [[-> Hs]|(c' & r & -> & Hc' & Hs)].
    + left. split; [done | by constructor].
    + right. exists c', r. split; [done|]. split; [done | by right].
  - right. exists c, s. split; [done|]. split; [done | by left].
Qed.

Lemma strip_nil (s : str) :
  strip s = []
  <-> ¬ Exists (λ c, is_space c = false) s.
Proof.
  unfold strip.
  destruct (lstrip_cases s) as [[-> Hs]|(c & r & -> & Hc & Hs)].
  - split; [|done]. intros _ Hex. apply Exists_exists in Hex as (c & Hin & Hc).
    rewrite Forall_forall in Hs. apply Hs in Hin. congruence.
  - split; [|done]. intros H. apply rstrip_nil in H.
    inversion H; congruence.
Qed.

Lemma length_lower_full c : c ≠ 304%N -> length (lower_full c) = 1.
Proof.
  intros Hc. unfold lower_full. apply N.eqb_neq in Hc. by rewrite Hc.
Qed.

Lemma length_lower_from before s :
  304%N ∉ s -> length (lower_from before s) = length s.
Proof.
  revert before. induction s as [|c s IH]; intros before Hs; [done|].
  apply not_elem_of_cons in Hs as [Hc Hs]. simpl.
  rewrite length_app, IH by done.
  destruct (c =? 931)%N; [done|]. by rewrite length_lower_full.
Qed.

Lemma lower_from_dotted before s :
  304%N ∈ s -> 775%N ∈ lower_from before s.
Proof.
  revert before. induction s as [|c s IH]; intros before Hs;
    [by apply elem_of_nil in Hs|].
  simpl. apply elem_of_app.
  apply elem_of_cons in Hs as [<-|Hs]; [|right; by apply IH].
  left. apply list_elem_of_In. simpl. auto.
Qed.

Lemma valid_countries_plain :
  Forall (λ v, length v = 2 ∧ 775%N ∉ v) valid_countries.
Proof.
  repeat constructor; try (apply not_elem_of_cons; split; [done|]);
    try (apply not_elem_of_cons; split; [done|]); apply not_elem_of_nil.
Qed.

(** A country that lowers to one of the ten codes is two characters
    long: the test of its length decides nothing. *)
Lemma valid_countries_length c :
  lower c ∈ valid_countries -> length c = 2.
Proof.
  intros Hc. pose proof valid_countries_plain as Hv.
  rewrite Forall_forall in Hv. destruct (Hv _ Hc) as [Hlen Hdot].
  destruct (decide (304%N ∈ c)) as [Hin|Hnot].
  - by apply (lower_from_dotted []) in Hin.
  - unfold lower in Hlen. by rewrite length_lower_from in Hlen.
Qed.

Lemma strip_length_0 (s : str) :
  (length (strip s) =? 0)%nat = true
  <-> ¬ Exists (λ c, is_space c = false) s.
Proof.
  rewrite Nat.eqb_eq, <- strip_nil. by destruct (strip s).
Qed.

Lemma validate_search_inputs_acceptable app_name country :
  validate_search_inputs app_name country = Ok tt
  <-> acceptable app_name country.
Proof.
  unfold validate_search_inputs, acceptable. split.
  - destruct app_name as [| | | |name| |];
      try (rewrite ?orb_true_r; simpl; by rewrite ?orb_true_r).
    destruct (length (strip name) =? 0)%nat eqn:Hn;
      [by rewrite orb_true_r|].
    rewrite orb_false_r.
    destruct (negb (truthy (PStr name)) || negb (is_str (PStr name)));
      [done|].
    destruct country as [| | | |c| |];
      try (rewrite ?orb_true_r; simpl; by rewrite ?orb_true_r).
    destruct (negb (truthy (PStr c)) || negb (is_str (PStr c))
              || negb (length c =? 2)%nat); [done|].
    case_bool_decide as Hc; [|done]. intros _.
    exists name, c. split; [done|]. split; [done|]. split; [|done].
    destruct (decide (Exists (λ ch, is_space ch = false) name))
      as [|Hno]; [done|].
    apply strip_length_0 in Hno. congruence.
  - intros (name & c & -> & -> & Hname & Hc).
    assert ((length (strip name) =? 0)%nat = false) as ->.
    { apply not_true_iff_false. rewrite strip_length_0. tauto. }
    assert (truthy (PStr name) = true) as ->.
    { destruct name; [|done]. by apply Exists_nil in Hname. }
    pose proof (valid_countries_length _ Hc) as Hlen.
    assert (truthy (PStr c) = true) as -> by (by destruct c).
    rewrite Hlen. simpl. by rewrite bool_decide_true.
Qed.

Lemma validate_search_inputs_cases app_name country :
  validate_search_inputs app_name country = Ok tt
  ∨ validate_search_inputs app_name country = Raise ValueError.
Proof.
  unfold validate_search_inputs.
  destruct (_ || _ || _); [by right|].
  destruct country as [| | | |c| |];
    try (right; simpl; by rewrite ?orb_true_r).
  destruct (_ || _ || _); [by right|].
  case_bool_decide; auto.
Qed.

(** X16: [validate_search_inputs] accepts exactly a name that is a string
    with a character other than white space together with a country that
    is a string whose lower case is one of the ten codes (so "US", and
    also the Kelvin sign followed by "r", which lowers to "kr"); the test
    of the country's length never decides. Whatever else it is given,
    values that are not strings included, it raises [ValueError]. The
    strings are of any code points. *)
Theorem validate_search_inputs_accepts (app_name country : value) :
  (validate_search_inputs app_name country = Ok tt
   <-> acceptable app_name country)
  ∧ (validate_search_inputs app_name country = Raise ValueError
     <-> ¬ acceptable app_name country).
Proof.
  pose proof (validate_search_inputs_acceptable app_name country) as Hiff.
  split; [done|]. rewrite <- Hiff.
  destruct (validate_search_inputs_cases app_name country) as [->| ->];
    split; congruence.
Qed.

(** *** [search_app_store] *)

Lemma app_data_of_truthy (d : gmap string value) :
  truthy (PDict (app_data_of d)) = true.
Proof.
  simpl. rewrite bool_decide_false; [done|]. intros H.
  apply (f_equal (λ m : gmap string value, m !! "trackName")) in H.
  by rewrite lookup_empty in H.
Qed.

Lemma safe_extract_app_data_value (v : value) :
  (safe_extract_app_data v).2 = app_data_of_value v.
Proof. by destruct v. Qed.

Lemma search_step_valid acc item :
  (search_step acc item).1.2 = acc.1.2 ++ option_list (app_data_of_value item.2).
Proof.
  destruct acc as [[out valid] n], item as [i v]. unfold search_step.
  destruct v as [| | | | | |d].
  7:{ unfold safe_extract_app_data.
      change (list_to_map _) with (app_data_of d).
      by rewrite app_data_of_truthy. }
  all: simpl; by rewrite app_nil_r.
Qed.

Lemma foldl_search_step_valid acc (items : list (nat * value)) :
  (foldl search_step acc items).1.2
  = acc.1.2 ++ omap app_data_of_value items.*2.
Proof.
  revert acc. induction items as [|item items IH]; intros acc; simpl.
  - by rewrite app_nil_r.
  - rewrite IH, search_step_valid, <- app_assoc. f_equal.
    by destruct (app_data_of_value item.2).
Qed.

Lemma enumerate_values {A} start (l : list A) : (enumerate start l).*2 = l.
Proof.
  unfold enumerate. revert start. induction l as [|x l IH]; intros start;
    [done|].
  simpl. f_equal. rewrite <- (IH (S start)) at 2.
  f_equal. apply imap_ext. intros i y _. simpl. f_equal. lia.
Qed.

Lemma omap_not_dicts (l : list value) :
  Forall (λ v, app_data_of_value v = None) l ->
  omap app_data_of_value l = [].
Proof. induction 1 as [|v l Hv _ IH]; [done|]. simpl. by rewrite Hv. Qed.

Lemma search_app_store_found http name c :
  (search_app_store http (PStr name) (PStr c)).2
  = match validate_search_inputs (PStr name) (PStr c) with
    | Ok _ => found (http (strip name) (lower c))
    | Raise _ => []
    end.
Proof.
  unfold search_app_store.
  destruct (validate_search_inputs (PStr name) (PStr c)); [|done].
  destruct (http (strip name) (lower c)) as [| | | | |data]; try done.
  destruct data as [| | | | | |data]; try done.
  unfold found, dict_get_or.
  destruct (data !! "results") as [results|]; [|done]. simpl.
  destruct (truthy results) eqn:Ht; simpl.
  2:{ destruct results as [| | | | |l|]; try done. by destruct l. }
  destruct results as [| | | |s|l|d]; simpl; try done.
  - destruct (foldl _ _ _) as [[out valid] n] eqn:E.
    apply (f_equal (λ x, x.1.2)) in E.
    rewrite foldl_search_step_valid, enumerate_values in E. simpl in E.
    rewrite <- E. apply omap_not_dicts, Forall_fmap, Forall_forall.
    by intros ? _.
  - destruct (foldl _ _ _) as [[out valid] n] eqn:E.
    apply (f_equal (λ x, x.1.2)) in E.
    by rewrite foldl_search_step_valid, enumerate_values in E.
  - destruct (foldl _ _ _) as [[out valid] n] eqn:E.
    apply (f_equal (λ x, x.1.2)) in E.
    rewrite foldl_search_step_valid, enumerate_values in E. simpl in E.
    rewrite <- E. apply omap_not_dicts, Forall_fmap, Forall_forall.
    by intros ? _.
Qed.

Lemma dom_app_data_of (d : gmap string value) :
  dom (app_data_of d) = list_to_set FIELDS.
Proof.
  unfold app_data_of. rewrite dom_list_to_map_L, <- list_fmap_compose.
  f_equal.
Qed.

Lemma found_fields r :
  Forall (λ d : gmap string value, dom d = list_to_set FIELDS) (found r).
Proof.
  unfold found. destruct r as [| | | | |[| | | | | |data]]; try done.
  destruct (data !! "results") as [[| | | | |items|]|]; try done.
  induction items as [|[| | | | | |d] items IH]; simpl; try done.
  constructor; [apply dom_app_data_of | done].
Qed.

Lemma search_app_store_not_strings http app_name country :
  is_str app_name && is_str country = false ->
  search_app_store http app_name country
  = ([UnexpectedError ValueError], []).
Proof.
  intros Hstr. unfold search_app_store.
  destruct (validate_search_inputs_cases app_name country) as [H|H].
  - apply validate_search_inputs_acceptable in H as (? & ? & -> & -> & _).
    done.
  - by rewrite H.
Qed.


(** *** The endpoint *)

Lemma search_app_handler_found http name country :
  search_app_handler http name country
  = match (match validate_search_inputs (PStr name) (PStr country) with
           | Ok _ => found (http (strip name) (lower country))
           | Raise _ => []
           end) with
    | [] => HTTPException 500
    | results => Returned results
    end.
Proof.
  unfold search_app_handler, search_app_body. rewrite search_app_store_found.
  destruct (match validate_search_inputs (PStr name) (PStr country) with
            | Ok _ => _ | Raise _ => _ end); done.
Qed.


End ApplicationSearch.

Section ApplicationSearch_examples.
Import Py Unicode find_app_id api_search.

(** A response with one application, one item that is not a dict and no
    rating for the application; the country is asked for in capitals,
    then left out, then spelled with three letters. *)
Example search_app_found :
  let http := λ term country : str,
    if bool_decide (term = lit "Nebula") && bool_decide (country = lit "us")
    then Json (PDict {[ "resultCount" := PInt 2;
                        "results" :=
                          PList [ PDict {[ "trackName" := PStr (lit "Nebula");
                                           "trackId" := PInt 1447033725 ]};
                                  PStr (lit "noise") ] ]})
    else Timeout in
  let nebula := app_data_of {[ "trackName" := PStr (lit "Nebula");
                               "trackId" := PInt 1447033725 ]} in
  search_app http (Some (lit "  Nebula ")) (Some (lit "US")) = Returned [nebula]
  ∧ search_app http (Some (lit "Nebula")) None = Returned [nebula]
  ∧ search_app http (Some (lit "Nebula")) (Some (lit "gb")) = HTTPException 500
  ∧ search_app http (Some (lit "Nebula")) (Some (lit "xx")) = HTTPException 500
  ∧ search_app http (Some (lit "Nebula")) (Some (lit "usa")) = Rejected_422
  ∧ search_app http None (Some (lit "us")) = Rejected_422.
Proof. vm_compute. repeat split; reflexivity. Qed.

(** The Kelvin sign lowers to "k": the country is accepted. *)
Example validate_search_inputs_kelvin :
  validate_search_inputs (PStr (lit "Nebula")) (PStr (8490%N :: lit "r"))
  = Ok tt.
Proof. vm_compute. reflexivity. Qed.

End ApplicationSearch_examples.

(** ** [generate_insights] and [build_sunburst]: what the result depends on *)

Section InsightRules_more.
Import Py advanced_insights.

Lemma any_in_ext neg neg' (triggers : list string) :
  (∀ k, k ∈ neg <-> k ∈ neg') ->
  any_in neg triggers = any_in neg' triggers.
Proof.
  intros H. apply eq_true_iff_eq. rewrite !any_in_spec.
  by setoid_rewrite H.
Qed.

Lemma fired_ext neg neg' :
  (∀ k, k ∈ neg <-> k ∈ neg') -> fired neg = fired neg'.
Proof.
  intros H. unfold fired. f_equal. apply filter_ext.
  intros rule. by apply any_in_ext.
Qed.

(** X19: the insights depend on nothing but which words occur among the
    first fifty negative keywords: their scores, their order, repeated
    words, the keywords past the fiftieth and the keywords of the other
    sentiments make no difference. *)
Theorem generate_insights_depends_on_names
  (keywords keywords' : gmap string (list (string * float))) :
  (∀ k, k ∈ negative_keywords keywords <-> k ∈ negative_keywords keywords') ->
  generate_insights keywords = generate_insights keywords'.
Proof.
  intros H. rewrite !generate_insights_closed. by rewrite (fired_ext _ _ H).
Qed.

Lemma generate_insights_depends_on_names_witness :
  let keywords : gmap string (list (string * float)) :=
    {[ "negative" := [("crash", float_of_Z 1); ("login", float_zero)];
       "positive" := [("price", float_of_Z 1)] ]} in
  let keywords' : gmap string (list (string * float)) :=
    {[ "negative" := [("login", float_of_Z 3); ("crash", float_zero);
                      ("login", float_zero)] ]} in
  (∀ k, k ∈ negative_keywords keywords <-> k ∈ negative_keywords keywords')
  ∧ generate_insights keywords = generate_insights keywords'.
Proof.
  intros keywords keywords'.
  assert (∀ k, k ∈ negative_keywords keywords
               <-> k ∈ negative_keywords keywords') as H.
  { intros k. change (negative_keywords keywords) with ["crash"; "login"].
    change (negative_keywords keywords') with ["login"; "crash"; "login"].
    rewrite !elem_of_cons, !elem_of_nil. tauto. }
  split; [exact H|].
  exact (generate_insights_depends_on_names keywords keywords' H).
Defined.

Lemma fired_mono neg neg' ms :
  (∀ k, k ∈ neg -> k ∈ neg') -> ms ∈ fired neg -> ms ∈ fired neg'.
Proof.
  intros H. unfold fired. rewrite !list_elem_of_fmap.
  intros ([triggers ms'] & -> & Hin). exists (triggers, ms'). split; [done|].
  apply list_elem_of_In, filter_In. apply list_elem_of_In, filter_In in Hin.
  destruct Hin as [Hin Hany]. split; [done|].
  simpl in *. apply any_in_spec in Hany as (k & Hk & Hneg).
  apply any_in_spec. exists k. auto.
Qed.

(** X20: more negative keywords never take a finding away: every message
    other than the fallback that the insights hold for some keywords is
    still among the insights when the first fifty negative keywords
    include the former ones. *)
Theorem generate_insights_monotone
  (keywords keywords' : gmap string (list (string * float))) (ms : string) :
  (∀ k, k ∈ negative_keywords keywords -> k ∈ negative_keywords keywords') ->
  ms ∈ generate_insights keywords -> ms ≠ FALLBACK ->
  ms ∈ generate_insights keywords'.
Proof.
  intros H. rewrite !generate_insights_closed. intros Hms Hfb.
  assert (ms ∈ fired (negative_keywords keywords)) as Hin.
  { destruct (fired (negative_keywords keywords)); [|done].
    by apply list_elem_of_singleton in Hms. }
  apply (fired_mono _ _ _ H) in Hin.
  destruct (fired (negative_keywords keywords')); [|done].
  by apply elem_of_nil in Hin.
Qed.

Lemma generate_insights_monotone_witness :
  let keywords : gmap string (list (string * float)) :=
    {[ "negative" := [("crash", float_of_Z 1)] ]} in
  let keywords' : gmap string (list (string * float)) :=
    {[ "negative" := [("ads", float_of_Z 1); ("crash", float_zero)] ]} in
  (∀ k, k ∈ negative_keywords keywords -> k ∈ negative_keywords keywords')
  ∧ STABILITY ∈ generate_insights keywords ∧ STABILITY ≠ FALLBACK
  ∧ STABILITY ∈ generate_insights keywords'.
Proof.
  intros keywords keywords'.
  assert (∀ k, k ∈ negative_keywords keywords
               -> k ∈ negative_keywords keywords') as H.
  { intros k. change (negative_keywords keywords) with ["crash"].
    change (negative_keywords keywords') with ["ads"; "crash"].
    rewrite !elem_of_cons, !elem_of_nil. tauto. }
  assert (STABILITY ∈ generate_insights keywords) as Hin
    by (apply list_elem_of_In; vm_compute; auto).
  assert (STABILITY ≠ FALLBACK) as Hne by discriminate.
  split; [exact H|]. split; [exact Hin|]. split; [exact Hne|].
  exact (generate_insights_monotone keywords keywords' STABILITY H Hin Hne).
Defined.

(** *** The size of the hierarchy *)

Lemma length_bucket_nodes m keywords s :
  length (bucket_nodes m keywords s)
  = if (count_of m s =? 0)%nat then 0
    else S (length (default [] (keywords !! s)) `min` 50).
Proof.
  unfold bucket_nodes. destruct (count_of m s =? 0)%nat; [done|].
  simpl. rewrite length_fmap, length_take. lia.
Qed.

(** X21: the three lists of the hierarchy have the same length, which is
    one for the root plus, for each sentiment with a count, one for the
    sentiment and one for each of its first fifty keywords: at most 154
    nodes however many keywords there are. *)
Theorem build_sunburst_size
  (m : metrics) (keywords : gmap string (list (string * float))) :
  let sb := build_sunburst m keywords in
  let size s :=
    if (count_of m s =? 0)%nat then 0
    else S (length (default [] (keywords !! s)) `min` 50) in
  length (parents sb) = length (labels sb)
  ∧ length (values sb) = length (labels sb)
  ∧ length (labels sb) = S (size "positive" + size "negative" + size "neutral")
  ∧ (length (labels sb) ≤ 154)%nat.
Proof.
  intros sb size. unfold sb. rewrite build_sunburst_closed.
  unfold sunburst_of. cbn [labels parents values].
  rewrite !length_fmap. split; [done|]. split; [done|].
  unfold SENTIMENTS. cbn [flat_map length]. rewrite !length_app.
  rewrite !length_bucket_nodes. fold (size "positive") (size "negative")
    (size "neutral"). simpl.
  assert (∀ s, size s ≤ 51)%nat as Hsize.
  { intros s. unfold size. destruct (count_of m s =? 0)%nat; lia. }
  pose proof (Hsize "positive"). pose proof (Hsize "negative").
  pose proof (Hsize "neutral"). lia.
Qed.

End InsightRules_more.
